(** * fastapi_mongo_base: query compilation, pagination, lifecycle operations
      and the keyed condition registry

    A shallow embedding of [fastapi_mongo_base/models.py], [schemas.py],
    [core/config.py], [routes.py] (the pagination boundary) and
    [utils/conditions.py], with the properties of the specification stated
    over it. *)

From Stdlib Require Import ZArith Lia Bool Ascii String List.
From stdpp Require Import gmap strings list fin_maps.

#[local] Set Warnings "-register-all".
Local Open Scope string_scope.
Local Open Scope list_scope.

(* ===================================================================== *)
(** * Python values *)
(* ===================================================================== *)

(** A binary64 float, by sign, mantissa and exponent ([m * 2^e]). *)
Inductive pyfloat : Type :=
| FZero (neg : bool)
| FInf (neg : bool)
| FNan
| FFinite (neg : bool) (m : positive) (e : Z).

(** The values that reach the model layer as keyword arguments, payload
    entries and document fields.  [VDecimal c e] is the finite decimal
    [c * 10^e]; [VDatetime] and [VDate] carry an ordinal; [VUuid] carries the
    128-bit number. Dictionaries have text keys, as JSON objects and
    [meta_data] do. *)
Inductive pyval : Type :=
| VNone
| VBool (b : bool)
| VInt (z : Z)
| VFloat (f : pyfloat)
| VDecimal (c : Z) (e : Z)
| VStr (s : string)
| VDatetime (t : Z)
| VDate (d : Z)
| VUuid (u : N)
| VList (l : list pyval)
| VTuple (l : list pyval)
| VDict (d : list (string * pyval)).

(** The exceptions the model layer raises or lets through. *)
Inductive pyerr : Type :=
| ValueError (msg : string)
| TypeError (msg : string)
| ValidationError (msg : string)
| AttributeError (msg : string).

Inductive result (A : Type) : Type :=
| Ok (a : A)
| Raise (e : pyerr).
Arguments Ok {A} a.
Arguments Raise {A} e.

Definition bind {A B} (r : result A) (k : A -> result B) : result B :=
  match r with
  | Ok a => k a
  | Raise e => Raise e
  end.

Notation "'let!' x ':=' r 'in' k" := (bind r (fun x => k))
  (at level 10, x name, r at level 100, k at level 200).

Definition is_ok {A} (r : result A) : bool :=
  match r with Ok _ => true | Raise _ => false end.

(** ** Numbers: exact value as a fraction *)

(** [num_frac v] is [Some (n, d)] when [v] is a finite number of value
    [n / d]. [bool] is a subclass of [int]. *)
Definition num_frac (v : pyval) : option (Z * Z) :=
  match v with
  | VBool b => Some (if b then 1%Z else 0%Z, 1%Z)
  | VInt z => Some (z, 1%Z)
  | VFloat (FZero _) => Some (0%Z, 1%Z)
  | VFloat (FFinite neg m e) =>
      let sm := if neg then Z.neg m else Z.pos m in
      if (0 <=? e)%Z then Some ((sm * 2 ^ e)%Z, 1%Z)
      else Some (sm, (2 ^ (- e))%Z)
  | VDecimal c e =>
      if (0 <=? e)%Z then Some ((c * 10 ^ e)%Z, 1%Z)
      else Some (c, (10 ^ (- e))%Z)
  | _ => None
  end.

Definition frac_eqb (a b : Z * Z) : bool :=
  (fst a * snd b =? fst b * snd a)%Z.

Definition frac_leb (a b : Z * Z) : bool :=
  (fst a * snd b <=? fst b * snd a)%Z.

(** ** Equality ([==]) *)

(** Python's [==] on these values: numbers compare by value across [bool],
    [int], [float] and [Decimal]; a NaN equals nothing; sequences compare
    element by element; dictionaries compare as mappings. *)
Fixpoint py_eqb (a b : pyval) {struct a} : bool :=
  let fix list_eqb (xs ys : list pyval) {struct xs} : bool :=
    match xs, ys with
    | [], [] => true
    | x :: xs', y :: ys' => py_eqb x y && list_eqb xs' ys'
    | _, _ => false
    end in
  let fix dict_sub (d1 d2 : list (string * pyval)) {struct d1} : bool :=
    match d1 with
    | [] => true
    | (k, v) :: d1' =>
        match List.find (fun kv => String.eqb (fst kv) k) d2 with
        | Some (_, w) => py_eqb v w && dict_sub d1' d2
        | None => false
        end
    end in
  match a, b with
  | VNone, VNone => true
  | VStr s, VStr t => String.eqb s t
  | VDatetime s, VDatetime t => (s =? t)%Z
  | VDate s, VDate t => (s =? t)%Z
  | VUuid s, VUuid t => (s =? t)%N
  | VList xs, VList ys => list_eqb xs ys
  | VTuple xs, VTuple ys => list_eqb xs ys
  | VDict d1, VDict d2 =>
      Nat.eqb (List.length d1) (List.length d2) && dict_sub d1 d2
  | VFloat (FInf s), VFloat (FInf t) => Bool.eqb s t
  | _, _ =>
      match num_frac a, num_frac b with
      | Some p, Some q => frac_eqb p q
      | _, _ => false
      end
  end.

(** Truth value of a value in a condition ([if v:], [v or d]). *)
Definition py_truthy (v : pyval) : bool :=
  match v with
  | VNone => false
  | VBool b => b
  | VInt z => negb (z =? 0)%Z
  | VFloat (FZero _) => false
  | VFloat _ => true
  | VDecimal c _ => negb (c =? 0)%Z
  | VStr s => negb (String.eqb s "")
  | VDatetime _ | VDate _ | VUuid _ => true
  | VList l | VTuple l => negb (Nat.eqb (List.length l) 0)
  | VDict d => negb (Nat.eqb (List.length d) 0)
  end.

(** [hash(v)] succeeds: lists and dictionaries are unhashable, a tuple is
    hashable when its members are. *)
Fixpoint py_hashable (v : pyval) : bool :=
  match v with
  | VList _ | VDict _ => false
  | VTuple l => forallb py_hashable l
  | _ => true
  end.

(** [v is None]. *)
Definition is_none (v : pyval) : bool :=
  match v with VNone => true | _ => false end.

(* ===================================================================== *)
(** * Text operations *)
(* ===================================================================== *)

(** Text is a sequence of code points below 256. *)

(** [c.isspace()] for a code point below 256. *)
Definition is_py_space (c : ascii) : bool :=
  let n := nat_of_ascii c in
  ((9 <=? n)%nat && (n <=? 13)%nat) || ((28 <=? n)%nat && (n <=? 32)%nat)
  || (n =? 133)%nat || (n =? 160)%nat.

Fixpoint lstrip (s : string) : string :=
  match s with
  | EmptyString => EmptyString
  | String c s' => if is_py_space c then lstrip s' else s
  end.

Definition rstrip (s : string) : string :=
  String.rev (lstrip (String.rev s)).

(** [s.strip()] *)
Definition strip (s : string) : string := rstrip (lstrip s).

(** [s.startswith(p)] *)
Definition startswith (s p : string) : bool := String.prefix p s.

(** [s.endswith(suf)] *)
Definition endswith (s suf : string) : bool :=
  let n := String.length s in
  let m := String.length suf in
  (m <=? n)%nat && String.eqb (String.substring (n - m) m s) suf.

(** [s[:-k]] for [k > 0]. *)
Definition drop_last (k : nat) (s : string) : string :=
  String.substring 0 (String.length s - k) s.

(** [s.split(",")]: the pieces between commas, one more than the commas. *)
Fixpoint split_comma (s : string) : list string :=
  match s with
  | EmptyString => [EmptyString]
  | String c s' =>
      if Ascii.eqb c ","%char then EmptyString :: split_comma s'
      else match split_comma s' with
           | p :: ps => String c p :: ps
           | [] => [String c EmptyString]
           end
  end.

Definition nonempty (s : string) : bool := negb (String.eqb s "").

(** A list of names in a condition: true when not empty. *)
Definition truthy_names (names : list string) : bool :=
  negb (Nat.eqb (List.length names) 0).

(** [x in names] for a list of texts. *)
Definition in_names (x : string) (names : list string) : bool :=
  existsb (String.eqb x) names.

(* ===================================================================== *)
(** * Settings ([core/config.py]) *)
(* ===================================================================== *)

(** The server settings the model layer reads. An application may supply its
    own [server.config.Settings]; [core_Settings] is the packaged default. *)
Record Settings : Type := { page_max_limit : Z }.

Definition core_Settings : Settings := {| page_max_limit := 100 |}.

(* ===================================================================== *)
(** * Pagination ([BaseEntity.adjust_pagination], [routes._list_items]) *)
(* ===================================================================== *)

(** What arrives as [offset] or [limit]: an integer, [None], or a FastAPI
    [params.Query] object carrying its default. *)
Inductive page_arg : Type :=
| ArgNone
| ArgInt (z : Z)
| ArgQuery (default : option Z).

(** [if isinstance(x, params.Query): x = x.default] *)
Definition unwrap_query (x : page_arg) : option Z :=
  match x with
  | ArgNone => None
  | ArgInt z => Some z
  | ArgQuery d => d
  end.

(** [x or d] for an integer or [None]: [None] and [0] are false. *)
Definition int_or (x : option Z) (d : Z) : Z :=
  match x with
  | None => d
  | Some z => if (z =? 0)%Z then d else z
  end.

Definition adjust_pagination (st : Settings) (offset limit : page_arg)
  : Z * Z :=
  let offset := unwrap_query offset in
  let limit := unwrap_query limit in
  let offset := Z.max (int_or offset 0) 0 in
  let limit := Z.max 1 (Z.min (int_or limit 10) (page_max_limit st)) in
  (offset, limit).

(** The window a list request made through the router queries with:
    [_list_items] clamps [limit] and hands both numbers to
    [list_total_combined], whose [list_items] calls [adjust_pagination]. *)
Definition route_list_window (st : Settings) (offset limit : Z) : Z * Z :=
  let limit := Z.max 1 (Z.min limit (page_max_limit st)) in
  adjust_pagination st (ArgInt offset) (ArgInt limit).

(* ===================================================================== *)
(** * Entity kinds ([schemas.py] and the class lattice of [models.py]) *)
(* ===================================================================== *)

(** The classes of [models.py] a concrete entity kind derives from. The
    class decides which [get_item], [update_item] and [delete_item] run. *)
Inductive entity_class : Type :=
| BaseEntity
| OwnedEntity
| BusinessEntity
| BusinessOwnedEntity
| BaseEntityTaskMixin
| ImmutableBase
| ImmutableOwnedEntity
| ImmutableBusinessEntity
| ImmutableBusinessOwnedEntity.

(** The class carries [user_id] ([OwnedEntitySchema] is among its bases). *)
Definition has_user_id (c : entity_class) : bool :=
  match c with
  | OwnedEntity | BusinessOwnedEntity
  | ImmutableOwnedEntity | ImmutableBusinessOwnedEntity => true
  | _ => false
  end.

(** The class carries [business_name] ([BusinessEntitySchema] is among its
    bases). *)
Definition has_business_name (c : entity_class) : bool :=
  match c with
  | BusinessEntity | BusinessOwnedEntity
  | ImmutableBusinessEntity | ImmutableBusinessOwnedEntity => true
  | _ => false
  end.

(** [ImmutableBase] comes first among the bases. *)
Definition is_immutable (c : entity_class) : bool :=
  match c with
  | ImmutableBase | ImmutableOwnedEntity
  | ImmutableBusinessEntity | ImmutableBusinessOwnedEntity => true
  | _ => false
  end.

(** The class whose [get_item] the method resolution order selects. *)
Definition get_item_owner (c : entity_class) : entity_class :=
  match c with
  | OwnedEntity | ImmutableOwnedEntity => OwnedEntity
  | BusinessEntity | ImmutableBusinessEntity => BusinessEntity
  | BusinessOwnedEntity | ImmutableBusinessOwnedEntity => BusinessOwnedEntity
  | BaseEntity | BaseEntityTaskMixin | ImmutableBase => BaseEntity
  end.

(** A field of a kind's schema: required, or with a default. *)
Inductive field_default : Type :=
| Required
| DefaultValue (v : pyval)
| DefaultNow        (* default_factory=datetime.now *)
| DefaultUuid4.     (* default_factory=uuid.uuid4 *)

(** An entity kind as the model layer sees it: the class it derives from,
    the names [hasattr] finds on it, its schema fields, and the six field
    policies of [CoreEntitySchema]. *)
Record kind : Type := {
  kind_class : entity_class;
  class_attrs : list string;
  model_fields : list (string * field_default);
  create_exclude_set : list string;
  create_field_set : list string;
  update_exclude_set : list string;
  update_field_set : list string;
  search_exclude_set : list string;
  search_field_set : list string
}.

(** [hasattr(cls, name)], also [hasattr(item, name)] for an instance. *)
Definition hasattr (k : kind) (name : string) : bool :=
  in_names name (class_attrs k).

(** The fields [CoreEntitySchema] and [BaseEntitySchema] declare. *)
Definition base_fields : list (string * field_default) :=
  [ ("created_at", DefaultNow); ("updated_at", DefaultNow);
    ("is_deleted", DefaultValue (VBool false));
    ("meta_data", DefaultValue VNone);
    ("uid", DefaultUuid4) ].

Definition schema_fields (c : entity_class) : list (string * field_default) :=
  base_fields
  ++ (if has_user_id c then [("user_id", Required)] else [])
  ++ (if has_business_name c then [("business_name", Required)] else []).

(** [CoreEntitySchema.create_exclude_set] *)
Definition core_create_exclude_set : list string :=
  ["uid"; "created_at"; "updated_at"; "is_deleted"].

(** [CoreEntitySchema.update_exclude_set] *)
Definition core_update_exclude_set : list string :=
  ["uid"; "created_at"; "updated_at"].

(** Text lists without repetition, first occurrence kept ([list(set(...))] on
    field names; the order a Python set yields is not fixed). *)
Definition dedup_names (l : list string) : list string :=
  fold_left (fun acc x => if in_names x acc then acc else acc ++ [x]) l [].

(** [create_exclude_set] as the schema classes resolve it. For a class with
    both schemas [super()] runs through [OwnedEntitySchema] and then
    [BusinessEntitySchema]. *)
Definition schema_create_exclude_set (c : entity_class) : list string :=
  match has_user_id c, has_business_name c with
  | false, false => core_create_exclude_set
  | true, false => core_create_exclude_set ++ ["user_id"]
  | false, true => core_create_exclude_set ++ ["business_name"]
  | true, true =>
      dedup_names (((core_create_exclude_set ++ ["business_name"])
                    ++ ["user_id"]) ++ ["business_name"; "user_id"])
  end.

Definition schema_update_exclude_set (c : entity_class) : list string :=
  match has_user_id c, has_business_name c with
  | false, false => core_update_exclude_set
  | true, false => core_update_exclude_set ++ ["user_id"]
  | false, true => core_update_exclude_set ++ ["business_name"]
  | true, true =>
      dedup_names (((core_update_exclude_set ++ ["business_name"])
                    ++ ["user_id"]) ++ ["business_name"; "user_id"])
  end.

(** The methods [models.py] and [schemas.py] define on every entity class. *)
Definition source_methods : list string :=
  [ "Settings"; "pre_save"; "_parse_array_parameter"; "get_queryset";
    "_get_base_field_name"; "_is_valid_range_value"; "get_query";
    "get_item"; "adjust_pagination"; "list_items"; "total_count";
    "list_total_combined"; "get_by_uid"; "create_item"; "update_item";
    "delete_item"; "create_exclude_set"; "create_field_set";
    "update_exclude_set"; "update_field_set"; "search_exclude_set";
    "search_field_set"; "expired"; "item_url" ].

(** Those of them that are properties without a setter ([schemas.py]). *)
Definition source_properties : list string := ["item_url"].

(** A kind that derives from class [c], adds the fields [extra] and keeps
    the field policies of the schema classes. *)
Definition kind_of (c : entity_class) (extra : list (string * field_default))
  : kind :=
  {| kind_class := c;
     class_attrs := map fst (schema_fields c ++ extra) ++ source_methods;
     model_fields := schema_fields c ++ extra;
     create_exclude_set := schema_create_exclude_set c;
     create_field_set := [];
     update_exclude_set := schema_update_exclude_set c;
     update_field_set := [];
     search_exclude_set := ["meta_data"];
     search_field_set := [] |}.

(* ===================================================================== *)
(** * The query filter compiler ([BaseEntity.get_queryset]) *)
(* ===================================================================== *)

(** An atomic condition of the compiled predicate: [{f: v}],
    [{f: {"$gte": v}}], [{f: {"$lte": v}}], [{f: {"$in": vs}}] and
    [{f: {"$nin": vs}}]. *)
Inductive condition : Type :=
| CEq (field : string) (v : pyval)
| CGte (field : string) (v : pyval)
| CLte (field : string) (v : pyval)
| CIn (field : string) (vs : list pyval)
| CNin (field : string) (vs : list pyval).

Definition condition_field (c : condition) : string :=
  match c with
  | CEq f _ | CGte f _ | CLte f _ | CIn f _ | CNin f _ => f
  end.

(** The members of [set(l)], each kept at its first occurrence: a member is
    added unless one equal to it is already there. The order in which a
    Python set yields its members is not fixed; statements about
    [list(set(l))] are up to that order. *)
Definition set_insert (acc : list pyval) (x : pyval) : list pyval :=
  if existsb (fun y => py_eqb y x) acc then acc else acc ++ [x].

Definition set_members (l : list pyval) : list pyval :=
  fold_left set_insert l [].

(** [list(set(l))]: [set] raises [TypeError] on an unhashable member. *)
Definition list_set (l : list pyval) : result (list pyval) :=
  if forallb py_hashable l then Ok (set_members l)
  else Raise (TypeError "unhashable type").

(** [BaseEntity._get_base_field_name] *)
Definition _get_base_field_name (field : string) : string :=
  if endswith field "_from" then drop_last 5 field
  else if endswith field "_to" then drop_last 3 field
  else if endswith field "_in" then drop_last 3 field
  else if endswith field "_nin" then drop_last 4 field
  else field.

(** [BaseEntity._is_valid_range_value]:
    [isinstance(value, (int, float, Decimal, datetime, date, str))]. *)
Definition _is_valid_range_value (value : pyval) : bool :=
  match value with
  | VBool _ | VInt _ | VFloat _ | VDecimal _ _
  | VDatetime _ | VDate _ | VStr _ => true
  | _ => false
  end.

(** The keyword arguments [get_queryset] names, and the rest ([**kwargs], in
    call order, keys distinct). *)
Record query_args : Type := {
  q_user_id : pyval;
  q_business_name : pyval;
  q_is_deleted : pyval;
  q_uid : pyval;
  q_kwargs : list (string * pyval)
}.

Section Compiler.

(** [loads] of [json_advanced] or [json]: [None] when it raises
    [JSONDecodeError] or [ValueError]. *)
Variable loads : string -> option pyval.

(** The comma-separated fallback of [_parse_array_parameter]. *)
Definition comma_tokens (value : string) : list string :=
  List.filter nonempty (map strip (split_comma value)).

(** [BaseEntity._parse_array_parameter] *)
Definition _parse_array_parameter (value : pyval) : result (list pyval) :=
  match value with
  | VList l | VTuple l => list_set l
  | VStr s =>
      let value := strip s in
      let fallback := list_set (map VStr (comma_tokens value)) in
      if startswith value "[" && endswith value "]" then
        match loads value with
        | Some (VList parsed) => list_set parsed
        | Some parsed => Ok [parsed]
        | None => fallback
        end
      else fallback
  | _ => Ok [value]
  end.

(** One turn of the loop over [kwargs.items()]: the conditions the entry
    appends ([continue] appends none). *)
Definition compile_entry (k : kind) (key : string) (value : pyval)
  : result (list condition) :=
  if is_none value then Ok []
  else
    let base_field := _get_base_field_name key in
    if truthy_names (search_field_set k)
       && negb (in_names base_field (search_field_set k)) then Ok []
    else if truthy_names (search_exclude_set k)
            && in_names base_field (search_exclude_set k) then Ok []
    else if negb (hasattr k base_field) then Ok []
    else if endswith key "_from" || endswith key "_to" then
      if _is_valid_range_value value then
        if endswith key "_from" then Ok [CGte base_field value]
        else if endswith key "_to" then Ok [CLte base_field value]
        else Ok []
      else Ok []
    else if endswith key "_in" || endswith key "_nin" then
      let! value_list := _parse_array_parameter value in
      Ok [if endswith key "_in" then CIn base_field value_list
          else CNin base_field value_list]
    else Ok [CEq key value].

Fixpoint compile_kwargs (k : kind) (kwargs : list (string * pyval))
  (base_query : list condition) : result (list condition) :=
  match kwargs with
  | [] => Ok base_query
  | (key, value) :: rest =>
      let! cs := compile_entry k key value in
      compile_kwargs k rest (base_query ++ cs)
  end.

(** The standard filters [get_queryset] starts with. *)
Definition standard_filters (k : kind) (a : query_args) : list condition :=
  [CEq "is_deleted" (q_is_deleted a)]
  ++ (if hasattr k "user_id" && py_truthy (q_user_id a)
      then [CEq "user_id" (q_user_id a)] else [])
  ++ (if hasattr k "business_name"
      then [CEq "business_name" (q_business_name a)] else [])
  ++ (if py_truthy (q_uid a) then [CEq "uid" (q_uid a)] else []).

(** [BaseEntity.get_queryset] *)
Definition get_queryset (k : kind) (a : query_args)
  : result (list condition) :=
  compile_kwargs k (q_kwargs a) (standard_filters k a).

(** [kwargs.get(key)], [None] when absent. *)
Definition kwargs_get (kwargs : list (string * pyval)) (key : string)
  : pyval :=
  match List.find (fun kv => String.eqb (fst kv) key) kwargs with
  | Some (_, v) => v
  | None => VNone
  end.

Definition kwargs_without (kwargs : list (string * pyval))
  (keys : list string) : list (string * pyval) :=
  List.filter (fun kv => negb (in_names (fst kv) keys)) kwargs.

(** [BaseEntity.get_query]: [created_at_from] and [created_at_to] are
    named parameters (bound from the caller's keywords, [None] when not
    given) and handed on as the first two keyword arguments. The result
    stands for [cls.find({"$and": base_query})]. *)
Definition get_query (k : kind) (a : query_args)
  : result (list condition) :=
  let created_at_from := kwargs_get (q_kwargs a) "created_at_from" in
  let created_at_to := kwargs_get (q_kwargs a) "created_at_to" in
  get_queryset k
    {| q_user_id := q_user_id a;
       q_business_name := q_business_name a;
       q_is_deleted := q_is_deleted a;
       q_uid := q_uid a;
       q_kwargs :=
         ("created_at_from", created_at_from)
         :: ("created_at_to", created_at_to)
         :: kwargs_without (q_kwargs a)
              ["created_at_from"; "created_at_to"] |}.

End Compiler.

(* ===================================================================== *)
(** * Documents and the store boundary *)
(* ===================================================================== *)

(** The fields of an entity or of a stored document, by name. *)
Abbreviation fields := (gmap string pyval).

(** An entity in memory: its store id ([None] before the first insert) and
    its fields. *)
Record entity : Type := {
  ent_id : option nat;
  ent_fields : fields
}.

(** The collection of one kind: the documents in natural order, each under
    its store id, and the next id the store hands out. *)
Record store : Type := {
  docs : list (nat * fields);
  next_id : nat
}.

Definition empty_store : store := {| docs := []; next_id := 0 |}.

(** A field that is missing reads as null. *)
Definition field_value (d : fields) (f : string) : pyval :=
  match d !! f with
  | Some v => v
  | None => VNone
  end.

(** Equality as the store compares: like [==], except that a boolean is not
    a number. *)
Definition store_eqb (a b : pyval) : bool :=
  match a, b with
  | VBool x, VBool y => Bool.eqb x y
  | VBool _, _ | _, VBool _ => false
  | _, _ => py_eqb a b
  end.

(** [a <= b] as the store compares: numbers by value, text by code points,
    dates and times by ordinal; values of different kinds do not compare. *)
Definition store_leb (a b : pyval) : bool :=
  match a, b with
  | VBool _, _ | _, VBool _ => false
  | VStr s, VStr t => String.leb s t
  | VDatetime s, VDatetime t => (s <=? t)%Z
  | VDate s, VDate t => (s <=? t)%Z
  | _, _ =>
      match num_frac a, num_frac b with
      | Some p, Some q => frac_leb p q
      | _, _ => false
      end
  end.

(** The store's reading of one condition on one document. *)
Definition matches_condition (d : fields) (c : condition) : bool :=
  match c with
  | CEq f v => store_eqb (field_value d f) v
  | CGte f v => store_leb v (field_value d f)
  | CLte f v => store_leb (field_value d f) v
  | CIn f vs => existsb (store_eqb (field_value d f)) vs
  | CNin f vs => negb (existsb (store_eqb (field_value d f)) vs)
  end.

(** [{"$and": base_query}] *)
Definition matches (q : list condition) (d : fields) : bool :=
  forallb (matches_condition d) q.

Definition to_entity (p : nat * fields) : entity :=
  {| ent_id := Some (fst p); ent_fields := snd p |}.

(** [query.to_list()] *)
Definition to_list (s : store) (q : list condition) : list entity :=
  map to_entity (List.filter (fun p => matches q (snd p)) (docs s)).

(** [query.count()] *)
Definition count (s : store) (q : list condition) : Z :=
  Z.of_nat (List.length (List.filter (fun p => matches q (snd p)) (docs s))).

(** The sort key of [sort("-created_at")]. *)
Definition created_at_key (e : entity) : Z :=
  match field_value (ent_fields e) "created_at" with
  | VDatetime t => t
  | _ => 0%Z
  end.

(** Insertion into a list sorted by [created_at], newest first. The source
    sorts on [created_at] alone and the store is free in the order of
    documents with equal [created_at]; here the earlier document stays
    first, and the statements below use only that the result is sorted and
    holds the same entities. *)
Fixpoint insert_desc (e : entity) (l : list entity) : list entity :=
  match l with
  | [] => [e]
  | x :: l' =>
      if (created_at_key x <? created_at_key e)%Z then e :: l
      else x :: insert_desc e l'
  end.

Definition sort_desc (l : list entity) : list entity :=
  fold_right insert_desc [] l.

(** [query.sort("-created_at").skip(offset).limit(limit).to_list()] *)
Definition to_list_window (s : store) (q : list condition)
  (offset limit : Z) : list entity :=
  firstn (Z.to_nat limit) (skipn (Z.to_nat offset) (sort_desc (to_list s q))).

(** The stored fields under a store id. *)
Definition stored (s : store) (i : nat) : option fields :=
  match List.find (fun p => Nat.eqb (fst p) i) (docs s) with
  | Some p => Some (snd p)
  | None => None
  end.

(** The store's part of [item.save()]: replace the document with the item's
    id, or insert the item (under a new id when it has none). The unique
    index on [uid] and the validation of [validate_on_save]
    ([BaseEntity.Settings]) are checks of the store and of the validation
    layer that the model leaves out: it covers the saves that pass them. *)
Definition upsert (s : store) (e : entity) : store * entity :=
  match ent_id e with
  | Some i =>
      if existsb (fun p => Nat.eqb (fst p) i) (docs s) then
        ({| docs := map (fun p => if Nat.eqb (fst p) i
                                  then (i, ent_fields e) else p) (docs s);
            next_id := next_id s |}, e)
      else
        ({| docs := docs s ++ [(i, ent_fields e)];
            next_id := Nat.max (next_id s) (S i) |}, e)
  | None =>
      let i := next_id s in
      ({| docs := docs s ++ [(i, ent_fields e)]; next_id := S i |},
       {| ent_id := Some i; ent_fields := ent_fields e |})
  end.

(** The world an operation runs in: the collection, and the readings that
    the successive calls of [datetime.now()] and [uuid.uuid4()] return. *)
Record world : Type := {
  w_store : store;
  clock : nat -> Z;
  ticks : nat;
  uuid4 : nat -> N;
  drawn : nat
}.

(** [datetime.now()] *)
Definition now (w : world) : Z * world :=
  (clock w (ticks w),
   {| w_store := w_store w; clock := clock w; ticks := S (ticks w);
      uuid4 := uuid4 w; drawn := drawn w |}).

(** [uuid.uuid4()] *)
Definition new_uuid (w : world) : N * world :=
  (uuid4 w (drawn w),
   {| w_store := w_store w; clock := clock w; ticks := ticks w;
      uuid4 := uuid4 w; drawn := S (drawn w) |}).

Definition with_store (w : world) (s : store) : world :=
  {| w_store := s; clock := clock w; ticks := ticks w;
     uuid4 := uuid4 w; drawn := drawn w |}.

(** [BaseEntity.pre_save], run before every insert, replace and save. *)
Definition pre_save (item : entity) (w : world) : entity * world :=
  let (t, w') := now w in
  ({| ent_id := ent_id item;
      ent_fields := <["updated_at" := VDatetime t]> (ent_fields item) |}, w').

(** [await item.save()] *)
Definition save (item : entity) (w : world) : entity * world :=
  let (item1, w1) := pre_save item w in
  let (s2, item2) := upsert (w_store w1) item1 in
  (item2, with_store w1 s2).

(* ===================================================================== *)
(** * Lifecycle operations and lookups ([models.py]) *)
(* ===================================================================== *)

(** [data.get(key)] telling an absent key from a [None] value. *)
Definition dict_find (data : list (string * pyval)) (key : string)
  : option pyval :=
  match List.find (fun kv => String.eqb (fst kv) key) data with
  | Some (_, v) => Some v
  | None => None
  end.

(** The constructor call of the class on the payload: each schema field
    takes the payload's value when the payload has one, else its default; a
    required field that is missing is a validation error; payload keys that
    are no field are ignored. The type checks of the validation layer are
    not part of the model. An operation returns its outcome together with
    the world it leaves. *)
Fixpoint build_fields (fs : list (string * field_default))
  (data : list (string * pyval)) (acc : fields) (w : world)
  : result fields * world :=
  match fs with
  | [] => (Ok acc, w)
  | (name, dflt) :: fs' =>
      match dict_find data name with
      | Some v => build_fields fs' data (<[name := v]> acc) w
      | None =>
          match dflt with
          | Required => (Raise (ValidationError "Field required"), w)
          | DefaultValue v => build_fields fs' data (<[name := v]> acc) w
          | DefaultNow =>
              let (t, w') := now w in
              build_fields fs' data (<[name := VDatetime t]> acc) w'
          | DefaultUuid4 =>
              let (u, w') := new_uuid w in
              build_fields fs' data (<[name := VUuid u]> acc) w'
          end
      end
  end.

Definition construct (k : kind) (data : list (string * pyval)) (w : world)
  : result entity * world :=
  match build_fields (model_fields k) data ∅ w with
  | (Ok fs, w') => (Ok {| ent_id := None; ent_fields := fs |}, w')
  | (Raise e, w') => (Raise e, w')
  end.

(** [await item.save()] on a new instance of the kind. The classes under
    [ImmutableBase] are frozen ([model_config = ConfigDict(frozen=True)]):
    on them the assignment [self.updated_at = datetime.now()] of [pre_save]
    is refused by the model class, after the clock was read and before
    anything is written. *)
Definition item_save (k : kind) (item : entity) (w : world)
  : result entity * world :=
  if is_immutable (kind_class k) then
    let (_, w') := now w in
    (Raise (ValidationError "Instance is frozen"), w')
  else
    let (item', w') := save item w in (Ok item', w').

(** [BaseEntity.create_item]. The loop over the create field policies is
    commented out in the source: the payload goes to the constructor whole. *)
Definition create_item (k : kind) (data : list (string * pyval)) (w : world)
  : result entity * world :=
  match construct k data w with
  | (Ok item, w1) => item_save k item w1
  | (Raise e, w1) => (Raise e, w1)
  end.

(** [setattr(item, key, value)] on an instance of a class that is not
    frozen, for a name that [hasattr] found: a field takes the value; a
    name with a leading underscore becomes an attribute of the instance and
    no field of the document; a property without a setter refuses the
    assignment, and so does the model class for every other name that is no
    field. The messages, which name the class, are shortened. *)
Definition setattr (k : kind) (key : string) (value : pyval) (item : fields)
  : result fields :=
  if in_names key (map fst (model_fields k)) then Ok (<[key := value]> item)
  else if startswith key "_" then Ok item
  else if in_names key source_properties
  then Raise (AttributeError "can't set attribute")
  else Raise (ValueError "object has no field").

(** The loop of [BaseEntity.update_item] over [data.items()]; an assignment
    that raises ends it. *)
Fixpoint apply_update (k : kind) (data : list (string * pyval))
  (item : fields) : result fields :=
  match data with
  | [] => Ok item
  | (key, value) :: rest =>
      if truthy_names (update_field_set k)
         && negb (in_names key (update_field_set k))
      then apply_update k rest item
      else if truthy_names (update_exclude_set k)
              && in_names key (update_exclude_set k)
      then apply_update k rest item
      else if hasattr k key
      then let! item := setattr k key value item in apply_update k rest item
      else apply_update k rest item
  end.

(** [BaseEntity.update_item]: when an assignment of the loop raises, the
    save is not reached and the store keeps the document as it was. *)
Definition BaseEntity_update_item (k : kind) (item : entity)
  (data : list (string * pyval)) (w : world) : result entity * world :=
  match apply_update k data (ent_fields item) with
  | Ok fs =>
      let (item', w') := save {| ent_id := ent_id item; ent_fields := fs |} w
      in (Ok item', w')
  | Raise e => (Raise e, w)
  end.

(** [BaseEntity.delete_item] *)
Definition BaseEntity_delete_item (item : entity) (w : world)
  : result entity * world :=
  let item := {| ent_id := ent_id item;
                 ent_fields := <["is_deleted" := VBool true]>
                                 (ent_fields item) |} in
  let (item', w') := save item w in
  (Ok item', w').

(** [update_item] as the class of the kind resolves it:
    [ImmutableBase.update_item] for the immutable classes,
    [BaseEntity.update_item] for the others. *)
Definition update_item (k : kind) (item : entity)
  (data : list (string * pyval)) (w : world) : result entity * world :=
  if is_immutable (kind_class k) then
    (Raise (ValueError "Immutable items cannot be updated"), w)
  else BaseEntity_update_item k item data w.

(** [delete_item] as the class of the kind resolves it:
    [ImmutableBase.delete_item] or [BaseEntity.delete_item]. *)
Definition delete_item (k : kind) (item : entity) (w : world)
  : result entity * world :=
  if is_immutable (kind_class k) then
    (Raise (ValueError "Immutable items cannot be deleted"), w)
  else BaseEntity_delete_item item w.

Section Queries.

Variable loads : string -> option pyval.
Variable st : Settings.

(** [BaseEntity.get_item] *)
Definition BaseEntity_get_item (k : kind) (a : query_args) (s : store)
  : result (option entity) :=
  let! query := get_query loads k a in
  let items := to_list s query in
  match items with
  | [] => Ok None
  | [item] => Ok (Some item)
  | _ => Raise (ValueError "Multiple items found")
  end.

(** [get_item] as the class of the kind resolves it: [OwnedEntity.get_item],
    [BusinessEntity.get_item], [BusinessOwnedEntity.get_item] (whose
    [user_id] check is commented out) or [BaseEntity.get_item]. *)
Definition get_item (k : kind) (a : query_args) (s : store)
  : result (option entity) :=
  match get_item_owner (kind_class k) with
  | OwnedEntity =>
      if py_eqb (q_user_id a) VNone
         && negb (py_eqb (kwargs_get (q_kwargs a) "ignore_user_id")
                    (VBool true))
      then Raise (ValueError "user_id is required")
      else BaseEntity_get_item k a s
  | BusinessEntity | BusinessOwnedEntity =>
      if py_eqb (q_business_name a) VNone
      then Raise (ValueError "business_name is required")
      else BaseEntity_get_item k a s
  | _ => BaseEntity_get_item k a s
  end.

(** [BaseEntity.list_items] *)
Definition list_items (k : kind) (a : query_args)
  (offset limit : page_arg) (s : store) : result (list entity) :=
  let (offset, limit) := adjust_pagination st offset limit in
  let! query := get_query loads k a in
  Ok (to_list_window s query offset limit).

(** [BaseEntity.total_count] *)
Definition total_count (k : kind) (a : query_args) (s : store)
  : result Z :=
  let! query := get_query loads k a in
  Ok (count s query).

(** [BaseEntity.list_total_combined]: two awaits, each with a read of its
    own; [s] is the collection as the listing reads it and [s'] the
    collection as the count reads it afterwards (other coroutines may have
    written in between). *)
Definition list_total_combined (k : kind) (a : query_args)
  (offset limit : page_arg) (s s' : store) : result (list entity * Z) :=
  let! items := list_items k a offset limit s in
  let! total := total_count k a s' in
  Ok (items, total).

End Queries.

(* ===================================================================== *)
(** * The keyed condition registry ([utils/conditions.py]) *)
(* ===================================================================== *)

Module Conditions.

(** An [asyncio.Condition]: its lock, and the futures of the coroutines
    waiting on it (each named by its task). *)
Record condition_obj : Type := {
  locked : bool;
  waiters : list nat
}.

(** A coroutine of [wait_condition] suspended in [condition.wait()]: the
    key and the condition it holds, and whether its future is done. *)
Record frame : Type := {
  f_uid : N;
  f_condition : nat;
  f_done : bool
}.

(** The singleton: the table [_conditions], the condition objects by
    address, the next address, and the suspended coroutines by task. *)
Record state : Type := {
  _conditions : gmap N nat;
  objects : gmap nat condition_obj;
  fresh : nat;
  tasks : gmap nat frame
}.

Definition init : state :=
  {| _conditions := ∅; objects := ∅; fresh := 0; tasks := ∅ |}.

(** [Conditions.get_condition] *)
Definition get_condition (uid : N) (s : state) : nat * state :=
  match _conditions s !! uid with
  | Some c => (c, s)
  | None =>
      let c := fresh s in
      (c, {| _conditions := <[uid := c]> (_conditions s);
             objects := <[c := {| locked := false; waiters := [] |}]>
                          (objects s);
             fresh := S c;
             tasks := tasks s |})
  end.

(** [Conditions.cleanup_condition]: [self._conditions.pop(uid, None)] *)
Definition cleanup_condition (uid : N) (s : state) : state :=
  {| _conditions := delete uid (_conditions s);
     objects := objects s;
     fresh := fresh s;
     tasks := tasks s |}.

Definition set_object (c : nat) (o : condition_obj) (s : state) : state :=
  {| _conditions := _conditions s;
     objects := <[c := o]> (objects s);
     fresh := fresh s;
     tasks := tasks s |}.

(** Taking the lock of a condition. [None]: the lock is held, so the
    caller would be suspended here. *)
Definition acquire (c : nat) (s : state) : option state :=
  match objects s !! c with
  | Some o =>
      if locked o then None
      else Some (set_object c {| locked := true; waiters := waiters o |} s)
  | None => None
  end.

(** Giving the lock back. *)
Definition release_lock (c : nat) (s : state) : state :=
  match objects s !! c with
  | Some o => set_object c {| locked := false; waiters := waiters o |} s
  | None => s
  end.

Definition set_done (f : frame) : frame :=
  {| f_uid := f_uid f; f_condition := f_condition f; f_done := true |}.

(** The futures of the tasks [ws] are set. *)
Definition wake (ws : list nat) (ts : gmap nat frame) : gmap nat frame :=
  foldr (fun t ts => alter set_done t ts) ts ws.

(** [condition.notify_all()]: the future of every waiter is set. *)
Definition notify_all (c : nat) (s : state) : state :=
  match objects s !! c with
  | Some o =>
      {| _conditions := _conditions s;
         objects := objects s;
         fresh := fresh s;
         tasks := wake (waiters o) (tasks s) |}
  | None => s
  end.

(** [Conditions.release_condition]. It has no suspension point once the
    lock is taken. *)
Definition release_condition (uid : N) (s : state) : option state :=
  match _conditions s !! uid with
  | None => Some s
  | Some _ =>
      let (condition, s1) := get_condition uid s in
      match acquire condition s1 with
      | Some s2 =>
          let s3 := notify_all condition s2 in
          let s4 := release_lock condition s3 in
          Some (cleanup_condition uid s4)
      | None => None
      end
  end.

(** [Conditions.wait_condition] up to its suspension: task [t] gets the
    condition, takes its lock, and in [condition.wait()] gives the lock
    back and parks on a new future. *)
Definition wait_condition_begin (t : nat) (uid : N) (s : state)
  : option state :=
  match tasks s !! t with
  | Some _ => None
  | None =>
      let (condition, s1) := get_condition uid s in
      match acquire condition s1 with
      | Some s2 =>
          match objects s2 !! condition with
          | Some o =>
              Some {| _conditions := _conditions s2;
                      objects := <[condition :=
                                     {| locked := false;
                                        waiters := waiters o ++ [t] |}]>
                                   (objects s2);
                      fresh := fresh s2;
                      tasks := <[t := {| f_uid := uid;
                                         f_condition := condition;
                                         f_done := false |}]> (tasks s2) |}
          | None => None
          end
      | None => None
      end
  end.

(** [Conditions.wait_condition] from its wake-up: the future of task [t]
    is done; [condition.wait()] drops the future and takes the lock
    again, the [async with] block ends, and the entry of the key is
    cleaned up. *)
Definition wait_condition_resume (t : nat) (s : state) : option state :=
  match tasks s !! t with
  | Some f =>
      if f_done f then
        let c := f_condition f in
        match objects s !! c with
        | Some o =>
            let s1 := set_object c
                        {| locked := locked o;
                           waiters := List.filter
                                        (fun x => negb (Nat.eqb x t))
                                        (waiters o) |} s in
            match acquire c s1 with
            | Some s2 =>
                let s3 := release_lock c s2 in
                let s4 := cleanup_condition (f_uid f) s3 in
                Some {| _conditions := _conditions s4;
                        objects := objects s4;
                        fresh := fresh s4;
                        tasks := delete t (tasks s4) |}
            | None => None
            end
        | None => None
        end
      else None
  | None => None
  end.

(** What the scheduler can run next. *)
Inductive event : Type :=
| Wait (t : nat) (uid : N)
| Resume (t : nat)
| Release (uid : N).

Definition do_event (e : event) (s : state) : option state :=
  match e with
  | Wait t uid => wait_condition_begin t uid s
  | Resume t => wait_condition_resume t s
  | Release uid => release_condition uid s
  end.

Fixpoint run (es : list event) (s : state) : option state :=
  match es with
  | [] => Some s
  | e :: es' =>
      match do_event e s with
      | Some s' => run es' s'
      | None => None
      end
  end.

Definition reachable (s : state) : Prop :=
  exists es, run es init = Some s.

(** A coroutine of key [uid] is parked on condition [c] and not woken. *)
Definition outstanding (s : state) (uid : N) (c : nat) : Prop :=
  exists t, tasks s !! t
            = Some {| f_uid := uid; f_condition := c; f_done := false |}.

(** What holds of the registry between any two steps of the scheduler. *)
Record inv (s : state) : Prop := {
  inv_entry_object :
    forall uid c, _conditions s !! uid = Some c ->
                  exists o, objects s !! c = Some o;
  inv_unlocked :
    forall c o, objects s !! c = Some o -> locked o = false;
  inv_fresh :
    forall c o, objects s !! c = Some o -> c < fresh s;
  inv_task_object :
    forall t f, tasks s !! t = Some f ->
                exists o, objects s !! f_condition f = Some o
                          /\ (f_done f = false -> In t (waiters o));
  inv_waiter_task :
    forall c o t, objects s !! c = Some o -> In t (waiters o) ->
                  exists f, tasks s !! t = Some f /\ f_condition f = c;
  inv_entry_outstanding :
    forall uid c, _conditions s !! uid = Some c -> outstanding s uid c;
  inv_injective :
    forall u1 u2 c, _conditions s !! u1 = Some c ->
                    _conditions s !! u2 = Some c -> u1 = u2
}.

End Conditions.

(* ===================================================================== *)
(** * Auxiliary definitions for the statements *)
(* ===================================================================== *)

(** The same call with other keyword arguments. *)
Definition with_kwargs (a : query_args) (kwargs : list (string * pyval))
  : query_args :=
  {| q_user_id := q_user_id a;
     q_business_name := q_business_name a;
     q_is_deleted := q_is_deleted a;
     q_uid := q_uid a;
     q_kwargs := kwargs |}.

(** A call with no scope, no identifier, [is_deleted=False] and no other
    keyword. *)
Definition default_args : query_args :=
  {| q_user_id := VNone;
     q_business_name := VNone;
     q_is_deleted := VBool false;
     q_uid := VNone;
     q_kwargs := [] |}.

(** The base field of a key fails one of the three field checks of the
    loop of [get_queryset]. *)
Definition not_filterable (k : kind) (key : string) : bool :=
  let base_field := _get_base_field_name key in
  (truthy_names (search_field_set k)
   && negb (in_names base_field (search_field_set k)))
  || in_names base_field (search_exclude_set k)
  || negb (hasattr k base_field).






(** A [loads] that raises on every text. *)
Definition loads_none : string -> option pyval := fun _ => None.

(** Example kinds: orders owned by a user, projects of a business, and
    invoices of a business owned by a user, each with a [price] field. *)
Definition Order : kind := kind_of OwnedEntity [("price", Required)].
Definition Project : kind := kind_of BusinessEntity [("price", Required)].
Definition Invoice : kind := kind_of BusinessOwnedEntity [("price", Required)].
Definition Note : kind := kind_of BaseEntity [("price", Required)].
Definition LedgerEntry : kind := kind_of ImmutableBase [("price", Required)].


(** A document of the example kinds. *)
Definition sample_doc (uid : N) (created updated : Z) (deleted : bool)
  (price : Z) : fields :=
  list_to_map
    [ ("uid", VUuid uid); ("created_at", VDatetime created);
      ("updated_at", VDatetime updated); ("is_deleted", VBool deleted);
      ("price", VInt price) ].

(** A collection in which the identifier 7 occurs twice and 8 once. *)
Definition sample_store : store :=
  {| docs := [ (0, sample_doc 7 10 10 false 3);
               (1, sample_doc 8 11 11 false 4);
               (2, sample_doc 7 12 12 false 5) ];
     next_id := 3 |}.

(** A lookup by identifier: [get_item(uid)] with defaults otherwise. *)
Definition lookup_args (uid : N) : query_args :=
  {| q_user_id := VNone; q_business_name := VNone;
     q_is_deleted := VBool false; q_uid := VUuid uid; q_kwargs := [] |}.


(** A world around the sample collection: the clock reads 50, 51, ... and
    the identifiers drawn are 100, 101, ... *)
Definition sample_world : world :=
  {| w_store := sample_store;
     clock := fun n => (50 + Z.of_nat n)%Z;
     ticks := 0;
     uuid4 := fun n => (100 + N.of_nat n)%N;
     drawn := 0 |}.

(** The entity loaded from the sample collection under store id 1. *)
Definition sample_item : entity :=
  {| ent_id := Some 1; ent_fields := sample_doc 8 11 11 false 4 |}.

(** The field of a stored document, when both are there. *)
Definition stored_field (s : store) (i : nat) (f : string) : option pyval :=
  match stored s i with
  | Some d => d !! f
  | None => None
  end.


(** A create payload that sets the server-controlled fields itself. *)
Definition forged_payload : list (string * pyval) :=
  [ ("uid", VUuid 7); ("created_at", VDatetime 1);
    ("updated_at", VDatetime 2); ("is_deleted", VBool true);
    ("price", VInt 3) ].

(** The field of the entity an operation returned. *)
Definition returned_field (r : result entity * world) (f : string)
  : option pyval :=
  match fst r with
  | Ok item => ent_fields item !! f
  | Raise _ => None
  end.


(** The registry after three coroutines (tasks 1, 2 and 3) have started to
    wait on key 5. *)
Definition three_waiters : Conditions.state :=
  match Conditions.run
          [Conditions.Wait 1 5; Conditions.Wait 2 5; Conditions.Wait 3 5]
          Conditions.init with
  | Some s => s
  | None => Conditions.init
  end.


(* ===================================================================== *)
(** * Further definitions: lookups, expiry and the router *)
(* ===================================================================== *)

(** The three field checks of the loop of [get_queryset], on a base field:
    it is in [search_field_set] when that is declared, is not in
    [search_exclude_set], and is an attribute of the class. *)
Definition field_filterable (k : kind) (base_field : string) : bool :=
  negb (truthy_names (search_field_set k)
        && negb (in_names base_field (search_field_set k)))
  && negb (truthy_names (search_exclude_set k)
           && in_names base_field (search_exclude_set k))
  && hasattr k base_field.

(** The key has none of the four suffixes. *)
Definition plain_key (key : string) : bool :=
  negb (endswith key "_from" || endswith key "_to"
        || endswith key "_in" || endswith key "_nin").


(** The entities are ordered by [created_at], newest first. *)
Fixpoint newest_first (l : list entity) : Prop :=
  match l with
  | [] => True
  | x :: l' =>
      (forall y, In y l' -> (created_at_key y <= created_at_key x)%Z)
      /\ newest_first l'
  end.

(** A list request for the sample collection between two creation times. *)
Definition window_args (t_from t_to : Z) : query_args :=
  with_kwargs default_args
    [("created_at_from", VDatetime t_from);
     ("created_at_to", VDatetime t_to)].


(** [cls.find_one(q)]: the first matching document, or [None]. *)
Definition find_one (s : store) (q : list condition) : option entity :=
  match to_list s q with
  | [] => None
  | item :: _ => Some item
  end.

(** [BaseEntity.get_by_uid] *)
Definition get_by_uid (uid : pyval) (s : store) : option entity :=
  find_one s [CEq "uid" uid].



(** No document other than the one under id [i] has the identifier. *)
Definition uid_unique (s : store) (i : nat) (uid : pyval) : Prop :=
  forall p, In p (docs s) -> fst p <> i ->
            store_eqb (field_value (snd p) "uid") uid = false.

(** Successive readings of the clock do not go back. *)
Definition clock_monotone (w : world) : Prop :=
  forall n m, n <= m -> (clock w n <= clock w m)%Z.

(** A lookup of an unscoped kind by identifier, with defaults otherwise. *)
Definition uid_args (uid : pyval) : query_args :=
  {| q_user_id := VNone; q_business_name := VNone;
     q_is_deleted := VBool false; q_uid := uid; q_kwargs := [] |}.


(** Every parked coroutine whose condition is registered is parked under
    the key of that entry. *)
Definition uid_coherent (s : Conditions.state) : Prop :=
  forall t f u,
    Conditions.tasks s !! t = Some f ->
    Conditions._conditions s !! u = Some (Conditions.f_condition f) ->
    Conditions.f_uid f = u.

(** The key an event works on: for a resumption, the key of the coroutine
    that resumes. *)
Definition event_key (s : Conditions.state) (e : Conditions.event)
  : option N :=
  match e with
  | Conditions.Wait _ uid => Some uid
  | Conditions.Release uid => Some uid
  | Conditions.Resume t => Conditions.f_uid <$> Conditions.tasks s !! t
  end.

(** The registry when task 1 has waited on key 5 and been released, and
    before it resumes task 2 has started to wait on the same key. *)
Definition late_cleanup_state : Conditions.state :=
  match Conditions.run
          [Conditions.Wait 1 5; Conditions.Release 5; Conditions.Wait 2 5]
          Conditions.init with
  | Some s => s
  | None => Conditions.init
  end.


(* ===================================================================== *)
(** * Further definitions: expiry ([schemas.py]) and the router
      ([routes.py]) *)
(* ===================================================================== *)

(** The ordinal of a [datetime] counts microseconds. *)
Definition microseconds_per_day : Z := 86400000000.

(** [CoreEntitySchema.expired]:
    [(datetime.now() - self.updated_at).days > days]; the [days] of a
    difference is the number of whole days in it, rounded down. *)
Definition expired (item : fields) (days : Z) (w : world)
  : result bool * world :=
  let (t, w') := now w in
  match field_value item "updated_at" with
  | VDatetime u =>
      (Ok (days <? (t - u) / microseconds_per_day)%Z, w')
  | _ => (Raise (TypeError "unsupported operand type(s) for -"), w')
  end.

(** What a route handler ends with: a value, an exception of the model
    layer passed on, or the [BaseHTTPException] of the router (its status
    code and error code; its message, built from the class name, is left
    out). *)
Inductive route_result (A : Type) : Type :=
| RouteOk (a : A)
| RouteRaise (e : pyerr)
| RouteHTTP (status_code : Z) (error : string).
Arguments RouteOk {A} a.
Arguments RouteRaise {A} e.
Arguments RouteHTTP {A} status_code error.

(** [AbstractBaseRouter.get_item] *)
Definition router_get_item (loads : string -> option pyval) (k : kind)
  (a : query_args) (s : store) : route_result entity :=
  match get_item loads k a s with
  | Ok None => RouteHTTP 404 "item_not_found"
  | Ok (Some item) => RouteOk item
  | Raise e => RouteRaise e
  end.

(** The call [self.get_item(uid, user_id=user_id)] of the handlers:
    [business_name] and [is_deleted] keep their defaults. *)
Definition handler_args (uid user_id : pyval) : query_args :=
  {| q_user_id := user_id; q_business_name := VNone;
     q_is_deleted := VBool false; q_uid := uid; q_kwargs := [] |}.

(** [AbstractBaseRouter.retrieve_item]; [user_id] is what [get_user_id]
    returned for the request ([None] without a user). *)
Definition router_retrieve_item (loads : string -> option pyval) (k : kind)
  (uid user_id : pyval) (s : store) : route_result entity :=
  router_get_item loads k (handler_args uid user_id) s.

(** [AbstractBaseRouter.update_item] *)
Definition router_update_item (loads : string -> option pyval) (k : kind)
  (uid user_id : pyval) (data : list (string * pyval)) (w : world)
  : route_result entity * world :=
  match router_get_item loads k (handler_args uid user_id) (w_store w) with
  | RouteOk item =>
      match update_item k item data w with
      | (Ok item', w') => (RouteOk item', w')
      | (Raise e, w') => (RouteRaise e, w')
      end
  | RouteRaise e => (RouteRaise e, w)
  | RouteHTTP c e => (RouteHTTP c e, w)
  end.

(** [AbstractBaseRouter.delete_item] *)
Definition router_delete_item (loads : string -> option pyval) (k : kind)
  (uid user_id : pyval) (w : world) : route_result entity * world :=
  match router_get_item loads k (handler_args uid user_id) (w_store w) with
  | RouteOk item =>
      match delete_item k item w with
      | (Ok item', w') => (RouteOk item', w')
      | (Raise e, w') => (RouteRaise e, w')
      end
  | RouteRaise e => (RouteRaise e, w)
  | RouteHTTP c e => (RouteHTTP c e, w)
  end.

(** [PaginatedResponse] of [schemas.py]; the items stand for the
    [list_item_schema] objects built from them. *)
Record PaginatedResponse : Type := {
  pr_items : list entity;
  pr_total : Z;
  pr_offset : Z;
  pr_limit : Z
}.

(** [kwargs.pop(key, default)], the value part. *)
Definition kwargs_pop (kwargs : list (string * pyval)) (key : string)
  (default : pyval) : pyval :=
  match dict_find kwargs key with
  | Some v => v
  | None => default
  end.

(** [AbstractBaseRouter._list_items]: [user_id] comes from the keywords
    when they have one, else from the request; the limit is clamped; the
    other keywords go to [list_total_combined], which binds the ones it
    names and reads the collection twice ([s], then [s']). *)
Definition router_list_items (loads : string -> option pyval)
  (st : Settings) (k : kind) (request_user_id : pyval) (offset limit : Z)
  (kwargs : list (string * pyval)) (s s' : store)
  : result PaginatedResponse :=
  let user_id := kwargs_pop kwargs "user_id" request_user_id in
  let kwargs := kwargs_without kwargs ["user_id"] in
  let limit := Z.max 1 (Z.min limit (page_max_limit st)) in
  let a := {| q_user_id := user_id;
              q_business_name := kwargs_pop kwargs "business_name" VNone;
              q_is_deleted := kwargs_pop kwargs "is_deleted" (VBool false);
              q_uid := kwargs_pop kwargs "uid" VNone;
              q_kwargs := kwargs_without kwargs
                            ["business_name"; "is_deleted"; "uid"] |} in
  let! r := list_total_combined loads st k a (ArgInt offset) (ArgInt limit)
              s s' in
  Ok {| pr_items := fst r; pr_total := snd r;
        pr_offset := offset; pr_limit := limit |}.


(* ===================================================================== *)
(** * Further definitions: the language enumeration ([core/enums.py]) *)
(* ===================================================================== *)

Module Language.

(** The members of [Language], in the order of the class body. *)
Inductive Language : Type :=
| English
| Persian
| Arabic
| Turkish
| French
| Spanish
| German
| Italian
| Portuguese
| Dutch
| Russian
| Polish
| Romanian
| Bulgarian
| Hungarian
| Czech
| Greek
| Hebrew
| Japanese
| Korean
| Vietnamese
| Indonesian.

(** [==] between members. *)
Definition Language_eqb (a b : Language) : bool :=
  match a, b with
  | English, English => true
  | Persian, Persian => true
  | Arabic, Arabic => true
  | Turkish, Turkish => true
  | French, French => true
  | Spanish, Spanish => true
  | German, German => true
  | Italian, Italian => true
  | Portuguese, Portuguese => true
  | Dutch, Dutch => true
  | Russian, Russian => true
  | Polish, Polish => true
  | Romanian, Romanian => true
  | Bulgarian, Bulgarian => true
  | Hungarian, Hungarian => true
  | Czech, Czech => true
  | Greek, Greek => true
  | Hebrew, Hebrew => true
  | Japanese, Japanese => true
  | Korean, Korean => true
  | Vietnamese, Vietnamese => true
  | Indonesian, Indonesian => true
  | _, _ => false
  end.

(** Iteration over the class. *)
Definition Language_members : list Language :=
  [ English;
    Persian;
    Arabic;
    Turkish;
    French;
    Spanish;
    German;
    Italian;
    Portuguese;
    Dutch;
    Russian;
    Polish;
    Romanian;
    Bulgarian;
    Hungarian;
    Czech;
    Greek;
    Hebrew;
    Japanese;
    Korean;
    Vietnamese;
    Indonesian ].

(** [self.value] *)
Definition value (l : Language) : string :=
  match l with
  | English => "English"
  | Persian => "Persian"
  | Arabic => "Arabic"
  | Turkish => "Turkish"
  | French => "French"
  | Spanish => "Spanish"
  | German => "German"
  | Italian => "Italian"
  | Portuguese => "Portuguese"
  | Dutch => "Dutch"
  | Russian => "Russian"
  | Polish => "Polish"
  | Romanian => "Romanian"
  | Bulgarian => "Bulgarian"
  | Hungarian => "Hungarian"
  | Czech => "Czech"
  | Greek => "Greek"
  | Hebrew => "Hebrew"
  | Japanese => "Japanese"
  | Korean => "Korean"
  | Vietnamese => "Vietnamese"
  | Indonesian => "Indonesian"
  end.

(** [Language.has_value] on a text: membership in the table from values to
    members. *)
Definition has_value (v : string) : bool :=
  existsb (fun l => String.eqb v (value l)) Language_members.

(** An entry of the table of [_info]; the Persian names are carried in
    UTF-8. *)
Record language_info : Type := {
  info_fa : string;
  info_en : string;
  info_abbreviation : string
}.

(** The dictionary literal of [_info], in the order written. *)
Definition info_table : list (Language * language_info) :=
  [ (English, {| info_fa := "انگلیسی"; info_en := "English";
        info_abbreviation := "en" |});
    (Persian, {| info_fa := "فارسی"; info_en := "Persian";
        info_abbreviation := "fa" |});
    (Arabic, {| info_fa := "عربی"; info_en := "Arabic";
        info_abbreviation := "ar" |});
    (Turkish, {| info_fa := "ترکی"; info_en := "Turkish";
        info_abbreviation := "tr" |});
    (French, {| info_fa := "فرانسه"; info_en := "French";
        info_abbreviation := "fr" |});
    (Spanish, {| info_fa := "اسپانیایی"; info_en := "Spanish";
        info_abbreviation := "es" |});
    (German, {| info_fa := "آلمانی"; info_en := "German";
        info_abbreviation := "de" |});
    (Italian, {| info_fa := "ایتالیایی"; info_en := "Italian";
        info_abbreviation := "it" |});
    (Portuguese, {| info_fa := "پرتغالی"; info_en := "Portuguese";
        info_abbreviation := "pt" |});
    (Dutch, {| info_fa := "هالندی"; info_en := "Dutch";
        info_abbreviation := "nl" |});
    (Russian, {| info_fa := "روسی"; info_en := "Russian";
        info_abbreviation := "ru" |});
    (Polish, {| info_fa := "لهستانی"; info_en := "Polish";
        info_abbreviation := "pl" |});
    (Romanian, {| info_fa := "رومانیایی"; info_en := "Romanian";
        info_abbreviation := "ro" |});
    (Bulgarian, {| info_fa := "بلغاری"; info_en := "Bulgarian";
        info_abbreviation := "bg" |});
    (Hungarian, {| info_fa := "مجارستانی"; info_en := "Hungarian";
        info_abbreviation := "hu" |});
    (Czech, {| info_fa := "چک"; info_en := "Czech";
        info_abbreviation := "cs" |});
    (Greek, {| info_fa := "یونانی"; info_en := "Greek";
        info_abbreviation := "el" |});
    (Hebrew, {| info_fa := "عبری"; info_en := "Hebrew";
        info_abbreviation := "he" |});
    (Japanese, {| info_fa := "ژاپنی"; info_en := "Japanese";
        info_abbreviation := "ja" |});
    (Korean, {| info_fa := "کره ای"; info_en := "Korean";
        info_abbreviation := "ko" |});
    (Vietnamese, {| info_fa := "ویتنامی"; info_en := "Vietnamese";
        info_abbreviation := "vi" |});
    (Indonesian, {| info_fa := "اندونزیایی"; info_en := "Indonesian";
        info_abbreviation := "id" |}) ].

(** [self._info]: the entry under the member; [None] stands for the
    [KeyError] of a member without an entry. *)
Definition _info (l : Language) : option language_info :=
  match List.find (fun e => Language_eqb (fst e) l) info_table with
  | Some e => Some (snd e)
  | None => None
  end.

Definition fa (l : Language) : option string :=
  match _info l with Some i => Some (info_fa i) | None => None end.

Definition en (l : Language) : option string :=
  match _info l with Some i => Some (info_en i) | None => None end.

Definition abbreviation (l : Language) : option string :=
  match _info l with Some i => Some (info_abbreviation i) | None => None end.

(** [get_dict]: the entry with the key [value] added at the end. *)
Definition get_dict (l : Language) : option (list (string * string)) :=
  match _info l with
  | Some i =>
      Some [ ("fa", info_fa i); ("en", info_en i);
             ("abbreviation", info_abbreviation i); ("value", value l) ]
  | None => None
  end.

(** [get_choices]: the dictionaries of all members, in order; the first
    missing entry ends it. *)
Fixpoint get_choices_of (ls : list Language)
  : option (list (list (string * string))) :=
  match ls with
  | [] => Some []
  | l :: rest =>
      match get_dict l with
      | Some d =>
          match get_choices_of rest with
          | Some ds => Some (d :: ds)
          | None => None
          end
      | None => None
      end
  end.

Definition get_choices : option (list (list (string * string))) :=
  get_choices_of Language_members.

End Language.

(** [d.get(key)] on a dictionary of texts. *)
Definition dict_find_text (d : list (string * string)) (key : string)
  : option string :=
  match List.find (fun kv => String.eqb (fst kv) key) d with
  | Some kv => Some (snd kv)
  | None => None
  end.

(* ===================================================================== *)
(** * Properties: pagination *)
(* ===================================================================== *)

Lemma int_or_nonzero (z d : Z) : z <> 0%Z -> int_or (Some z) d = z.
Proof.
  intros Hz. unfold int_or. destruct (Z.eqb_spec z 0); [contradiction | reflexivity].
Qed.

Lemma int_or_offset (z : Z) : int_or (Some z) 0 = z.
Proof.
  unfold int_or. destruct (Z.eqb_spec z 0); congruence.
Qed.

(** The window is always inside the bounds of the page window: the offset
    is not negative and the limit is at least 1, and at most the ceiling
    when the ceiling is at least 1. *)
Lemma adjust_pagination_bounds (st : Settings) (offset limit : page_arg) :
  (0 <= fst (adjust_pagination st offset limit))%Z
  /\ (1 <= snd (adjust_pagination st offset limit))%Z
  /\ ((1 <= page_max_limit st)%Z ->
      (snd (adjust_pagination st offset limit) <= page_max_limit st)%Z).
Proof.
  unfold adjust_pagination; cbn [fst snd]. lia.
Qed.

(** C1, as the specification states it, fails on [adjust_pagination]: a
    limit of 0 is taken for a missing limit and becomes the default 10, not
    1. *)
Lemma adjust_pagination_limit_zero_counterexample :
  adjust_pagination core_Settings (ArgInt 0) (ArgInt 0)
  <> (Z.max 0 0, Z.max 1 (Z.min 0 (page_max_limit core_Settings))).
Proof.
  vm_compute. discriminate.
Qed.

(** C1 (amended). For every offset and every limit other than 0,
    [adjust_pagination] computes [offset = max(offset, 0)] and
    [limit = max(1, min(limit, page_max_limit))]; a missing offset counts as
    0 and a missing limit as 10. So [limit=10000] with a ceiling of 100
    gives 100 and [offset=-5] gives 0. A list request that comes through the
    router's [_list_items], which clamps the limit before the model layer
    sees it, gets [max(1, min(limit, page_max_limit))] for every limit, 1
    for [limit=0]. *)
Theorem adjust_pagination_window (st : Settings) (offset limit : Z) :
  limit <> 0%Z ->
  adjust_pagination st (ArgInt offset) (ArgInt limit)
  = (Z.max offset 0, Z.max 1 (Z.min limit (page_max_limit st)))
  /\ adjust_pagination st ArgNone ArgNone
     = (0%Z, Z.max 1 (Z.min 10 (page_max_limit st)))
  /\ (forall l,
        route_list_window st offset l
        = (Z.max offset 0, Z.max 1 (Z.min l (page_max_limit st))))
  /\ snd (adjust_pagination core_Settings (ArgInt offset) (ArgInt 10000))
     = 100%Z
  /\ snd (route_list_window core_Settings offset 0) = 1%Z
  /\ fst (adjust_pagination st (ArgInt (-5)) (ArgInt limit)) = 0%Z.
Proof.
  intros Hl. repeat split.
  - unfold adjust_pagination; cbn [unwrap_query].
    rewrite int_or_offset, int_or_nonzero by exact Hl. reflexivity.
  - intros l. unfold route_list_window, adjust_pagination; cbn [unwrap_query].
    rewrite int_or_offset, int_or_nonzero by lia.
    f_equal. lia.
Qed.

Lemma adjust_pagination_window_witness :
  10000%Z <> 0%Z
  /\ adjust_pagination core_Settings (ArgInt (-5)) (ArgInt 10000)
     = (0%Z, 100%Z).
Proof.
  split; [discriminate|].
  exact (proj1 (adjust_pagination_window core_Settings (-5) 10000
                  ltac:(discriminate))).
Defined.

(* ===================================================================== *)
(** * Properties: the filter compiler *)
(* ===================================================================== *)

Section CompilerFacts.

Variable loads : string -> option pyval.

Lemma compile_kwargs_app (k : kind) (pre post : list (string * pyval))
  (acc : list condition) :
  compile_kwargs loads k (pre ++ post) acc
  = bind (compile_kwargs loads k pre acc) (compile_kwargs loads k post).
Proof.
  revert acc. induction pre as [|[key value] pre IH]; intros acc.
  - reflexivity.
  - cbn [app compile_kwargs].
    destruct (compile_entry loads k key value) as [cs|e]; cbn [bind].
    + apply IH.
    + reflexivity.
Qed.

(** Conditions are only ever appended. *)
Lemma compile_kwargs_extends (k : kind) (kwargs : list (string * pyval))
  (acc q : list condition) :
  compile_kwargs loads k kwargs acc = Ok q -> exists rest, q = acc ++ rest.
Proof.
  revert acc. induction kwargs as [|[key value] kwargs IH]; intros acc H.
  - cbn in H. injection H as <-. exists []. now rewrite app_nil_r.
  - cbn [compile_kwargs] in H.
    destruct (compile_entry loads k key value) as [cs|e]; cbn [bind] in H.
    + destruct (IH _ H) as [rest ->]. exists (cs ++ rest).
      now rewrite app_assoc.
    + discriminate.
Qed.

Lemma list_set_raises (l : list pyval) (e : pyerr) :
  list_set l = Raise e -> e = TypeError "unhashable type".
Proof.
  unfold list_set. destruct (forallb py_hashable l); congruence.
Qed.

Lemma _parse_array_parameter_raises (value : pyval) (e : pyerr) :
  _parse_array_parameter loads value = Raise e ->
  e = TypeError "unhashable type".
Proof.
  unfold _parse_array_parameter.
  destruct value; try discriminate; try apply list_set_raises.
  destruct (startswith (strip s) "[" && endswith (strip s) "]").
  - destruct (loads (strip s)) as [[]|]; try discriminate;
      apply list_set_raises.
  - apply list_set_raises.
Qed.

Lemma compile_entry_raises (k : kind) (key : string) (value : pyval)
  (e : pyerr) :
  compile_entry loads k key value = Raise e ->
  e = TypeError "unhashable type".
Proof.
  unfold compile_entry.
  repeat match goal with
         | |- context [if ?b then _ else _] => destruct b
         end; try discriminate.
  all: destruct (_parse_array_parameter loads value) as [vs|e'] eqn:Hp;
    cbn [bind]; try discriminate.
  all: intros [= <-]; eapply _parse_array_parameter_raises; eassumption.
Qed.

Lemma compile_kwargs_raises (k : kind) (kwargs : list (string * pyval))
  (acc : list condition) (e : pyerr) :
  compile_kwargs loads k kwargs acc = Raise e ->
  e = TypeError "unhashable type".
Proof.
  revert acc. induction kwargs as [|[key value] kwargs IH]; intros acc H.
  - discriminate.
  - cbn [compile_kwargs] in H.
    destruct (compile_entry loads k key value) as [cs|e'] eqn:He;
      cbn [bind] in H.
    + eapply IH; eassumption.
    + injection H as <-. eapply compile_entry_raises; eassumption.
Qed.

(** An entry whose base field fails a field check appends nothing. *)
Lemma compile_entry_not_filterable (k : kind) (key : string)
  (value : pyval) :
  not_filterable k key = true -> compile_entry loads k key value = Ok [].
Proof.
  unfold not_filterable, compile_entry. intros H.
  destruct (is_none value); [reflexivity|].
  destruct (truthy_names (search_field_set k)
            && negb (in_names (_get_base_field_name key)
                       (search_field_set k))); [reflexivity|].
  cbn [orb] in H.
  destruct (in_names (_get_base_field_name key) (search_exclude_set k))
    eqn:Hex.
  - assert (Ht : truthy_names (search_exclude_set k) = true).
    { unfold truthy_names, in_names in *.
      destruct (search_exclude_set k); [discriminate Hex | reflexivity]. }
    rewrite Ht. reflexivity.
  - rewrite andb_false_r. cbn [orb] in H. rewrite H. reflexivity.
Qed.

End CompilerFacts.

(** C8. A key whose base field (the key without a [_from], [_to], [_in] or
    [_nin] suffix) is missing from a declared [search_field_set], is in
    [search_exclude_set], or is no attribute of the kind appends no
    condition: the compiled predicate is the one compiled without the key,
    for all other keys before and after it. Compiling is a function of the
    request: two compilations of one request agree. *)
Theorem unfilterable_key_dropped (loads : string -> option pyval) (k : kind)
  (a : query_args) (pre post : list (string * pyval)) (key : string)
  (value : pyval) :
  not_filterable k key = true ->
  compile_entry loads k key value = Ok []
  /\ get_queryset loads k (with_kwargs a (pre ++ (key, value) :: post))
     = get_queryset loads k (with_kwargs a (pre ++ post))
  /\ (forall r1 r2,
        get_queryset loads k (with_kwargs a (pre ++ (key, value) :: post)) = r1 ->
        get_queryset loads k (with_kwargs a (pre ++ (key, value) :: post)) = r2 ->
        r1 = r2).
Proof.
  intros H.
  pose proof (compile_entry_not_filterable loads k key value H) as He.
  split; [exact He|]. split.
  - unfold get_queryset, with_kwargs, standard_filters; cbn.
    rewrite !compile_kwargs_app.
    destruct (compile_kwargs loads k pre _) as [acc|e]; cbn [bind].
    + cbn [compile_kwargs]. rewrite He. cbn [bind]. now rewrite app_nil_r.
    + reflexivity.
  - intros r1 r2 <- <-. reflexivity.
Qed.

Lemma unfilterable_key_dropped_witness :
  not_filterable Order "meta_data_from" = true
  /\ get_queryset loads_none Order
       (with_kwargs default_args
          ([("price_from", VInt 1)] ++ ("meta_data_from", VInt 3)
             :: [("price_to", VInt 9)]))
     = get_queryset loads_none Order
         (with_kwargs default_args
            ([("price_from", VInt 1)] ++ [("price_to", VInt 9)])).
Proof.
  split; [reflexivity|].
  exact (proj1 (proj2 (unfilterable_key_dropped loads_none Order default_args
                         [("price_from", VInt 1)] [("price_to", VInt 9)]
                         "meta_data_from" (VInt 3) eq_refl))).
Defined.

(** C2, as the specification states it, fails on the compiler: on a kind
    with tenant scoping, a request without a tenant name compiles (to a
    predicate that asks for a null tenant); and on a kind that is also owner
    scoped the second condition is the owner's, not the tenant's. *)
Lemma tenant_compile_counterexample :
  get_queryset loads_none Project default_args
  = Ok [CEq "is_deleted" (VBool false); CEq "business_name" VNone]
  /\ get_queryset loads_none Invoice
       {| q_user_id := VUuid 7; q_business_name := VStr "acme";
          q_is_deleted := VBool false; q_uid := VNone; q_kwargs := [] |}
     = Ok [CEq "is_deleted" (VBool false); CEq "user_id" (VUuid 7);
           CEq "business_name" (VStr "acme")].
Proof.
  split; reflexivity.
Qed.

Lemma py_eqb_None (v : pyval) : py_eqb v VNone = true <-> v = VNone.
Proof.
  split.
  - destruct v as [| | |f| | | | | | | |]; cbn; try discriminate; try reflexivity.
    all: try (destruct b; discriminate).
    destruct f; cbn; try discriminate.
    destruct (0 <=? e)%Z; discriminate.
    destruct (0 <=? e)%Z; discriminate.
  - intros ->. reflexivity.
Qed.

(** C2 (amended). On a kind with tenant scoping ([business_name] is an
    attribute of the class):
    - the compiler [get_queryset] raises no validation error, with or
      without a tenant name; the tenant requirement is enforced by the
      single-item lookup: [get_item] of the business classes fails with
      [ValueError "business_name is required"] when the tenant name is
      [None];
    - a predicate it compiles starts with the soft-delete condition, then
      the owner condition when the kind is owner scoped and an owner id is
      given, then the tenant condition; so the first two conditions are
      soft-delete and tenant when there is no owner condition;
    - a [_from] or [_to] entry never raises, and appends nothing when its
      value fails the range-type check;
    - without further keywords the predicate is exactly the standard
      filters. *)
Theorem tenant_scope_predicate (loads : string -> option pyval) (k : kind)
  (a : query_args) (s : store) :
  hasattr k "business_name" = true ->
  (forall msg, get_queryset loads k a <> Raise (ValueError msg))
  /\ (forall q, get_queryset loads k a = Ok q ->
        exists rest,
          q = CEq "is_deleted" (q_is_deleted a)
              :: (if hasattr k "user_id" && py_truthy (q_user_id a)
                  then [CEq "user_id" (q_user_id a)] else [])
              ++ CEq "business_name" (q_business_name a) :: rest)
  /\ (hasattr k "user_id" && py_truthy (q_user_id a) = false ->
      forall q, get_queryset loads k a = Ok q ->
        exists rest,
          q = CEq "is_deleted" (q_is_deleted a)
              :: CEq "business_name" (q_business_name a) :: rest)
  /\ (has_business_name (kind_class k) = true ->
      q_business_name a = VNone ->
      get_item loads k a s = Raise (ValueError "business_name is required"))
  /\ (forall key value,
        endswith key "_from" || endswith key "_to" = true ->
        exists cs, compile_entry loads k key value = Ok cs
                   /\ (_is_valid_range_value value = false -> cs = []))
  /\ get_queryset loads k (with_kwargs a []) = Ok (standard_filters k a).
Proof.
  intros Hb.
  assert (Hshape : forall q, get_queryset loads k a = Ok q ->
            exists rest,
              q = CEq "is_deleted" (q_is_deleted a)
                  :: (if hasattr k "user_id" && py_truthy (q_user_id a)
                      then [CEq "user_id" (q_user_id a)] else [])
                  ++ CEq "business_name" (q_business_name a) :: rest).
  { intros q Hq. unfold get_queryset in Hq.
    apply compile_kwargs_extends in Hq as [rest ->].
    unfold standard_filters. rewrite Hb.
    exists ((if py_truthy (q_uid a) then [CEq "uid" (q_uid a)] else [])
            ++ rest).
    cbn [app]. rewrite <- !app_assoc. reflexivity. }
  repeat split.
  - intros msg H. apply compile_kwargs_raises in H. discriminate.
  - exact Hshape.
  - intros Hu q Hq. destruct (Hshape q Hq) as [rest ->].
    rewrite Hu. exists rest. reflexivity.
  - intros Hc Hn. unfold get_item.
    assert (Ht : py_eqb (q_business_name a) VNone = true)
      by (apply py_eqb_None; exact Hn).
    destruct (kind_class k); try discriminate Hc; cbn; rewrite Ht;
      reflexivity.
  - intros key value Hr. unfold compile_entry.
    destruct (is_none value); [eexists; split; [reflexivity|reflexivity]|].
    destruct (truthy_names (search_field_set k) && _);
      [eexists; split; reflexivity|].
    destruct (truthy_names (search_exclude_set k) && _);
      [eexists; split; reflexivity|].
    destruct (negb (hasattr k _)); [eexists; split; reflexivity|].
    rewrite Hr.
    destruct (_is_valid_range_value value).
    + destruct (endswith key "_from"); [eexists; split; [reflexivity|discriminate]|].
      destruct (endswith key "_to"); eexists; (split; [reflexivity|discriminate]).
    + eexists; split; reflexivity.
Qed.

Lemma tenant_scope_predicate_witness :
  hasattr Project "business_name" = true
  /\ get_item loads_none Project default_args empty_store
     = Raise (ValueError "business_name is required").
Proof.
  split; [reflexivity|].
  exact (proj1 (proj2 (proj2 (proj2
           (tenant_scope_predicate loads_none Project default_args
              empty_store eq_refl)))) eq_refl eq_refl).
Defined.

(* ===================================================================== *)
(** * Properties: single-item lookup *)
(* ===================================================================== *)

(** The predicate of a lookup is bound to the identifier. *)
Lemma get_query_uid (loads : string -> option pyval) (k : kind)
  (a : query_args) (q : list condition) :
  get_query loads k a = Ok q ->
  py_truthy (q_uid a) = true ->
  In (CEq "uid" (q_uid a)) q /\ In (CEq "is_deleted" (q_is_deleted a)) q.
Proof.
  intros Hq Hu. unfold get_query, get_queryset in Hq.
  apply compile_kwargs_extends in Hq as [rest ->].
  unfold standard_filters; cbn [q_uid q_is_deleted q_user_id q_business_name].
  rewrite Hu. split.
  - apply in_or_app. left. apply in_or_app. right. apply in_or_app. right.
    apply in_or_app. right. left. reflexivity.
  - apply in_or_app. left. left. reflexivity.
Qed.

(** C5. [BaseEntity.get_item] returns [None] (and raises nothing) when no
    document matches the predicate compiled with the identifier bound,
    returns the document when exactly one matches, and raises
    [ValueError "Multiple items found"] when more than one matches: it never
    picks the first of several. *)
Theorem get_item_absent_or_unique (loads : string -> option pyval)
  (k : kind) (a : query_args) (s : store) (q : list condition) :
  get_query loads k a = Ok q ->
  (py_truthy (q_uid a) = true -> In (CEq "uid" (q_uid a)) q)
  /\ (to_list s q = [] -> BaseEntity_get_item loads k a s = Ok None)
  /\ (forall item, to_list s q = [item] ->
        BaseEntity_get_item loads k a s = Ok (Some item))
  /\ ((1 < List.length (to_list s q))%nat ->
      BaseEntity_get_item loads k a s
      = Raise (ValueError "Multiple items found")).
Proof.
  intros Hq. unfold BaseEntity_get_item. rewrite Hq. cbn [bind].
  repeat split.
  - intros Hu. exact (proj1 (get_query_uid loads k a q Hq Hu)).
  - intros ->. reflexivity.
  - intros item ->. reflexivity.
  - destruct (to_list s q) as [|x [|y l]]; cbn [List.length]; intros Hl;
      [lia | lia | reflexivity].
Qed.

Lemma get_item_absent_or_unique_witness :
  get_query loads_none Note (lookup_args 7)
  = Ok [CEq "is_deleted" (VBool false); CEq "uid" (VUuid 7)]
  /\ BaseEntity_get_item loads_none Note (lookup_args 7) sample_store
     = Raise (ValueError "Multiple items found")
  /\ BaseEntity_get_item loads_none Note (lookup_args 9) sample_store
     = Ok None.
Proof.
  split; [reflexivity|]. split.
  - apply (get_item_absent_or_unique loads_none Note (lookup_args 7)
             sample_store
             [CEq "is_deleted" (VBool false); CEq "uid" (VUuid 7)] eq_refl).
    vm_compute. lia.
  - apply (get_item_absent_or_unique loads_none Note (lookup_args 9)
             sample_store
             [CEq "is_deleted" (VBool false); CEq "uid" (VUuid 9)] eq_refl).
    reflexivity.
Defined.

(** C10, as stated for every owner-scoped kind, fails on the kinds that
    derive from [BusinessOwnedEntity]: their [get_item] has the [user_id]
    check commented out, and a lookup without an owner id goes through. *)
Lemma owner_required_counterexample :
  hasattr Invoice "user_id" = true
  /\ get_item loads_none Invoice
       {| q_user_id := VNone; q_business_name := VStr "acme";
          q_is_deleted := VBool false; q_uid := VUuid 7; q_kwargs := [] |}
       sample_store
     = Ok None.
Proof.
  split; reflexivity.
Qed.

(** C10 (amended). For every kind whose [get_item] is [OwnedEntity.get_item]
    (the kinds that derive from [OwnedEntity] or [ImmutableOwnedEntity]), a
    single-item lookup raises [ValueError "user_id is required"] when the
    owner id is [None] and the keyword [ignore_user_id] does not equal
    [True]; with [ignore_user_id=True], or with an owner id, it is the
    lookup of [BaseEntity.get_item], and without an owner id the predicate
    has no owner condition. *)
Theorem owned_get_item_requires_user (loads : string -> option pyval)
  (k : kind) (a : query_args) (s : store) :
  get_item_owner (kind_class k) = OwnedEntity ->
  (q_user_id a = VNone ->
   py_eqb (kwargs_get (q_kwargs a) "ignore_user_id") (VBool true) = false ->
   get_item loads k a s = Raise (ValueError "user_id is required"))
  /\ (py_eqb (kwargs_get (q_kwargs a) "ignore_user_id") (VBool true) = true ->
      get_item loads k a s = BaseEntity_get_item loads k a s)
  /\ (q_user_id a <> VNone ->
      get_item loads k a s = BaseEntity_get_item loads k a s)
  /\ (q_user_id a = VNone ->
      forall c, In c (standard_filters k a) -> condition_field c <> "user_id").
Proof.
  intros Hc. unfold get_item. rewrite Hc. repeat split.
  - intros Hn Hi. rewrite Hn, Hi. reflexivity.
  - intros Hi. rewrite Hi. cbn [negb]. rewrite andb_false_r. reflexivity.
  - intros Hn. destruct (py_eqb (q_user_id a) VNone) eqn:He.
    + apply py_eqb_None in He. contradiction.
    + reflexivity.
  - intros Hn c Hin. unfold standard_filters in Hin. rewrite Hn in Hin.
    cbn [py_truthy] in Hin. rewrite andb_false_r in Hin.
    cbn [app] in Hin.
    destruct Hin as [<-|Hin]; [cbn; discriminate|].
    apply in_app_or in Hin as [Hin|Hin].
    + destruct (hasattr k "business_name"); [|contradiction].
      destruct Hin as [<-|[]]. cbn; discriminate.
    + destruct (py_truthy (q_uid a)); [|contradiction].
      destruct Hin as [<-|[]]. cbn; discriminate.
Qed.

Lemma owned_get_item_requires_user_witness :
  get_item_owner (kind_class Order) = OwnedEntity
  /\ get_item loads_none Order (lookup_args 7) sample_store
     = Raise (ValueError "user_id is required")
  /\ get_item loads_none Order
       (with_kwargs (lookup_args 8) [("ignore_user_id", VBool true)])
       sample_store
     = BaseEntity_get_item loads_none Order
         (with_kwargs (lookup_args 8) [("ignore_user_id", VBool true)])
         sample_store.
Proof.
  split; [reflexivity|]. split.
  - exact (proj1 (owned_get_item_requires_user loads_none Order
                    (lookup_args 7) sample_store eq_refl) eq_refl eq_refl).
  - exact (proj1 (proj2 (owned_get_item_requires_user loads_none Order
                    (with_kwargs (lookup_args 8) [("ignore_user_id", VBool true)])
                    sample_store eq_refl)) eq_refl).
Defined.

(* ===================================================================== *)
(** * Properties: membership values *)
(* ===================================================================== *)

Section SetMembers.




Lemma fold_set_insert_sound (l acc : list pyval) (x : pyval) :
  In x (fold_left set_insert l acc) -> In x acc \/ In x l.
Proof.
  revert acc. induction l as [|a l IH]; intros acc H; cbn [fold_left] in H.
  - left. exact H.
  - apply IH in H as [H|H].
    + unfold set_insert in H.
      destruct (existsb (fun y => py_eqb y a) acc); [left; exact H|].
      apply in_app_or in H as [H|[<-|[]]]; [left; exact H|].
      right. left. reflexivity.
    + right. right. exact H.
Qed.







Lemma set_members_sound (l : list pyval) (x : pyval) :
  In x (set_members l) -> In x l.
Proof.
  intros H. apply fold_set_insert_sound in H as [[]|H]. exact H.
Qed.

Lemma set_members_hashable (l : list pyval) :
  forallb py_hashable l = true ->
  forallb py_hashable (set_members l) = true.
Proof.
  intros H. apply forallb_forall. intros x Hx.
  apply set_members_sound in Hx.
  rewrite forallb_forall in H. apply H, Hx.
Qed.





End SetMembers.

Lemma split_comma_nonempty (s : string) : split_comma s <> [].
Proof.
  destruct s as [|c s]; cbn [split_comma]; [discriminate|].
  destruct (Ascii.eqb c ","); [discriminate|].
  destruct (split_comma s); discriminate.
Qed.

(** Joining the pieces with commas gives the text back. *)
Lemma split_comma_concat (s : string) :
  String.concat "," (split_comma s) = s.
Proof.
  induction s as [|c s IH]; [reflexivity|].
  cbn [split_comma].
  pose proof (split_comma_nonempty s) as Hne.
  destruct (split_comma s) as [|p ps] eqn:Hs; [contradiction|].
  destruct (Ascii.eqb_spec c ","%char) as [->|Hc].
  - change (String.concat "," ("" :: p :: ps))
      with (String.append "" (String.append "," (String.concat "," (p :: ps)))).
    rewrite IH. reflexivity.
  - destruct ps as [|p' ps'].
    + cbn [String.concat] in *. now rewrite IH.
    + change (String.concat "," (String c p :: p' :: ps'))
        with (String c (String.append p
                (String.append "," (String.concat "," (p' :: ps'))))).
      change (String.concat "," (p :: p' :: ps'))
        with (String.append p
                (String.append "," (String.concat "," (p' :: ps')))) in IH.
      now rewrite IH.
Qed.





(* ===================================================================== *)
(** * Properties: the store and the lifecycle operations *)
(* ===================================================================== *)

Section StoreFacts.

Lemma stored_existsb (s : store) (i : nat) (d : fields) :
  stored s i = Some d ->
  existsb (fun p => Nat.eqb (fst p) i) (docs s) = true.
Proof.
  unfold stored.
  destruct (List.find (fun p => Nat.eqb (fst p) i) (docs s)) as [p|] eqn:Hf;
    [|discriminate].
  intros _. apply List.find_some in Hf as [Hin Hp].
  apply existsb_exists. exists p. now split.
Qed.

Lemma find_replace_same (ds : list (nat * fields)) (i : nat) (d : fields) :
  existsb (fun p => Nat.eqb (fst p) i) ds = true ->
  List.find (fun p => Nat.eqb (fst p) i)
    (map (fun p => if Nat.eqb (fst p) i then (i, d) else p) ds)
  = Some (i, d).
Proof.
  induction ds as [|p ds IH]; cbn [existsb map List.find]; [discriminate|].
  destruct (Nat.eqb (fst p) i) eqn:Hp; cbn [fst orb].
  - rewrite Nat.eqb_refl. reflexivity.
  - rewrite Hp. exact IH.
Qed.

Lemma find_replace_other (ds : list (nat * fields)) (i j : nat)
  (d : fields) :
  j <> i ->
  List.find (fun p => Nat.eqb (fst p) j)
    (map (fun p => if Nat.eqb (fst p) i then (i, d) else p) ds)
  = List.find (fun p => Nat.eqb (fst p) j) ds.
Proof.
  intros Hne. induction ds as [|p ds IH]; cbn [map List.find]; [reflexivity|].
  destruct (Nat.eqb (fst p) i) eqn:Hp; cbn [fst].
  - apply Nat.eqb_eq in Hp. rewrite Hp.
    destruct (Nat.eqb_spec i j) as [Heq|_]; [congruence|]. exact IH.
  - destruct (Nat.eqb (fst p) j); [reflexivity | exact IH].
Qed.

(** Saving an item that is in the store replaces its document and
    nothing else: no document is added or removed. *)
Lemma upsert_existing (s : store) (e : entity) (i : nat) (d : fields) :
  ent_id e = Some i ->
  stored s i = Some d ->
  snd (upsert s e) = e
  /\ stored (fst (upsert s e)) i = Some (ent_fields e)
  /\ List.length (docs (fst (upsert s e))) = List.length (docs s)
  /\ map fst (docs (fst (upsert s e))) = map fst (docs s)
  /\ (forall j, j <> i -> stored (fst (upsert s e)) j = stored s j).
Proof.
  intros Hid Hst. unfold upsert. rewrite Hid.
  rewrite (stored_existsb s i d Hst). cbn [fst snd docs].
  split; [reflexivity|]. split; [|split; [|split]].
  - unfold stored; cbn [docs].
    rewrite find_replace_same by (eapply stored_existsb; eassumption).
    reflexivity.
  - apply List.length_map.
  - rewrite map_map. apply map_ext_in. intros p _.
    destruct (Nat.eqb_spec (fst p) i) as [->|]; reflexivity.
  - intros j Hj. unfold stored; cbn [docs].
    now rewrite find_replace_other.
Qed.

Lemma insert_desc_In (e x : entity) (l : list entity) :
  In x (insert_desc e l) <-> x = e \/ In x l.
Proof.
  induction l as [|y l IH]; cbn [insert_desc].
  - cbn. intuition congruence.
  - destruct (created_at_key y <? created_at_key e)%Z; cbn [In].
    + intuition congruence.
    + rewrite IH. intuition congruence.
Qed.

Lemma sort_desc_In (x : entity) (l : list entity) :
  In x (sort_desc l) <-> In x l.
Proof.
  unfold sort_desc. induction l as [|y l IH]; cbn [fold_right].
  - reflexivity.
  - rewrite insert_desc_In, IH. cbn. intuition congruence.
Qed.

Lemma firstn_In_list {A} (n : nat) (l : list A) (x : A) :
  In x (firstn n l) -> In x l.
Proof.
  revert l. induction n as [|n IH]; intros [|y l]; cbn; try tauto.
  intros [->|H]; [left; reflexivity | right; apply IH, H].
Qed.

Lemma skipn_In_list {A} (n : nat) (l : list A) (x : A) :
  In x (skipn n l) -> In x l.
Proof.
  revert l. induction n as [|n IH]; intros [|y l]; cbn; try tauto.
  intros H. right. apply IH, H.
Qed.

(** A page holds only documents that match. *)
Lemma to_list_window_In (s : store) (q : list condition) (offset limit : Z)
  (x : entity) :
  In x (to_list_window s q offset limit) -> In x (to_list s q).
Proof.
  unfold to_list_window. intros H.
  apply firstn_In_list, skipn_In_list in H. now apply sort_desc_In.
Qed.

Lemma to_list_In (s : store) (q : list condition) (x : entity) :
  In x (to_list s q)
  <-> exists p, In p (docs s) /\ matches q (snd p) = true
                /\ x = to_entity p.
Proof.
  unfold to_list. rewrite in_map_iff. split.
  - intros [p [<- Hp]]. apply List.filter_In in Hp as [Hin Hm].
    exists p. auto.
  - intros [p [Hin [Hm ->]]]. exists p. split; [reflexivity|].
    apply List.filter_In. auto.
Qed.

Lemma stored_In (s : store) (i : nat) (d : fields) :
  stored s i = Some d -> In (i, d) (docs s).
Proof.
  unfold stored.
  destruct (List.find (fun p => Nat.eqb (fst p) i) (docs s)) as [[j d']|]
    eqn:Hf; [|discriminate].
  intros [= <-]. apply List.find_some in Hf as [Hin Hp].
  cbn in Hp. apply Nat.eqb_eq in Hp. now subst j.
Qed.

End StoreFacts.

(** Every compiled predicate starts with the soft-delete condition. *)
Lemma get_query_seed (loads : string -> option pyval) (k : kind)
  (a : query_args) (q : list condition) :
  get_query loads k a = Ok q ->
  exists rest, q = CEq "is_deleted" (q_is_deleted a) :: rest.
Proof.
  intros Hq. unfold get_query, get_queryset in Hq.
  apply compile_kwargs_extends in Hq as [rest ->].
  unfold standard_filters; cbn [q_is_deleted app]. eexists. reflexivity.
Qed.

Lemma get_item_Ok_base (loads : string -> option pyval) (k : kind)
  (a : query_args) (s : store) (r : option entity) :
  get_item loads k a s = Ok r -> BaseEntity_get_item loads k a s = Ok r.
Proof.
  unfold get_item.
  destruct (get_item_owner (kind_class k)); try (intros H; exact H).
  - destruct (_ && _); [discriminate | intros H; exact H].
  - destruct (py_eqb _ _); [discriminate | intros H; exact H].
  - destruct (py_eqb _ _); [discriminate | intros H; exact H].
Qed.

Lemma BaseEntity_get_item_In (loads : string -> option pyval) (k : kind)
  (a : query_args) (s : store) (e : entity) :
  BaseEntity_get_item loads k a s = Ok (Some e) ->
  exists q, get_query loads k a = Ok q /\ In e (to_list s q).
Proof.
  unfold BaseEntity_get_item.
  destruct (get_query loads k a) as [q|err]; cbn [bind]; [|discriminate].
  intros H. exists q. split; [reflexivity|].
  destruct (to_list s q) as [|x [|y l]]; try discriminate.
  injection H as <-. left. reflexivity.
Qed.

(** C7, as the specification states it, fails on [updated_at]: saving the
    deleted item runs [pre_save], which sets [updated_at] to the time of the
    save. *)
Lemma delete_item_updated_at_counterexample :
  stored_field sample_store 1 "updated_at" = Some (VDatetime 11)
  /\ stored_field (w_store (snd (delete_item Note sample_item sample_world)))
       1 "updated_at" = Some (VDatetime 50)
  /\ stored_field (w_store (snd (delete_item Note sample_item sample_world)))
       1 "is_deleted" = Some (VBool true).
Proof.
  repeat split; vm_compute; reflexivity.
Qed.

(** C7 (amended). After [delete_item] on an item of a kind that is not
    immutable, loaded from the store, the document is still in the store
    under the same id, no document was added or removed and the other
    documents are as before; its [is_deleted] is true, its [updated_at] is
    the time of the save, and every other field is unchanged. No predicate
    compiled with [is_deleted=False] matches it, so no default-scoped list
    page and no default-scoped lookup returns it; a predicate compiled with
    [is_deleted=True] whose other conditions the document meets still
    returns it. *)
Theorem delete_item_soft (k : kind) (item : entity) (w : world) (i : nat) :
  is_immutable (kind_class k) = false ->
  ent_id item = Some i ->
  stored (w_store w) i = Some (ent_fields item) ->
  let doc' := <["updated_at" := VDatetime (clock w (ticks w))]>
                (<["is_deleted" := VBool true]> (ent_fields item)) in
  let item' := {| ent_id := Some i; ent_fields := doc' |} in
  exists w',
    delete_item k item w = (Ok item', w')
    /\ stored (w_store w') i = Some doc'
    /\ map fst (docs (w_store w')) = map fst (docs (w_store w))
    /\ (forall j, j <> i -> stored (w_store w') j = stored (w_store w) j)
    /\ doc' !! "is_deleted" = Some (VBool true)
    /\ doc' !! "updated_at" = Some (VDatetime (clock w (ticks w)))
    /\ (forall f, f <> "is_deleted" -> f <> "updated_at" ->
          doc' !! f = ent_fields item !! f)
    /\ (forall loads a q,
          q_is_deleted a = VBool false ->
          get_query loads k a = Ok q ->
          matches q doc' = false
          /\ (forall st offset limit items,
                list_items loads st k a offset limit (w_store w') = Ok items ->
                forall e, In e items -> ent_fields e <> doc')
          /\ (forall e, get_item loads k a (w_store w') = Ok (Some e) ->
                ent_fields e <> doc'))
    /\ (forall loads a q,
          q_is_deleted a = VBool true ->
          get_query loads k a = Ok q ->
          forallb (matches_condition doc') (tl q) = true ->
          In item' (to_list (w_store w') q)).
Proof.
  intros Him Hid Hst doc' item'.
  set (item1 := {| ent_id := ent_id item; ent_fields := doc' |}).
  assert (Hid1 : ent_id item1 = Some i) by exact Hid.
  destruct (upsert_existing (w_store w) item1 i (ent_fields item) Hid1 Hst)
    as (Hsnd & Hstored & _ & Hids & Hother).
  assert (Hitem : item1 = item').
  { unfold item1, item'. rewrite Hid. reflexivity. }
  set (w' := with_store (snd (now w)) (fst (upsert (w_store w) item1))).
  exists w'.
  assert (Hdel : forall q rest, q = CEq "is_deleted" (VBool false) :: rest ->
                           matches q doc' = false).
  { intros q rest ->. unfold matches. cbn [forallb matches_condition].
    unfold field_value, doc'.
    rewrite lookup_insert_ne, lookup_insert_eq by discriminate.
    reflexivity. }
  assert (Hnomatch : forall loads a q,
            q_is_deleted a = VBool false -> get_query loads k a = Ok q ->
            forall e, In e (to_list (w_store w') q) -> ent_fields e <> doc').
  { intros loads a q Ha Hq e He Heq.
    destruct (get_query_seed loads k a q Hq) as [rest Hrest].
    rewrite Ha in Hrest.
    apply to_list_In in He as [p [_ [Hm ->]]]. cbn [to_entity ent_fields] in Heq.
    rewrite Heq, (Hdel q rest Hrest) in Hm. discriminate. }
  split; [|split; [|split; [|split; [|split; [|split; [|split; [|split]]]]]]].
  - unfold delete_item. rewrite Him.
    unfold BaseEntity_delete_item, save, pre_save. cbn [now ent_id ent_fields].
    fold doc'. fold item1. cbn [w_store].
    unfold w'. cbn [now snd].
    rewrite (surjective_pairing (upsert (w_store w) item1)).
    rewrite Hsnd, Hitem. reflexivity.
  - exact Hstored.
  - exact Hids.
  - exact Hother.
  - unfold doc'. now rewrite lookup_insert_ne, lookup_insert_eq.
  - unfold doc'. now rewrite lookup_insert_eq.
  - intros f Hf1 Hf2. unfold doc'. now rewrite !lookup_insert_ne.
  - intros loads a q Ha Hq. split; [|split].
    + destruct (get_query_seed loads k a q Hq) as [rest Hrest].
      rewrite Ha in Hrest. eapply Hdel, Hrest.
    + intros st offset limit items Hl e He.
      unfold list_items in Hl.
      destruct (adjust_pagination st offset limit) as [o l].
      rewrite Hq in Hl. cbn [bind] in Hl. injection Hl as <-.
      apply to_list_window_In in He. eapply Hnomatch; eassumption.
    + intros e He. apply get_item_Ok_base, BaseEntity_get_item_In in He
        as [q' [Hq' Hin]].
      eapply Hnomatch; eassumption.
  - intros loads a q Ha Hq Hrest.
    destruct (get_query_seed loads k a q Hq) as [rest ->].
    rewrite Ha. cbn [tl] in Hrest.
    apply to_list_In. exists (i, doc'). split; [|split].
    + apply stored_In, Hstored.
    + cbn [snd]. unfold matches. cbn [forallb]. rewrite Hrest.
      cbn [matches_condition]. unfold field_value, doc'.
      rewrite lookup_insert_ne, lookup_insert_eq by discriminate.
      reflexivity.
    + reflexivity.
Qed.

Lemma delete_item_soft_witness :
  is_immutable (kind_class Note) = false
  /\ ent_id sample_item = Some 1
  /\ stored (w_store sample_world) 1 = Some (ent_fields sample_item)
  /\ exists w',
       stored_field (w_store w') 1 "is_deleted" = Some (VBool true)
       /\ stored_field (w_store w') 1 "price"
          = stored_field (w_store sample_world) 1 "price".
Proof.
  split; [reflexivity|]. split; [reflexivity|]. split; [reflexivity|].
  destruct (delete_item_soft Note sample_item sample_world 1
              eq_refl eq_refl eq_refl)
    as (w' & _ & Hst & _ & _ & Hdel & _ & Hother & _).
  exists w'. unfold stored_field. rewrite Hst. split.
  - exact Hdel.
  - rewrite Hother by discriminate. reflexivity.
Defined.

Lemma upsert_fields (s : store) (e : entity) :
  ent_fields (snd (upsert s e)) = ent_fields e.
Proof.
  unfold upsert. destruct (ent_id e) as [i|]; [|reflexivity].
  destruct (existsb _ _); reflexivity.
Qed.

Lemma save_fields (item : entity) (w : world) :
  ent_fields (fst (save item w))
  = <["updated_at" := VDatetime (clock w (ticks w))]> (ent_fields item).
Proof.
  unfold save, pre_save. cbn [now].
  rewrite (surjective_pairing (upsert _ _)). cbn [fst].
  now rewrite upsert_fields.
Qed.

(** The constructor keeps every payload entry that names a field. *)
Lemma build_fields_kept (fs : list (string * field_default))
  (data : list (string * pyval)) (acc r : fields) (w w' : world)
  (name : string) (v : pyval) :
  build_fields fs data acc w = (Ok r, w') ->
  dict_find data name = Some v ->
  In name (map fst fs) \/ acc !! name = Some v ->
  r !! name = Some v.
Proof.
  revert acc w. induction fs as [|[n d] fs IH]; intros acc w Hb Hd Hin.
  - cbn in Hb. injection Hb as <- <-. destruct Hin as [[]|H]. exact H.
  - cbn [build_fields] in Hb.
    assert (Hstep : forall x,
               (n = name -> x = v) ->
               In name (map fst fs) \/ <[n := x]> acc !! name = Some v).
    { intros x Hx. destruct (String.eqb_spec n name) as [->|Hne].
      - right. rewrite lookup_insert_eq. now rewrite Hx.
      - destruct Hin as [[Heq|Hin]|Hacc].
        + cbn in Heq. contradiction.
        + left. exact Hin.
        + right. now rewrite lookup_insert_ne. }
    destruct (dict_find data n) as [v0|] eqn:Hn.
    + eapply IH; [exact Hb | exact Hd |].
      apply Hstep. intros ->. congruence.
    + destruct d as [|dv| |].
      * discriminate.
      * eapply IH; [exact Hb | exact Hd |].
        apply Hstep. intros ->. congruence.
      * cbn [now] in Hb. eapply IH; [exact Hb | exact Hd |].
        apply Hstep. intros ->. congruence.
      * cbn [new_uuid] in Hb. eapply IH; [exact Hb | exact Hd |].
        apply Hstep. intros ->. congruence.
Qed.

(** On a class that is not frozen [create_item] constructs and saves. *)
Lemma create_item_mutable (k : kind) (data : list (string * pyval))
  (w : world) :
  is_immutable (kind_class k) = false ->
  create_item k data w
  = match construct k data w with
    | (Ok item, w1) => let (item', w2) := save item w1 in (Ok item', w2)
    | (Raise e, w1) => (Raise e, w1)
    end.
Proof.
  intros Him. unfold create_item, item_save. rewrite Him. reflexivity.
Qed.

(** On a frozen class it raises whenever the constructor succeeds, and the
    store is never written. *)
Lemma create_item_immutable (k : kind) (data : list (string * pyval))
  (w : world) :
  is_immutable (kind_class k) = true ->
  w_store (snd (create_item k data w)) = w_store w
  /\ (forall item w1,
        construct k data w = (Ok item, w1) ->
        create_item k data w
        = (Raise (ValidationError "Instance is frozen"), snd (now w1))).
Proof.
  intros Him. unfold create_item, item_save. rewrite Him.
  assert (Hb : forall fs acc w0,
            w_store (snd (build_fields fs data acc w0)) = w_store w0).
  { induction fs as [|[name dflt] fs IH]; intros acc w0;
      cbn [build_fields]; [reflexivity|].
    destruct (dict_find data name); [apply IH|].
    destruct dflt; [reflexivity | apply IH | |].
    - cbn [now]. rewrite IH. reflexivity.
    - cbn [new_uuid]. rewrite IH. reflexivity. }
  split.
  - unfold construct. specialize (Hb (model_fields k) ∅ w).
    destruct (build_fields (model_fields k) data ∅ w) as [[fs|e] w1];
      cbn [snd] in Hb |- *; exact Hb.
  - intros item w1 ->. reflexivity.
Qed.

Lemma create_item_Ok_mutable (k : kind) (data : list (string * pyval))
  (w w' : world) (item : entity) :
  create_item k data w = (Ok item, w') ->
  is_immutable (kind_class k) = false.
Proof.
  unfold create_item, item_save.
  destruct (is_immutable (kind_class k)); [|reflexivity].
  destruct (construct k data w) as [[it|e] w1]; cbn [now]; discriminate.
Qed.

(** A kind of an immutable class refuses [update_item] and [delete_item]
    for every item and payload and leaves the world as it was. *)
Lemma immutable_update_delete_raise (k : kind) (item : entity)
  (data : list (string * pyval)) (w : world) :
  is_immutable (kind_class k) = true ->
  update_item k item data w
  = (Raise (ValueError "Immutable items cannot be updated"), w)
  /\ delete_item k item w
     = (Raise (ValueError "Immutable items cannot be deleted"), w).
Proof.
  intros Him. unfold update_item, delete_item. rewrite Him. now split.
Qed.

(** [create_item] hands the payload to the constructor whole: whatever the
    payload gives for a field of the kind, other than [updated_at], is the
    field of the created entity, whether or not the field is in
    [create_exclude_set] or missing from [create_field_set]. *)
Lemma create_item_payload_kept (k : kind) (data : list (string * pyval))
  (w w' : world) (item : entity) (name : string) (v : pyval) :
  create_item k data w = (Ok item, w') ->
  In name (map fst (model_fields k)) ->
  dict_find data name = Some v ->
  name <> "updated_at" ->
  ent_fields item !! name = Some v.
Proof.
  intros Hc Hin Hd Hne.
  rewrite (create_item_mutable k data w (create_item_Ok_mutable _ _ _ _ _ Hc))
    in Hc.
  unfold construct in Hc.
  destruct (build_fields (model_fields k) data ∅ w) as [[fs|e] w1] eqn:Hb;
    [|discriminate].
  pose proof (save_fields {| ent_id := None; ent_fields := fs |} w1) as Hs.
  destruct (save {| ent_id := None; ent_fields := fs |} w1) as [item' w2].
  injection Hc as <- <-. cbn [fst ent_fields] in Hs. rewrite Hs.
  rewrite lookup_insert_ne by congruence.
  eapply build_fields_kept; [exact Hb | exact Hd | left; exact Hin].
Qed.

(** C3 fails on [create_item]: a payload that sets [uid], [created_at] and
    [is_deleted], all in [create_exclude_set], creates an entity with the
    payload's identifier, creation time and deletion flag ([updated_at] is
    the time of the save only because [pre_save] sets it). *)
Theorem create_item_keeps_excluded_fields :
  (forall f, In f ["uid"; "created_at"; "updated_at"; "is_deleted"] ->
             In f (create_exclude_set Note))
  /\ returned_field (create_item Note forged_payload sample_world) "uid"
     = Some (VUuid 7)
  /\ returned_field (create_item Note forged_payload sample_world) "created_at"
     = Some (VDatetime 1)
  /\ returned_field (create_item Note forged_payload sample_world) "is_deleted"
     = Some (VBool true)
  /\ returned_field (create_item Note forged_payload sample_world) "updated_at"
     = Some (VDatetime 50)
  /\ stored_field
       (w_store (snd (create_item Note forged_payload sample_world))) 3 "uid"
     = Some (VUuid 7).
Proof.
  split; [intros f Hf; exact Hf|].
  repeat split; vm_compute; reflexivity.
Qed.

(** C9 fails on [create_item]: the classes under [ImmutableBase] are
    frozen, so on a kind of such a class the save of the created instance
    raises in [pre_save] and nothing is stored, where the kind with the same
    fields on [BaseEntity] creates the entity from the same payload;
    [update_item] and [delete_item] raise their immutability errors and
    leave the world as it was. *)
Theorem immutable_create_item_raises :
  is_immutable (kind_class LedgerEntry) = true
  /\ model_fields LedgerEntry = model_fields Note
  /\ returned_field (create_item Note [("price", VInt 9)] sample_world)
       "price"
     = Some (VInt 9)
  /\ fst (create_item LedgerEntry [("price", VInt 9)] sample_world)
     = Raise (ValidationError "Instance is frozen")
  /\ w_store (snd (create_item LedgerEntry [("price", VInt 9)] sample_world))
     = sample_store
  /\ update_item LedgerEntry sample_item [("price", VInt 9)] sample_world
     = (Raise (ValueError "Immutable items cannot be updated"), sample_world)
  /\ delete_item LedgerEntry sample_item sample_world
     = (Raise (ValueError "Immutable items cannot be deleted"), sample_world).
Proof.
  split; [reflexivity|]. split; [reflexivity|].
  split; [vm_compute; reflexivity|].
  split; [vm_compute; reflexivity|].
  split; [exact (proj1 (create_item_immutable LedgerEntry _ sample_world
                          eq_refl))|].
  exact (immutable_update_delete_raise LedgerEntry sample_item _ sample_world
           eq_refl).
Qed.


(* ===================================================================== *)
(** * Properties: the keyed condition registry *)
(* ===================================================================== *)

Section RegistryFacts.

Import Conditions.

Lemma wake_lookup_in (ws : list nat) (ts : gmap nat frame) (t : nat) :
  In t ws -> wake ws ts !! t = set_done <$> ts !! t.
Proof.
  induction ws as [|x ws IH]; intros Hin; [destruct Hin|].
  cbn [wake foldr]. fold (wake ws ts).
  destruct (decide (x = t)) as [->|Hne].
  - rewrite lookup_alter_eq.
    destruct (in_dec Nat.eq_dec t ws) as [Hin'|Hout].
    + rewrite (IH Hin'). destruct (ts !! t) as [f|]; reflexivity.
    + clear IH Hin. induction ws as [|y ws IH]; cbn [wake foldr].
      * reflexivity.
      * fold (wake ws ts). rewrite lookup_alter_ne.
        -- apply IH. intros H. apply Hout. right. exact H.
        -- intros ->. apply Hout. left. reflexivity.
  - rewrite lookup_alter_ne by exact Hne.
    apply IH. destruct Hin as [Heq|Hin]; [contradiction | exact Hin].
Qed.

Lemma wake_lookup_out (ws : list nat) (ts : gmap nat frame) (t : nat) :
  ~ In t ws -> wake ws ts !! t = ts !! t.
Proof.
  induction ws as [|x ws IH]; intros Hout; [reflexivity|].
  cbn [wake foldr]. fold (wake ws ts). rewrite lookup_alter_ne.
  - apply IH. intros H. apply Hout. right. exact H.
  - intros ->. apply Hout. left. reflexivity.
Qed.

(** A woken coroutine keeps its key and its condition. *)
Lemma wake_lookup (ws : list nat) (ts : gmap nat frame) (t : nat) (f : frame) :
  wake ws ts !! t = Some f ->
  exists f0, ts !! t = Some f0 /\ f_uid f = f_uid f0
             /\ f_condition f = f_condition f0
             /\ (f_done f = false -> f = f0 /\ ~ In t ws).
Proof.
  destruct (in_dec Nat.eq_dec t ws) as [Hin|Hout].
  - rewrite (wake_lookup_in ws ts t Hin).
    destruct (ts !! t) as [f0|]; [|discriminate].
    cbn. intros [= <-]. exists f0. repeat split; discriminate.
  - rewrite (wake_lookup_out ws ts t Hout). intros H.
    exists f. repeat split; auto.
Qed.


Lemma unlocked_eta (o : condition_obj) :
  locked o = false -> {| locked := false; waiters := waiters o |} = o.
Proof. destruct o as [l ws]; cbn. intros ->. reflexivity. Qed.

(** [release_condition] on a registered key, between two steps: it runs
    to its end, wakes the waiters of the entry and removes the entry. *)
Lemma release_condition_registered (s : state) (uid : N) (c : nat)
  (o : condition_obj) :
  inv s ->
  _conditions s !! uid = Some c ->
  objects s !! c = Some o ->
  release_condition uid s
  = Some {| _conditions := delete uid (_conditions s);
            objects := objects s;
            fresh := fresh s;
            tasks := wake (waiters o) (tasks s) |}.
Proof.
  intros Hinv Hc Ho. unfold release_condition, get_condition. rewrite Hc.
  unfold acquire. rewrite Ho, (inv_unlocked s Hinv c o Ho).
  unfold notify_all, release_lock, set_object, cleanup_condition.
  cbn [objects _conditions fresh tasks]. rewrite !lookup_insert_eq.
  cbn [objects _conditions fresh tasks waiters].
  rewrite lookup_insert_eq. cbn [waiters].
  rewrite insert_insert_eq.
  rewrite (unlocked_eta o (inv_unlocked s Hinv c o Ho)).
  rewrite (insert_id _ _ _ Ho). reflexivity.
Qed.

Lemma release_condition_absent (s : state) (uid : N) :
  _conditions s !! uid = None -> release_condition uid s = Some s.
Proof.
  intros H. unfold release_condition. now rewrite H.
Qed.

(** [wait_condition] on a registered key: the coroutine parks on the
    condition of the entry. *)
Lemma wait_condition_begin_registered (s : state) (t : nat) (uid : N)
  (c : nat) (o : condition_obj) :
  inv s ->
  tasks s !! t = None ->
  _conditions s !! uid = Some c ->
  objects s !! c = Some o ->
  wait_condition_begin t uid s
  = Some {| _conditions := _conditions s;
            objects := <[c := {| locked := false;
                                 waiters := waiters o ++ [t] |}]>
                         (objects s);
            fresh := fresh s;
            tasks := <[t := {| f_uid := uid; f_condition := c;
                               f_done := false |}]> (tasks s) |}.
Proof.
  intros Hinv Ht Hc Ho. unfold wait_condition_begin, get_condition.
  rewrite Ht, Hc. unfold acquire.
  rewrite Ho, (inv_unlocked s Hinv c o Ho).
  unfold set_object. cbn [objects _conditions fresh tasks].
  rewrite lookup_insert_eq. cbn [waiters].
  rewrite insert_insert_eq. reflexivity.
Qed.

(** [wait_condition] on a key without entry: a new condition is
    registered and the coroutine parks on it. *)
Lemma wait_condition_begin_absent (s : state) (t : nat) (uid : N) :
  tasks s !! t = None ->
  _conditions s !! uid = None ->
  wait_condition_begin t uid s
  = Some {| _conditions := <[uid := fresh s]> (_conditions s);
            objects := <[fresh s := {| locked := false; waiters := [t] |}]>
                         (objects s);
            fresh := S (fresh s);
            tasks := <[t := {| f_uid := uid; f_condition := fresh s;
                               f_done := false |}]> (tasks s) |}.
Proof.
  intros Ht Hc. unfold wait_condition_begin, get_condition.
  rewrite Ht, Hc. unfold acquire.
  cbn [objects _conditions fresh tasks]. rewrite lookup_insert_eq.
  cbn [locked]. unfold set_object.
  cbn [objects _conditions fresh tasks]. rewrite lookup_insert_eq.
  cbn [waiters app]. rewrite !insert_insert_eq. reflexivity.
Qed.

(** [wait_condition] from its wake-up: it runs to its end and removes
    whatever entry its key has. *)
Lemma wait_condition_resume_done (s : state) (t : nat) (f : frame)
  (o : condition_obj) :
  inv s ->
  tasks s !! t = Some f ->
  f_done f = true ->
  objects s !! f_condition f = Some o ->
  wait_condition_resume t s
  = Some {| _conditions := delete (f_uid f) (_conditions s);
            objects := <[f_condition f :=
                           {| locked := false;
                              waiters := List.filter
                                           (fun x => negb (Nat.eqb x t))
                                           (waiters o) |}]> (objects s);
            fresh := fresh s;
            tasks := delete t (tasks s) |}.
Proof.
  intros Hinv Ht Hd Ho. unfold wait_condition_resume.
  rewrite Ht, Hd, Ho. unfold acquire, set_object.
  cbn [objects _conditions fresh tasks]. rewrite lookup_insert_eq.
  cbn [locked]. rewrite (inv_unlocked s Hinv _ o Ho).
  unfold release_lock, set_object, cleanup_condition.
  cbn [objects _conditions fresh tasks waiters].
  rewrite lookup_insert_eq. cbn [objects _conditions fresh tasks waiters].
  rewrite !insert_insert_eq. reflexivity.
Qed.


Lemma inv_init : inv init.
Proof.
  split; cbn; intros; try (rewrite lookup_empty in *; discriminate).
Qed.

Lemma inv_release (s s' : state) (uid : N) :
  inv s -> release_condition uid s = Some s' -> inv s'.
Proof.
  intros Hinv Hr.
  destruct (_conditions s !! uid) as [c|] eqn:Hc.
  2: { rewrite (release_condition_absent s uid Hc) in Hr.
       injection Hr as <-. exact Hinv. }
  destruct (inv_entry_object s Hinv uid c Hc) as [o Ho].
  rewrite (release_condition_registered s uid c o Hinv Hc Ho) in Hr.
  injection Hr as <-.
  split; cbn [_conditions objects fresh tasks].
  - intros u c' Hu. apply lookup_delete_Some in Hu as [_ Hu].
    eapply inv_entry_object; eassumption.
  - apply (inv_unlocked s Hinv).
  - apply (inv_fresh s Hinv).
  - intros t f Ht. apply wake_lookup in Ht
      as (f0 & Hf0 & _ & Hcond & Hdone).
    destruct (inv_task_object s Hinv t f0 Hf0) as (o' & Ho' & Hw).
    exists o'. rewrite Hcond. split; [exact Ho'|].
    intros Hd. destruct (Hdone Hd) as [-> _]. apply Hw, Hd.
  - intros c' o' t Ho' Hin.
    destruct (inv_waiter_task s Hinv c' o' t Ho' Hin) as (f & Hf & Hcond).
    destruct (in_dec Nat.eq_dec t (waiters o)) as [Hw|Hw].
    + exists (set_done f). rewrite (wake_lookup_in _ _ _ Hw), Hf.
      split; [reflexivity | exact Hcond].
    + exists f. rewrite (wake_lookup_out _ _ _ Hw). split; assumption.
  - intros u c' Hu. apply lookup_delete_Some in Hu as [Hne Hu].
    destruct (inv_entry_outstanding s Hinv u c' Hu) as [t Ht].
    exists t. cbn [tasks]. rewrite wake_lookup_out; [exact Ht|].
    intros Hin.
    destruct (inv_waiter_task s Hinv c o t Ho Hin) as (f & Hf & Hcond).
    rewrite Ht in Hf. injection Hf as <-. cbn in Hcond. subst c'.
    apply Hne. eapply inv_injective; eassumption.
  - intros u1 u2 c' H1 H2.
    apply lookup_delete_Some in H1 as [_ H1].
    apply lookup_delete_Some in H2 as [_ H2].
    eapply inv_injective; eassumption.
Qed.


Lemma inv_wait_begin (s s' : state) (t : nat) (uid : N) :
  inv s -> wait_condition_begin t uid s = Some s' -> inv s'.
Proof.
  intros Hinv Hw.
  destruct (tasks s !! t) as [f0|] eqn:Ht.
  { unfold wait_condition_begin in Hw. rewrite Ht in Hw. discriminate. }
  assert (Hnot : forall t' f, tasks s !! t' = Some f -> t' <> t)
    by (intros t' f Hf ->; congruence).
  destruct (_conditions s !! uid) as [c|] eqn:Hc.
  - destruct (inv_entry_object s Hinv uid c Hc) as [o Ho].
    rewrite (wait_condition_begin_registered s t uid c o Hinv Ht Hc Ho)
      in Hw.
    injection Hw as <-.
    split; cbn [_conditions objects fresh tasks].
    + intros u c' Hu.
      destruct (inv_entry_object s Hinv u c' Hu) as [o' Ho'].
      destruct (decide (c = c')) as [<-|Hne].
      * rewrite lookup_insert_eq. eauto.
      * rewrite lookup_insert_ne by exact Hne. eauto.
    + intros c' o' Ho'. apply lookup_insert_Some in Ho'
        as [[_ <-]|[_ Ho']]; [reflexivity|].
      eapply inv_unlocked; eassumption.
    + intros c' o' Ho'. apply lookup_insert_Some in Ho'
        as [[<- _]|[_ Ho']]; eapply inv_fresh; eassumption.
    + intros t' f Hf. apply lookup_insert_Some in Hf
        as [[<- <-]|[Hne Hf]]; cbn [f_condition f_done].
      * rewrite lookup_insert_eq. eexists. split; [reflexivity|].
        intros _. cbn [waiters]. apply in_or_app. right. left. reflexivity.
      * destruct (inv_task_object s Hinv t' f Hf) as (o' & Ho' & Hin).
        destruct (decide (c = f_condition f)) as [Heq|Hneq].
        -- rewrite <- Heq in *. rewrite lookup_insert_eq.
           eexists. split; [reflexivity|]. intros Hd. cbn [waiters].
           apply in_or_app. left. rewrite Ho in Ho'.
           injection Ho' as ->. apply Hin, Hd.
        -- rewrite lookup_insert_ne by exact Hneq. eauto.
    + intros c' o' t' Ho' Hin. apply lookup_insert_Some in Ho'
        as [[<- <-]|[Hne Ho']].
      * cbn [waiters] in Hin. apply in_app_or in Hin as [Hin|[<-|[]]].
        -- destruct (inv_waiter_task s Hinv c o t' Ho Hin) as (f & Hf & Hcf).
           exists f. rewrite lookup_insert_ne; [auto|].
           intros ->. congruence.
        -- eexists. rewrite lookup_insert_eq. split; reflexivity.
      * destruct (inv_waiter_task s Hinv c' o' t' Ho' Hin)
          as (f & Hf & Hcf).
        exists f. rewrite lookup_insert_ne; [auto|].
        intros ->. congruence.
    + intros u c' Hu.
      destruct (inv_entry_outstanding s Hinv u c' Hu) as [t0 Ht0].
      exists t0. cbn [tasks]. rewrite lookup_insert_ne; [exact Ht0|].
      intros ->. congruence.
    + apply (inv_injective s Hinv).
  - rewrite (wait_condition_begin_absent s t uid Ht Hc) in Hw.
    injection Hw as <-.
    assert (Hold : forall c o, objects s !! c = Some o -> fresh s <> c).
    { intros c o Ho Heq. pose proof (inv_fresh s Hinv c o Ho). lia. }
    split; cbn [_conditions objects fresh tasks].
    + intros u c' Hu. apply lookup_insert_Some in Hu
        as [[<- <-]|[Hne Hu]].
      * rewrite lookup_insert_eq. eauto.
      * destruct (inv_entry_object s Hinv u c' Hu) as [o' Ho'].
        rewrite lookup_insert_ne by (eapply Hold; eassumption). eauto.
    + intros c' o' Ho'. apply lookup_insert_Some in Ho'
        as [[_ <-]|[_ Ho']]; [reflexivity|].
      eapply inv_unlocked; eassumption.
    + intros c' o' Ho'. apply lookup_insert_Some in Ho'
        as [[<- _]|[_ Ho']]; [lia|].
      pose proof (inv_fresh s Hinv c' o' Ho'). lia.
    + intros t' f Hf. apply lookup_insert_Some in Hf
        as [[<- <-]|[Hne Hf]]; cbn [f_condition f_done].
      * rewrite lookup_insert_eq. eexists. split; [reflexivity|].
        intros _. left. reflexivity.
      * destruct (inv_task_object s Hinv t' f Hf) as (o' & Ho' & Hin).
        rewrite lookup_insert_ne by (eapply Hold; eassumption). eauto.
    + intros c' o' t' Ho' Hin. apply lookup_insert_Some in Ho'
        as [[<- <-]|[Hne Ho']].
      * destruct Hin as [<-|[]]. eexists. rewrite lookup_insert_eq.
        split; reflexivity.
      * destruct (inv_waiter_task s Hinv c' o' t' Ho' Hin)
          as (f & Hf & Hcf).
        exists f. rewrite lookup_insert_ne; [auto|].
        intros ->. congruence.
    + intros u c' Hu. apply lookup_insert_Some in Hu
        as [[<- <-]|[Hne Hu]].
      * exists t. cbn [tasks]. apply lookup_insert_eq.
      * destruct (inv_entry_outstanding s Hinv u c' Hu) as [t0 Ht0].
        exists t0. cbn [tasks]. rewrite lookup_insert_ne; [exact Ht0|].
        intros ->. congruence.
    + intros u1 u2 c' H1 H2.
      apply lookup_insert_Some in H1 as [[<- <-]|[Hne1 H1]];
        apply lookup_insert_Some in H2 as [[<- Heq]|[Hne2 H2]];
        try reflexivity.
      * destruct (inv_entry_object s Hinv u2 _ H2) as [o' Ho'].
        exfalso. eapply Hold; [exact Ho' | reflexivity].
      * subst c'. destruct (inv_entry_object s Hinv u1 _ H1) as [o' Ho'].
        exfalso. eapply Hold; [exact Ho' | reflexivity].
      * eapply inv_injective; eassumption.
Qed.

Lemma inv_wait_resume (s s' : state) (t : nat) :
  inv s -> wait_condition_resume t s = Some s' -> inv s'.
Proof.
  intros Hinv Hw.
  destruct (tasks s !! t) as [f|] eqn:Ht.
  2: { unfold wait_condition_resume in Hw. rewrite Ht in Hw. discriminate. }
  destruct (f_done f) eqn:Hd.
  2: { unfold wait_condition_resume in Hw. rewrite Ht, Hd in Hw.
       discriminate. }
  destruct (inv_task_object s Hinv t f Ht) as (o & Ho & _).
  rewrite (wait_condition_resume_done s t f o Hinv Ht Hd Ho) in Hw.
  injection Hw as <-.
  split; cbn [_conditions objects fresh tasks].
  - intros u c' Hu. apply lookup_delete_Some in Hu as [_ Hu].
    destruct (inv_entry_object s Hinv u c' Hu) as [o' Ho'].
    destruct (decide (f_condition f = c')) as [<-|Hne].
    + rewrite lookup_insert_eq. eauto.
    + rewrite lookup_insert_ne by exact Hne. eauto.
  - intros c' o' Ho'. apply lookup_insert_Some in Ho'
      as [[_ <-]|[_ Ho']]; [reflexivity|].
    eapply inv_unlocked; eassumption.
  - intros c' o' Ho'. apply lookup_insert_Some in Ho'
      as [[<- _]|[_ Ho']]; eapply inv_fresh; eassumption.
  - intros t' f' Hf'. apply lookup_delete_Some in Hf' as [Hne Hf'].
    destruct (inv_task_object s Hinv t' f' Hf') as (o' & Ho' & Hin).
    destruct (decide (f_condition f = f_condition f')) as [Heq|Hneq].
    + rewrite <- Heq in *. rewrite lookup_insert_eq.
      eexists. split; [reflexivity|]. intros Hd'. cbn [waiters].
      apply List.filter_In. rewrite Ho in Ho'. injection Ho' as ->.
      split; [apply Hin, Hd'|].
      apply negb_true_iff, Nat.eqb_neq. congruence.
    + rewrite lookup_insert_ne by exact Hneq. eauto.
  - intros c' o' t' Ho' Hin. apply lookup_insert_Some in Ho'
      as [[<- <-]|[Hne Ho']].
    + cbn [waiters] in Hin. apply List.filter_In in Hin as [Hin Hne].
      apply negb_true_iff, Nat.eqb_neq in Hne.
      destruct (inv_waiter_task s Hinv _ o t' Ho Hin) as (f' & Hf' & Hcf).
      exists f'. rewrite lookup_delete_ne by congruence. auto.
    + destruct (inv_waiter_task s Hinv c' o' t' Ho' Hin)
        as (f' & Hf' & Hcf).
      exists f'. rewrite lookup_delete_ne; [auto|].
      intros ->. rewrite Ht in Hf'. injection Hf' as <-. congruence.
  - intros u c' Hu. apply lookup_delete_Some in Hu as [Hne Hu].
    destruct (inv_entry_outstanding s Hinv u c' Hu) as [t0 Ht0].
    exists t0. cbn [tasks]. rewrite lookup_delete_ne; [exact Ht0|].
    intros ->. rewrite Ht in Ht0. injection Ht0 as ->. discriminate Hd.
  - intros u1 u2 c' H1 H2.
    apply lookup_delete_Some in H1 as [_ H1].
    apply lookup_delete_Some in H2 as [_ H2].
    eapply inv_injective; eassumption.
Qed.

Lemma inv_do_event (e : event) (s s' : state) :
  inv s -> do_event e s = Some s' -> inv s'.
Proof.
  destruct e as [t uid|t|uid]; cbn [do_event].
  - apply inv_wait_begin.
  - apply inv_wait_resume.
  - apply inv_release.
Qed.

Lemma inv_run (es : list event) (s s' : state) :
  inv s -> run es s = Some s' -> inv s'.
Proof.
  revert s. induction es as [|e es IH]; intros s Hinv Hr; cbn [run] in Hr.
  - injection Hr as <-. exact Hinv.
  - destruct (do_event e s) as [s1|] eqn:He; [|discriminate].
    eapply IH; [|exact Hr]. eapply inv_do_event; eassumption.
Qed.

(** The invariant holds in every state the scheduler can reach. *)
Lemma reachable_inv (s : state) : reachable s -> inv s.
Proof.
  intros [es Hr]. eapply inv_run; [apply inv_init | exact Hr].
Qed.


Lemma run_snoc (es : list event) (e : event) (s s1 s2 : state) :
  run es s = Some s1 -> do_event e s1 = Some s2 ->
  run (es ++ [e]) s = Some s2.
Proof.
  revert s. induction es as [|x es IH]; intros s Hr He; cbn [run app] in *.
  - injection Hr as ->. now rewrite He.
  - destruct (do_event x s) as [s'|]; [|discriminate]. now apply IH.
Qed.

Lemma reachable_step (e : event) (s s' : state) :
  reachable s -> do_event e s = Some s' -> reachable s'.
Proof.
  intros [es Hr] He. exists (es ++ [e]). eapply run_snoc; eassumption.
Qed.

End RegistryFacts.

(** C4. In every state the scheduler can reach, for every key:
    - [release_condition] on a key without entry is a no-op: the registry
      is as before, with no entry for the key;
    - [release_condition] always runs to its end, and then the key has no
      entry;
    - a [wait_condition] that completes (its coroutine, woken, resumes)
      leaves the key without entry;
    - a [wait_condition] started after a completed [release_condition]
      registers a condition that did not exist before and parks on it, not
      woken: it cannot resume until a later release;
    - the table has an entry for a key only while a coroutine waiting for
      that key is parked, not woken, on the condition of the entry. *)
Theorem registry_no_residual_entry (s : Conditions.state) (uid : N) :
  Conditions.reachable s ->
  (Conditions._conditions s !! uid = None ->
   Conditions.release_condition uid s = Some s)
  /\ (exists s', Conditions.release_condition uid s = Some s'
                 /\ Conditions._conditions s' !! uid = None
                 /\ Conditions.reachable s')
  /\ (forall t f,
        Conditions.tasks s !! t = Some f ->
        Conditions.f_uid f = uid ->
        Conditions.f_done f = true ->
        exists s', Conditions.wait_condition_resume t s = Some s'
                   /\ Conditions._conditions s' !! uid = None
                   /\ Conditions.tasks s' !! t = None)
  /\ (forall t s1,
        Conditions.release_condition uid s = Some s1 ->
        Conditions.tasks s1 !! t = None ->
        exists s2,
          Conditions.wait_condition_begin t uid s1 = Some s2
          /\ Conditions.objects s1 !! Conditions.fresh s1 = None
          /\ Conditions._conditions s2 !! uid = Some (Conditions.fresh s1)
          /\ Conditions.tasks s2 !! t
             = Some {| Conditions.f_uid := uid;
                       Conditions.f_condition := Conditions.fresh s1;
                       Conditions.f_done := false |}
          /\ Conditions.wait_condition_resume t s2 = None)
  /\ (forall c, Conditions._conditions s !! uid = Some c ->
                Conditions.outstanding s uid c).
Proof.
  intros Hreach. pose proof (reachable_inv s Hreach) as Hinv.
  assert (Hrel : exists s', Conditions.release_condition uid s = Some s'
                            /\ Conditions._conditions s' !! uid = None).
  { destruct (Conditions._conditions s !! uid) as [c|] eqn:Hc.
    - destruct (Conditions.inv_entry_object s Hinv uid c Hc) as [o Ho].
      eexists. split;
        [apply (release_condition_registered s uid c o Hinv Hc Ho)|].
      cbn. apply lookup_delete_eq.
    - exists s. split; [apply release_condition_absent, Hc | exact Hc]. }
  split; [apply release_condition_absent|].
  split.
  { destruct Hrel as (s' & Hs' & Hnone). exists s'.
    split; [exact Hs'|]. split; [exact Hnone|].
    apply (reachable_step (Conditions.Release uid) s s' Hreach Hs'). }
  split.
  { intros t f Ht Hu Hd.
    destruct (Conditions.inv_task_object s Hinv t f Ht) as (o & Ho & _).
    eexists. split;
      [apply (wait_condition_resume_done s t f o Hinv Ht Hd Ho)|].
    cbn. rewrite Hu. split; apply lookup_delete_eq. }
  split.
  { intros t s1 Hs1 Ht.
    destruct Hrel as (s' & Hs' & Hnone).
    rewrite Hs1 in Hs'. injection Hs' as <-.
    assert (Hinv1 : Conditions.inv s1)
      by (eapply inv_release; eassumption).
    eexists. split;
      [apply (wait_condition_begin_absent s1 t uid Ht Hnone)|].
    cbn [Conditions._conditions Conditions.tasks].
    split; [|split; [apply lookup_insert_eq|split; [apply lookup_insert_eq|]]].
    - destruct (Conditions.objects s1 !! Conditions.fresh s1) as [o|] eqn:Ho;
        [|reflexivity].
      pose proof (Conditions.inv_fresh s1 Hinv1 _ o Ho). lia.
    - unfold Conditions.wait_condition_resume.
      cbn [Conditions.tasks]. rewrite lookup_insert_eq. reflexivity. }
  intros c Hc. apply (Conditions.inv_entry_outstanding s Hinv uid c Hc).
Qed.

Lemma registry_no_residual_entry_witness :
  Conditions.reachable three_waiters
  /\ (exists c, Conditions._conditions three_waiters !! 5%N = Some c)
  /\ (exists s', Conditions.release_condition 5 three_waiters = Some s'
                 /\ Conditions._conditions s' !! 5%N = None
                 /\ Conditions.reachable s').
Proof.
  assert (Hr : Conditions.reachable three_waiters).
  { exists [Conditions.Wait 1 5; Conditions.Wait 2 5; Conditions.Wait 3 5].
    vm_compute. reflexivity. }
  split; [exact Hr|]. split.
  - exists 0. vm_compute. reflexivity.
  - exact (proj1 (proj2 (registry_no_residual_entry three_waiters 5 Hr))).
Defined.

(** One release wakes the three waiters and leaves the table empty; the
    three can then resume, and the registry holds no coroutine either. *)
Example three_waiters_released :
  match Conditions.release_condition 5 three_waiters with
  | Some s =>
      Conditions._conditions s = ∅
      /\ (forall t, In t [1; 2; 3] ->
            Conditions.f_done <$> Conditions.tasks s !! t = Some true)
      /\ match Conditions.run
                 [Conditions.Resume 2; Conditions.Resume 1;
                  Conditions.Resume 3] s with
         | Some s' => Conditions._conditions s' = ∅
                      /\ Conditions.tasks s' = ∅
         | None => False
         end
  | None => False
  end.
Proof.
  vm_compute. split; [reflexivity|]. split; [|split; reflexivity].
  intros t [<-|[<-|[<-|[]]]]; reflexivity.
Qed.

(* ===================================================================== *)
(** * The model on concrete inputs *)
(* ===================================================================== *)

Example base_field_names :
  map _get_base_field_name
    ["price_from"; "price_to"; "price_in"; "price_nin"; "price"; "_from"]
  = ["price"; "price"; "price"; "price"; "price"; ""].
Proof. reflexivity. Qed.

Example comma_tokens_trimmed :
  comma_tokens " a ,, b,a , " = ["a"; "b"; "a"].
Proof. reflexivity. Qed.

(** A bracketed text that does not parse is split on commas like any other
    text. *)
Example bracketed_text_fallback :
  _parse_array_parameter loads_none (VStr " [a, b] ")
  = Ok [VStr "[a"; VStr "b]"].
Proof. reflexivity. Qed.

(** [True] and [1] are one member of a set. *)
Example set_members_numbers :
  _parse_array_parameter loads_none (VList [VInt 1; VBool true; VInt 2])
  = Ok [VInt 1; VInt 2].
Proof. reflexivity. Qed.

Example compiled_invoice_filter :
  get_queryset loads_none Invoice
    {| q_user_id := VUuid 5; q_business_name := VStr "acme";
       q_is_deleted := VBool false; q_uid := VNone;
       q_kwargs := [ ("price_from", VInt 3); ("price_to", VList []);
                     ("meta_data", VInt 1); ("colour", VStr "red");
                     ("price_nin", VStr "1,2"); ("price", VInt 4) ] |}
  = Ok [ CEq "is_deleted" (VBool false); CEq "user_id" (VUuid 5);
         CEq "business_name" (VStr "acme"); CGte "price" (VInt 3);
         CNin "price" [VStr "1"; VStr "2"]; CEq "price" (VInt 4) ].
Proof. reflexivity. Qed.

(** [list_total_combined] with no filter on an empty collection. *)
Example list_total_combined_empty :
  list_total_combined loads_none core_Settings Note default_args
    (ArgInt 0) (ArgInt 10) empty_store empty_store
  = Ok ([], 0%Z).
Proof. reflexivity. Qed.

(** When the documents are removed between the two readings, the total is
    smaller than the page. *)
Example list_total_combined_two_readings :
  match list_total_combined loads_none core_Settings Note default_args
          (ArgInt 1) (ArgInt 5) sample_store empty_store with
  | Ok (items, total) => map ent_id items = [Some 1; Some 0] /\ total = 0%Z
  | Raise _ => False
  end.
Proof. vm_compute. split; reflexivity. Qed.

(** A page of the sample collection: newest first. *)
Example list_items_sample :
  match list_items loads_none core_Settings Note default_args
          (ArgInt 1) (ArgInt 5) sample_store with
  | Ok items => map ent_id items = [Some 1; Some 0]
  | Raise _ => False
  end.
Proof. vm_compute. reflexivity. Qed.


(* ===================================================================== *)
(** * Further properties: suffixes of filter keys *)
(* ===================================================================== *)

Section SuffixFacts.

Lemma append_cons (c : ascii) (s t : string) :
  String.append (String c s) t = String c (String.append s t).
Proof. reflexivity. Qed.

Lemma append_empty (t : string) : String.append EmptyString t = t.
Proof. reflexivity. Qed.

Lemma length_append (s t : string) :
  String.length (String.append s t) = String.length s + String.length t.
Proof.
  induction s as [|c s IH]; [reflexivity|].
  rewrite append_cons. cbn [String.length Nat.add]. now rewrite IH.
Qed.

Lemma substring_all (s : string) :
  String.substring 0 (String.length s) s = s.
Proof.
  induction s as [|c s IH]; cbn [String.length String.substring];
    [reflexivity | now rewrite IH].
Qed.

Lemma substring_append_skip (p s : string) (k m : nat) :
  String.substring (String.length p + k) m (String.append p s)
  = String.substring k m s.
Proof.
  induction p as [|c p IH]; [reflexivity|].
  rewrite append_cons. cbn [String.length String.substring Nat.add].
  exact IH.
Qed.

Lemma substring_append_prefix (p s : string) :
  String.substring 0 (String.length p) (String.append p s) = p.
Proof.
  induction p as [|c p IH].
  - rewrite append_empty. destruct s; reflexivity.
  - rewrite append_cons. cbn [String.length String.substring].
    now rewrite IH.
Qed.

Lemma substring_split (s : string) (k : nat) :
  k <= String.length s ->
  String.append (String.substring 0 k s)
    (String.substring k (String.length s - k) s) = s.
Proof.
  revert k. induction s as [|c s IH]; intros k Hk.
  - cbn in Hk. assert (k = 0) as -> by lia. reflexivity.
  - cbn [String.length] in *.
    destruct k as [|k]; cbn [String.substring Nat.sub].
    + rewrite append_empty. now rewrite substring_all.
    + rewrite append_cons, IH by lia. reflexivity.
Qed.

(** A text ends with a suffix exactly when it is some text followed by the
    suffix. *)
Lemma endswith_append (b suf : string) :
  endswith (String.append b suf) suf = true.
Proof.
  unfold endswith. rewrite length_append.
  replace (String.length b + String.length suf - String.length suf)
    with (String.length b + 0) by lia.
  rewrite substring_append_skip, substring_all, String.eqb_refl.
  rewrite andb_true_r. apply Nat.leb_le. lia.
Qed.

Lemma endswith_split (s suf : string) :
  endswith s suf = true ->
  s = String.append (drop_last (String.length suf) s) suf.
Proof.
  unfold endswith, drop_last. intros H.
  apply andb_prop in H as [Hle Heq].
  apply Nat.leb_le in Hle. apply String.eqb_eq in Heq.
  pose proof (substring_split s (String.length s - String.length suf)
                ltac:(lia)) as Hs.
  replace (String.length s - (String.length s - String.length suf))
    with (String.length suf) in Hs by lia.
  rewrite Heq in Hs. symmetry. exact Hs.
Qed.

Lemma drop_last_append (b suf : string) :
  drop_last (String.length suf) (String.append b suf) = b.
Proof.
  unfold drop_last. rewrite length_append.
  replace (String.length b + String.length suf - String.length suf)
    with (String.length b) by lia.
  apply substring_append_prefix.
Qed.

(** A suffix no longer than the last part is looked for in the last part
    alone. *)
Lemma endswith_append_short (b x suf : string) :
  String.length suf <= String.length x ->
  endswith (String.append b x) suf = endswith x suf.
Proof.
  intros Hle. unfold endswith. rewrite length_append.
  replace (String.length b + String.length x - String.length suf)
    with (String.length b + (String.length x - String.length suf)) by lia.
  rewrite substring_append_skip.
  replace (String.length suf <=? String.length b + String.length x)%nat
    with true by (symmetry; apply Nat.leb_le; lia).
  replace (String.length suf <=? String.length x)%nat
    with true by (symmetry; apply Nat.leb_le; lia).
  reflexivity.
Qed.

Lemma endswith_cons (c : ascii) (s suf : string) :
  String.length suf <= String.length s ->
  endswith (String c s) suf = endswith s suf.
Proof.
  intros Hle.
  apply (endswith_append_short (String c EmptyString) s suf Hle).
Qed.

(** A longer suffix that does not itself end with the last part is never
    found. *)
Lemma endswith_append_mismatch (b x suf : string) :
  String.length x <= String.length suf ->
  endswith suf x = false ->
  endswith (String.append b x) suf = false.
Proof.
  intros Hlong Hmis. induction b as [|c b IH].
  - rewrite append_empty. unfold endswith.
    destruct (String.length suf <=? String.length x)%nat eqn:Hle;
      [|reflexivity].
    cbn [andb]. apply Nat.leb_le in Hle.
    destruct (String.eqb_spec
                (String.substring (String.length x - String.length suf)
                   (String.length suf) x) suf) as [Heq|]; [|reflexivity].
    exfalso.
    assert (Hx : endswith x suf = true).
    { unfold endswith. rewrite Heq, String.eqb_refl, andb_true_r.
      apply Nat.leb_le, Hle. }
    apply endswith_split in Hx.
    assert (Hlen : String.length x = String.length suf) by lia.
    unfold drop_last in Hx. rewrite Hlen, Nat.sub_diag in Hx.
    cbn in Hx.
    assert (Hx' : x = suf).
    { rewrite Hx. destruct x; reflexivity. }
    subst x. unfold endswith in Hmis.
    rewrite Nat.leb_refl, Nat.sub_diag, substring_all, String.eqb_refl
      in Hmis. discriminate.
  - rewrite append_cons.
    destruct (le_lt_dec (String.length suf)
                (String.length (String.append b x))) as [Hle|Hgt].
    + rewrite endswith_cons by exact Hle. exact IH.
    + unfold endswith. cbn [String.length].
      destruct (String.length suf
                <=? S (String.length (String.append b x)))%nat eqn:Hle;
        [|reflexivity].
      apply Nat.leb_le in Hle.
      assert (Hlen : String.length suf
                     = S (String.length (String.append b x))) by lia.
      rewrite Hlen, Nat.sub_diag. cbn [andb].
      change (S (String.length (String.append b x)))
        with (String.length (String c (String.append b x))).
      rewrite substring_all.
      destruct (String.eqb_spec (String c (String.append b x)) suf)
        as [Heq|]; [|reflexivity].
      exfalso. rewrite <- Heq in Hmis.
      change (String c (String.append b x))
        with (String.append (String c b) x) in Hmis.
      rewrite endswith_append in Hmis. discriminate.
Qed.

End SuffixFacts.

(** X1. [_get_base_field_name] undoes the addition of each of the four
    suffixes to any field name (also a name that itself ends with a
    suffix), and in general removes at most one suffix: the key is its base
    field followed by nothing or by one of the four suffixes. *)
Theorem base_field_name_suffix (b key : string) :
  _get_base_field_name (String.append b "_from") = b
  /\ _get_base_field_name (String.append b "_to") = b
  /\ _get_base_field_name (String.append b "_in") = b
  /\ _get_base_field_name (String.append b "_nin") = b
  /\ (exists suf, In suf [""; "_from"; "_to"; "_in"; "_nin"]
                  /\ key = String.append (_get_base_field_name key) suf)
  /\ (plain_key key = true -> _get_base_field_name key = key).
Proof.
  unfold _get_base_field_name.
  split; [|split; [|split; [|split; [|split]]]].
  - rewrite endswith_append. apply (drop_last_append b "_from").
  - rewrite (endswith_append_mismatch b "_to" "_from")
      by (cbn; solve [lia | reflexivity]).
    rewrite endswith_append. apply (drop_last_append b "_to").
  - rewrite (endswith_append_mismatch b "_in" "_from")
      by (cbn; solve [lia | reflexivity]).
    rewrite (endswith_append_short b "_in" "_to") by (cbn; lia).
    replace (endswith "_in" "_to") with false by reflexivity.
    rewrite endswith_append. apply (drop_last_append b "_in").
  - rewrite (endswith_append_mismatch b "_nin" "_from")
      by (cbn; solve [lia | reflexivity]).
    rewrite (endswith_append_short b "_nin" "_to") by (cbn; lia).
    replace (endswith "_nin" "_to") with false by reflexivity.
    rewrite (endswith_append_short b "_nin" "_in") by (cbn; lia).
    replace (endswith "_nin" "_in") with false by reflexivity.
    rewrite endswith_append. apply (drop_last_append b "_nin").
  - destruct (endswith key "_from") eqn:H1.
    { exists "_from". split; [cbn; tauto|].
      apply (endswith_split key "_from" H1). }
    destruct (endswith key "_to") eqn:H2.
    { exists "_to". split; [cbn; tauto|].
      apply (endswith_split key "_to" H2). }
    destruct (endswith key "_in") eqn:H3.
    { exists "_in". split; [cbn; tauto|].
      apply (endswith_split key "_in" H3). }
    destruct (endswith key "_nin") eqn:H4.
    { exists "_nin". split; [cbn; tauto|].
      apply (endswith_split key "_nin" H4). }
    exists "". split; [cbn; tauto|].
    clear. induction key as [|c key IH]; [reflexivity|].
    rewrite append_cons, <- IH. reflexivity.
  - unfold plain_key. intros H. apply negb_true_iff in H.
    apply orb_false_elim in H as [H H4].
    apply orb_false_elim in H as [H H3].
    apply orb_false_elim in H as [H1 H2].
    now rewrite H1, H2, H3, H4.
Qed.

(* ===================================================================== *)
(** * Further properties: the compiled predicate *)
(* ===================================================================== *)

Section DispatchFacts.

Variable loads : string -> option pyval.

(** What an entry that passes the field checks appends, by its suffix. *)
Lemma compile_entry_filterable (k : kind) (key : string) (value : pyval) :
  is_none value = false ->
  field_filterable k (_get_base_field_name key) = true ->
  compile_entry loads k key value
  = if endswith key "_from" || endswith key "_to" then
      if _is_valid_range_value value then
        if endswith key "_from"
        then Ok [CGte (_get_base_field_name key) value]
        else if endswith key "_to"
             then Ok [CLte (_get_base_field_name key) value]
             else Ok []
      else Ok []
    else if endswith key "_in" || endswith key "_nin" then
      bind (_parse_array_parameter loads value)
        (fun value_list =>
           Ok [if endswith key "_in"
               then CIn (_get_base_field_name key) value_list
               else CNin (_get_base_field_name key) value_list])
    else Ok [CEq key value].
Proof.
  intros Hv Hf. unfold compile_entry. rewrite Hv.
  unfold field_filterable in Hf.
  apply andb_prop in Hf as [Hf Hattr]. apply andb_prop in Hf as [Hin Hex].
  apply negb_true_iff in Hin. apply negb_true_iff in Hex.
  rewrite Hin, Hex, Hattr. reflexivity.
Qed.

(** An entry appends at most one condition, and only for a value that is
    not [None] on a base field that passes the field checks. *)
Lemma compile_entry_sound (k : kind) (key : string) (value : pyval)
  (cs : list condition) :
  compile_entry loads k key value = Ok cs ->
  List.length cs <= 1
  /\ forall c, In c cs ->
       is_none value = false
       /\ condition_field c = _get_base_field_name key
       /\ field_filterable k (_get_base_field_name key) = true.
Proof.
  unfold compile_entry, field_filterable.
  destruct (is_none value); [intros [= <-]; cbn; split; [lia | tauto]|].
  destruct (truthy_names (search_field_set k)
            && negb (in_names (_get_base_field_name key)
                       (search_field_set k)));
    [intros [= <-]; cbn; split; [lia | tauto]|].
  destruct (truthy_names (search_exclude_set k)
            && in_names (_get_base_field_name key) (search_exclude_set k));
    [intros [= <-]; cbn; split; [lia | tauto]|].
  destruct (hasattr k (_get_base_field_name key));
    [|intros [= <-]; cbn; split; [lia | tauto]].
  cbn [negb andb].
  destruct (endswith key "_from") eqn:H1; cbn [orb].
  { destruct (_is_valid_range_value value); intros [= <-]; cbn;
      (split; [lia|]); [intros c [<-|[]]; auto | tauto]. }
  destruct (endswith key "_to") eqn:H2.
  { destruct (_is_valid_range_value value); intros [= <-]; cbn;
      (split; [lia|]); [intros c [<-|[]]; auto | tauto]. }
  destruct (endswith key "_in") eqn:H3; cbn [orb].
  { destruct (_parse_array_parameter loads value); cbn [bind];
      [|discriminate].
    intros [= <-]. cbn. split; [lia|]. intros c [<-|[]]; auto. }
  destruct (endswith key "_nin") eqn:H4.
  { destruct (_parse_array_parameter loads value); cbn [bind];
      [|discriminate].
    intros [= <-]. cbn. split; [lia|]. intros c [<-|[]]; auto. }
  intros [= <-]. cbn. split; [lia|]. intros c [<-|[]]. cbn.
  unfold _get_base_field_name. rewrite H1, H2, H3, H4. auto.
Qed.

Lemma compile_kwargs_sound (k : kind) (kwargs : list (string * pyval))
  (acc q : list condition) :
  compile_kwargs loads k kwargs acc = Ok q ->
  exists rest,
    q = acc ++ rest
    /\ List.length rest <= List.length kwargs
    /\ forall c, In c rest ->
         exists key value,
           In (key, value) kwargs
           /\ is_none value = false
           /\ condition_field c = _get_base_field_name key
           /\ field_filterable k (_get_base_field_name key) = true.
Proof.
  revert acc. induction kwargs as [|[key value] kwargs IH]; intros acc H.
  - cbn in H. injection H as <-. exists []. rewrite app_nil_r.
    split; [reflexivity|]. split; [cbn; lia|]. intros c [].
  - cbn [compile_kwargs] in H.
    destruct (compile_entry loads k key value) as [cs|e] eqn:He;
      cbn [bind] in H; [|discriminate].
    destruct (IH _ H) as (rest & -> & Hlen & Hrest).
    destruct (compile_entry_sound k key value cs He) as [Hcs Hc].
    exists (cs ++ rest). rewrite app_assoc. split; [reflexivity|].
    split; [rewrite length_app; cbn [List.length]; lia|].
    intros c Hin. apply in_app_or in Hin as [Hin|Hin].
    + exists key, value. split; [left; reflexivity | apply Hc, Hin].
    + destruct (Hrest c Hin) as (key' & value' & Hk & Hr).
      exists key', value'. split; [right; exact Hk | exact Hr].
Qed.

End DispatchFacts.

(** X2. On a base field that passes the field checks and for a value that
    is not [None], the suffix of the key decides the operator on the
    stripped name: [_from] gives [$gte] and [_to] gives [$lte] when the
    value is of a range type (and nothing otherwise), [_in] gives [$in] and
    [_nin] gives [$nin] (never [$in]) on the parsed value list, and a key
    without suffix gives equality. *)
Theorem suffix_dispatch (loads : string -> option pyval) (k : kind)
  (b : string) (v : pyval) :
  is_none v = false ->
  field_filterable k b = true ->
  compile_entry loads k (String.append b "_from") v
  = (if _is_valid_range_value v then Ok [CGte b v] else Ok [])
  /\ compile_entry loads k (String.append b "_to") v
     = (if _is_valid_range_value v then Ok [CLte b v] else Ok [])
  /\ compile_entry loads k (String.append b "_in") v
     = bind (_parse_array_parameter loads v) (fun vs => Ok [CIn b vs])
  /\ compile_entry loads k (String.append b "_nin") v
     = bind (_parse_array_parameter loads v) (fun vs => Ok [CNin b vs])
  /\ (plain_key b = true -> compile_entry loads k b v = Ok [CEq b v]).
Proof.
  intros Hv Hf.
  destruct (base_field_name_suffix b b) as (B1 & B2 & B3 & B4 & _ & B5).
  assert (E1 : endswith (String.append b "_to") "_from" = false)
    by (apply endswith_append_mismatch; cbn; solve [lia | reflexivity]).
  assert (E2 : endswith (String.append b "_in") "_from" = false)
    by (apply endswith_append_mismatch; cbn; solve [lia | reflexivity]).
  assert (E3 : endswith (String.append b "_nin") "_from" = false)
    by (apply endswith_append_mismatch; cbn; solve [lia | reflexivity]).
  assert (E4 : endswith (String.append b "_in") "_to" = false)
    by (rewrite endswith_append_short by (cbn; lia); reflexivity).
  assert (E5 : endswith (String.append b "_nin") "_to" = false)
    by (rewrite endswith_append_short by (cbn; lia); reflexivity).
  assert (E6 : endswith (String.append b "_nin") "_in" = false)
    by (rewrite endswith_append_short by (cbn; lia); reflexivity).
  split; [|split; [|split; [|split]]].
  - rewrite compile_entry_filterable by (rewrite ?B1; assumption).
    rewrite B1, endswith_append. cbn [orb].
    destruct (_is_valid_range_value v); reflexivity.
  - rewrite compile_entry_filterable by (rewrite ?B2; assumption).
    rewrite B2, E1, endswith_append. cbn [orb].
    destruct (_is_valid_range_value v); reflexivity.
  - rewrite compile_entry_filterable by (rewrite ?B3; assumption).
    rewrite B3, E2, E4, endswith_append. cbn [orb]. reflexivity.
  - rewrite compile_entry_filterable by (rewrite ?B4; assumption).
    rewrite B4, E3, E5, E6, endswith_append. cbn [orb]. reflexivity.
  - intros Hp. pose proof (B5 Hp) as Hb.
    rewrite compile_entry_filterable by (rewrite ?Hb; assumption).
    unfold plain_key in Hp. apply negb_true_iff in Hp.
    apply orb_false_elim in Hp as [Hp H4].
    apply orb_false_elim in Hp as [Hp H3].
    rewrite Hp, H3, H4. reflexivity.
Qed.

Lemma suffix_dispatch_witness :
  is_none (VStr "1, 2") = false
  /\ field_filterable Order "price" = true
  /\ compile_entry loads_none Order "price_nin" (VStr "1, 2")
     = Ok [CNin "price" [VStr "1"; VStr "2"]].
Proof.
  split; [reflexivity|]. split; [reflexivity|].
  exact (proj1 (proj2 (proj2 (proj2
           (suffix_dispatch loads_none Order "price" (VStr "1, 2")
              eq_refl eq_refl))))).
Defined.

(** X3. A predicate [get_queryset] compiles is its standard filters (one to
    four conditions: soft-delete, then owner, tenant and identifier when
    they apply) followed by at most one condition per keyword argument, in
    the order of the arguments; each of these is on the base field of a
    keyword whose value is not [None] and whose base field passes the
    field checks. *)
Theorem compiled_predicate_shape (loads : string -> option pyval)
  (k : kind) (a : query_args) (q : list condition) :
  get_queryset loads k a = Ok q ->
  exists rest,
    q = standard_filters k a ++ rest
    /\ List.length rest <= List.length (q_kwargs a)
    /\ (forall c, In c rest ->
          exists key value,
            In (key, value) (q_kwargs a)
            /\ is_none value = false
            /\ condition_field c = _get_base_field_name key
            /\ field_filterable k (_get_base_field_name key) = true)
    /\ 1 <= List.length (standard_filters k a) <= 4
    /\ (forall c, In c (standard_filters k a) ->
          In (condition_field c)
            ["is_deleted"; "user_id"; "business_name"; "uid"]).
Proof.
  intros H. unfold get_queryset in H.
  destruct (compile_kwargs_sound loads k _ _ _ H) as (rest & -> & Hl & Hr).
  exists rest. split; [reflexivity|]. split; [exact Hl|].
  split; [exact Hr|].
  unfold standard_filters.
  destruct (hasattr k "user_id" && py_truthy (q_user_id a));
    destruct (hasattr k "business_name");
    destruct (py_truthy (q_uid a)); cbn; (split; [lia|]);
    intros c Hc; repeat (destruct Hc as [<-|Hc]; [cbn; tauto|]);
    destruct Hc.
Qed.

Lemma compiled_predicate_shape_witness :
  get_queryset loads_none Order
    (with_kwargs default_args
       [("price_from", VInt 1); ("colour", VStr "red"); ("price", VNone)])
  = Ok [CEq "is_deleted" (VBool false); CGte "price" (VInt 1)]
  /\ exists rest,
       [CEq "is_deleted" (VBool false); CGte "price" (VInt 1)]
       = standard_filters Order
           (with_kwargs default_args
              [("price_from", VInt 1); ("colour", VStr "red");
               ("price", VNone)]) ++ rest
       /\ List.length rest <= 3.
Proof.
  split; [reflexivity|].
  destruct (compiled_predicate_shape loads_none Order
              (with_kwargs default_args
                 [("price_from", VInt 1); ("colour", VStr "red");
                  ("price", VNone)])
              [CEq "is_deleted" (VBool false); CGte "price" (VInt 1)]
              eq_refl) as (rest & Hq & Hl & _).
  exists rest. split; [exact Hq | exact Hl].
Defined.

(* ===================================================================== *)
(** * Further properties: listing and counting *)
(* ===================================================================== *)

Section ListingFacts.

Variable loads : string -> option pyval.

Lemma store_leb_datetime_l (t : Z) (v : pyval) :
  store_leb (VDatetime t) v = true ->
  exists u, v = VDatetime u /\ (t <= u)%Z.
Proof.
  destruct v; cbn; try discriminate.
  intros H. apply Z.leb_le in H. eauto.
Qed.

Lemma store_leb_datetime_r (t : Z) (v : pyval) :
  store_leb v (VDatetime t) = true ->
  exists u, v = VDatetime u /\ (u <= t)%Z.
Proof.
  destruct v as [| | |f| | | | | | | |]; cbn; try discriminate.
  - destruct f; cbn; try discriminate;
      destruct (0 <=? e)%Z; discriminate.
  - destruct (0 <=? e)%Z; discriminate.
  - intros H. apply Z.leb_le in H. eauto.
Qed.

(** The two creation-time keywords of [get_query] come first among the
    caller's conditions. *)
Lemma get_query_created_at (k : kind) (a : query_args)
  (q : list condition) (t_from t_to : Z) :
  field_filterable k "created_at" = true ->
  kwargs_get (q_kwargs a) "created_at_from" = VDatetime t_from ->
  kwargs_get (q_kwargs a) "created_at_to" = VDatetime t_to ->
  get_query loads k a = Ok q ->
  exists rest,
    q = standard_filters k a
        ++ [CGte "created_at" (VDatetime t_from);
            CLte "created_at" (VDatetime t_to)] ++ rest.
Proof.
  intros Hf Hfrom Hto Hq. unfold get_query, get_queryset in Hq.
  rewrite Hfrom, Hto in Hq. cbn [q_kwargs compile_kwargs] in Hq.
  destruct (suffix_dispatch loads k "created_at" (VDatetime t_from)
              eq_refl Hf) as (E1 & _).
  destruct (suffix_dispatch loads k "created_at" (VDatetime t_to)
              eq_refl Hf) as (_ & E2 & _).
  change (String.append "created_at" "_from") with "created_at_from" in E1.
  change (String.append "created_at" "_to") with "created_at_to" in E2.
  rewrite E1 in Hq. cbn [_is_valid_range_value bind] in Hq.
  rewrite E2 in Hq. cbn [_is_valid_range_value bind] in Hq.
  apply compile_kwargs_extends in Hq as [rest ->].
  exists rest. unfold standard_filters; cbn [q_user_id q_business_name
    q_is_deleted q_uid]. now rewrite <- !app_assoc.
Qed.

Lemma insert_desc_length (e : entity) (l : list entity) :
  List.length (insert_desc e l) = S (List.length l).
Proof.
  induction l as [|x l IH]; cbn [insert_desc]; [reflexivity|].
  destruct (created_at_key x <? created_at_key e)%Z; cbn [List.length];
    [reflexivity | now rewrite IH].
Qed.

Lemma sort_desc_length (l : list entity) :
  List.length (sort_desc l) = List.length l.
Proof.
  unfold sort_desc. induction l as [|x l IH]; cbn [fold_right List.length];
    [reflexivity|].
  now rewrite insert_desc_length, IH.
Qed.

Lemma insert_desc_newest_first (e : entity) (l : list entity) :
  newest_first l -> newest_first (insert_desc e l).
Proof.
  induction l as [|x l IH]; cbn [insert_desc newest_first].
  - intros _. split; [intros y [] | exact I].
  - intros [Hx Hl].
    destruct (created_at_key x <? created_at_key e)%Z eqn:Hlt;
      cbn [newest_first].
    + apply Z.ltb_lt in Hlt. split; [|split; assumption].
      intros y [<-|Hy]; [lia|]. specialize (Hx y Hy). lia.
    + apply Z.ltb_ge in Hlt. split; [|apply IH, Hl].
      intros y Hy. apply insert_desc_In in Hy as [->|Hy];
        [exact Hlt | apply Hx, Hy].
Qed.

Lemma sort_desc_newest_first (l : list entity) : newest_first (sort_desc l).
Proof.
  unfold sort_desc. induction l as [|x l IH]; cbn [fold_right].
  - exact I.
  - apply insert_desc_newest_first, IH.
Qed.

Lemma newest_first_skipn (n : nat) (l : list entity) :
  newest_first l -> newest_first (skipn n l).
Proof.
  revert l. induction n as [|n IH]; intros [|x l]; cbn [skipn newest_first];
    try tauto.
  intros [_ Hl]. apply IH, Hl.
Qed.

Lemma newest_first_firstn (n : nat) (l : list entity) :
  newest_first l -> newest_first (firstn n l).
Proof.
  revert l. induction n as [|n IH]; intros [|x l];
    cbn [firstn newest_first]; try tauto.
  intros [Hx Hl]. split; [|apply IH, Hl].
  intros y Hy. apply Hx. eapply firstn_In_list, Hy.
Qed.

Lemma to_list_window_length (s : store) (q : list condition)
  (offset limit : Z) :
  (0 <= offset)%Z -> (0 <= limit)%Z ->
  Z.of_nat (List.length (to_list_window s q offset limit))
  = Z.min limit (Z.max 0 (count s q - offset)).
Proof.
  intros Ho Hl. unfold to_list_window, count.
  rewrite List.length_firstn, List.length_skipn, sort_desc_length.
  unfold to_list. rewrite List.length_map. lia.
Qed.

End ListingFacts.

(** X4. When [created_at] passes the field checks of the kind, a list
    request with [created_at_from] and [created_at_to] returns only
    entities whose [created_at] is a time inside the closed interval; the
    same holds for every entity the compiled predicate matches, so also for
    what [total_count] counts. *)
Theorem created_at_window (loads : string -> option pyval) (st : Settings)
  (k : kind) (a : query_args) (s : store) (t_from t_to : Z) :
  field_filterable k "created_at" = true ->
  kwargs_get (q_kwargs a) "created_at_from" = VDatetime t_from ->
  kwargs_get (q_kwargs a) "created_at_to" = VDatetime t_to ->
  (forall q e, get_query loads k a = Ok q -> In e (to_list s q) ->
     exists t, field_value (ent_fields e) "created_at" = VDatetime t
               /\ (t_from <= t <= t_to)%Z)
  /\ (forall offset limit items e,
        list_items loads st k a offset limit s = Ok items -> In e items ->
        exists t, field_value (ent_fields e) "created_at" = VDatetime t
                  /\ (t_from <= t <= t_to)%Z).
Proof.
  intros Hf Hfrom Hto.
  assert (Hmain : forall q e, get_query loads k a = Ok q ->
            In e (to_list s q) ->
            exists t, field_value (ent_fields e) "created_at" = VDatetime t
                      /\ (t_from <= t <= t_to)%Z).
  { intros q e Hq He.
    destruct (get_query_created_at loads k a q t_from t_to Hf Hfrom Hto Hq)
      as [rest ->].
    apply to_list_In in He as (p & _ & Hm & ->). cbn [to_entity ent_fields].
    unfold matches in Hm. rewrite forallb_app in Hm.
    apply andb_prop in Hm as [_ Hm]. cbn [app forallb] in Hm.
    apply andb_prop in Hm as [H1 Hm]. apply andb_prop in Hm as [H2 _].
    cbn [matches_condition] in H1, H2.
    apply store_leb_datetime_l in H1 as (u & Hu & Hle1).
    rewrite Hu in H2. cbn in H2. apply Z.leb_le in H2.
    exists u. split; [exact Hu | lia]. }
  split; [exact Hmain|].
  intros offset limit items e Hl He. unfold list_items in Hl.
  destruct (adjust_pagination st offset limit) as [o l].
  destruct (get_query loads k a) as [q|err] eqn:Hq; cbn [bind] in Hl;
    [|discriminate].
  injection Hl as <-. apply to_list_window_In in He.
  eapply Hmain; [reflexivity | exact He].
Qed.

Lemma created_at_window_witness :
  field_filterable Note "created_at" = true
  /\ kwargs_get (q_kwargs (window_args 11 12)) "created_at_from"
     = VDatetime 11
  /\ kwargs_get (q_kwargs (window_args 11 12)) "created_at_to"
     = VDatetime 12
  /\ (forall items e,
        list_items loads_none core_Settings Note (window_args 11 12)
          (ArgInt 0) (ArgInt 10) sample_store = Ok items ->
        In e items ->
        exists t, field_value (ent_fields e) "created_at" = VDatetime t
                  /\ (11 <= t <= 12)%Z).
Proof.
  split; [reflexivity|]. split; [reflexivity|]. split; [reflexivity|].
  exact (proj2 (created_at_window loads_none core_Settings Note
                  (window_args 11 12) sample_store 11 12
                  eq_refl eq_refl eq_refl) (ArgInt 0) (ArgInt 10)).
Defined.

(** X5. [list_total_combined] reads the collection twice: the page is what
    [list_items] returns on the first reading and the total what
    [total_count] returns on the second, for one predicate. The total is
    not negative; the page is ordered by [created_at], newest first, and
    holds no more entities than the adjusted limit, so never more than
    [page_max_limit] (when that is at least 1). When the two readings saw
    the same documents, the page holds exactly
    [min(limit, max(0, total - offset))] entities for the adjusted offset
    and limit. *)
Theorem list_total_combined_page (loads : string -> option pyval)
  (st : Settings) (k : kind) (a : query_args) (offset limit : page_arg)
  (s s' : store) (items : list entity) (total : Z) :
  list_total_combined loads st k a offset limit s s' = Ok (items, total) ->
  list_items loads st k a offset limit s = Ok items
  /\ total_count loads k a s' = Ok total
  /\ (0 <= total)%Z
  /\ (Z.of_nat (List.length items)
      <= snd (adjust_pagination st offset limit))%Z
  /\ ((1 <= page_max_limit st)%Z ->
      (Z.of_nat (List.length items) <= page_max_limit st)%Z)
  /\ newest_first items
  /\ (docs s' = docs s ->
      Z.of_nat (List.length items)
      = Z.min (snd (adjust_pagination st offset limit))
          (Z.max 0 (total - fst (adjust_pagination st offset limit)))).
Proof.
  intros H. unfold list_total_combined in H.
  destruct (list_items loads st k a offset limit s) as [items'|e] eqn:Hl;
    cbn [bind] in H; [|discriminate].
  destruct (total_count loads k a s') as [total'|e] eqn:Ht;
    cbn [bind] in H; [|discriminate].
  injection H as <- <-.
  split; [reflexivity|]. split; [reflexivity|].
  unfold list_items in Hl. unfold total_count in Ht.
  pose proof (adjust_pagination_bounds st offset limit) as (Ho & Hl1 & Hmax).
  destruct (adjust_pagination st offset limit) as [o l]. cbn [fst snd] in *.
  destruct (get_query loads k a) as [q|e]; cbn [bind] in Hl, Ht;
    [|discriminate].
  injection Hl as <-. injection Ht as <-.
  pose proof (to_list_window_length s q o l Ho ltac:(lia)) as Hlen.
  split; [unfold count; lia|].
  split; [lia|].
  split; [intros Hp; specialize (Hmax Hp); lia|].
  split.
  - unfold to_list_window.
    apply newest_first_firstn, newest_first_skipn, sort_desc_newest_first.
  - intros Hdocs. rewrite Hlen. unfold count. rewrite Hdocs. reflexivity.
Qed.

Lemma list_total_combined_page_witness :
  list_total_combined loads_none core_Settings Note default_args
    (ArgInt 1) (ArgInt 5) sample_store sample_store
  = Ok ([ {| ent_id := Some 1; ent_fields := sample_doc 8 11 11 false 4 |};
          {| ent_id := Some 0; ent_fields := sample_doc 7 10 10 false 3 |} ],
        3%Z)
  /\ total_count loads_none Note default_args sample_store = Ok 3%Z.
Proof.
  split; [vm_compute; reflexivity|].
  exact (proj1 (proj2
           (list_total_combined_page loads_none core_Settings Note
              default_args (ArgInt 1) (ArgInt 5) sample_store sample_store
              _ 3 ltac:(vm_compute; reflexivity)))).
Defined.


(* ===================================================================== *)
(** * Further properties: update *)
(* ===================================================================== *)

Section UpdateFacts.










End UpdateFacts.








(* ===================================================================== *)
(** * Further properties: creation *)
(* ===================================================================== *)

Section CreateFacts.

(** The constructor reads the clock and draws identifiers, and touches
    nothing else. *)
Lemma build_fields_world (fs : list (string * field_default))
  (data : list (string * pyval)) (acc : fields) (w : world) :
  let w' := snd (build_fields fs data acc w) in
  w_store w' = w_store w /\ clock w' = clock w /\ uuid4 w' = uuid4 w
  /\ ticks w <= ticks w' /\ drawn w <= drawn w'.
Proof.
  revert acc w. induction fs as [|[n d] fs IH]; intros acc w;
    cbn [build_fields].
  - cbn. repeat split; lia.
  - destruct (dict_find data n); [apply IH|].
    destruct d; [cbn; repeat split; lia | apply IH | |].
    + cbn [now]. specialize (IH (<[n := VDatetime (clock w (ticks w))]> acc)
        {| w_store := w_store w; clock := clock w; ticks := S (ticks w);
           uuid4 := uuid4 w; drawn := drawn w |}).
      cbn in IH |- *. destruct IH as (? & ? & ? & ? & ?).
      repeat split; try assumption; lia.
    + cbn [new_uuid].
      specialize (IH (<[n := VUuid (uuid4 w (drawn w))]> acc)
        {| w_store := w_store w; clock := clock w; ticks := ticks w;
           uuid4 := uuid4 w; drawn := S (drawn w) |}).
      cbn in IH |- *. destruct IH as (? & ? & ? & ? & ?).
      repeat split; try assumption; lia.
Qed.

(** A field the constructor has passed keeps its value. *)
Lemma build_fields_passed (fs : list (string * field_default))
  (data : list (string * pyval)) (acc r : fields) (w w' : world)
  (name : string) :
  ~ In name (map fst fs) ->
  build_fields fs data acc w = (Ok r, w') ->
  r !! name = acc !! name.
Proof.
  revert acc w. induction fs as [|[n d] fs IH]; intros acc w Hnot Hb.
  - cbn in Hb. injection Hb as <- <-. reflexivity.
  - cbn [build_fields] in Hb. cbn [map fst] in Hnot.
    assert (Hne : n <> name) by (intros ->; apply Hnot; left; reflexivity).
    assert (Hnot' : ~ In name (map fst fs))
      by (intros H; apply Hnot; right; exact H).
    destruct (dict_find data n).
    + rewrite (IH _ _ Hnot' Hb). now apply lookup_insert_ne.
    + destruct d; [discriminate | | |].
      * rewrite (IH _ _ Hnot' Hb). now apply lookup_insert_ne.
      * cbn [now] in Hb. rewrite (IH _ _ Hnot' Hb).
        now apply lookup_insert_ne.
      * cbn [new_uuid] in Hb. rewrite (IH _ _ Hnot' Hb).
        now apply lookup_insert_ne.
Qed.

(** The value of a field the payload leaves out, by its default. *)
Lemma build_fields_default (fs : list (string * field_default))
  (data : list (string * pyval)) (acc r : fields) (w w' : world)
  (name : string) (d : field_default) :
  List.NoDup (map fst fs) ->
  In (name, d) fs ->
  dict_find data name = None ->
  build_fields fs data acc w = (Ok r, w') ->
  match d with
  | Required => False
  | DefaultValue v => r !! name = Some v
  | DefaultNow =>
      exists n, ticks w <= n < ticks w'
                /\ r !! name = Some (VDatetime (clock w n))
  | DefaultUuid4 =>
      exists m, drawn w <= m < drawn w'
                /\ r !! name = Some (VUuid (uuid4 w m))
  end.
Proof.
  revert acc w. induction fs as [|[n0 d0] fs IH];
    intros acc w Hnd Hin Hd Hb; [destruct Hin|].
  cbn [map fst] in Hnd. apply List.NoDup_cons_iff in Hnd as [Hnot Hnd].
  cbn [build_fields] in Hb.
  destruct Hin as [Heq|Hin].
  - injection Heq as -> ->. rewrite Hd in Hb.
    destruct d.
    + discriminate.
    + rewrite (build_fields_passed _ _ _ _ _ _ _ Hnot Hb).
      apply lookup_insert_eq.
    + cbn [now] in Hb.
      pose proof (build_fields_world fs data
                    (<[name := VDatetime (clock w (ticks w))]> acc)
                    {| w_store := w_store w; clock := clock w;
                       ticks := S (ticks w); uuid4 := uuid4 w;
                       drawn := drawn w |}) as Hw.
      rewrite Hb in Hw. cbn in Hw. destruct Hw as (_ & _ & _ & Ht & _).
      exists (ticks w). split; [lia|].
      rewrite (build_fields_passed _ _ _ _ _ _ _ Hnot Hb).
      apply lookup_insert_eq.
    + cbn [new_uuid] in Hb.
      pose proof (build_fields_world fs data
                    (<[name := VUuid (uuid4 w (drawn w))]> acc)
                    {| w_store := w_store w; clock := clock w;
                       ticks := ticks w; uuid4 := uuid4 w;
                       drawn := S (drawn w) |}) as Hw.
      rewrite Hb in Hw. cbn in Hw. destruct Hw as (_ & _ & _ & _ & Hdr).
      exists (drawn w). split; [lia|].
      rewrite (build_fields_passed _ _ _ _ _ _ _ Hnot Hb).
      apply lookup_insert_eq.
  - assert (Hstep : forall acc1 w1,
              clock w1 = clock w -> uuid4 w1 = uuid4 w ->
              ticks w <= ticks w1 -> drawn w <= drawn w1 ->
              build_fields fs data acc1 w1 = (Ok r, w') ->
              match d with
              | Required => False
              | DefaultValue v => r !! name = Some v
              | DefaultNow =>
                  exists n, ticks w <= n < ticks w'
                            /\ r !! name = Some (VDatetime (clock w n))
              | DefaultUuid4 =>
                  exists m, drawn w <= m < drawn w'
                            /\ r !! name = Some (VUuid (uuid4 w m))
              end).
    { intros acc1 w1 Hc Hu Ht Hdr Hb1.
      pose proof (IH acc1 w1 Hnd Hin Hd Hb1) as H.
      destruct d; try exact H.
      - destruct H as (n & Hn & Hr). exists n. rewrite <- Hc.
        split; [lia | exact Hr].
      - destruct H as (m & Hm & Hr). exists m. rewrite <- Hu.
        split; [lia | exact Hr]. }
    destruct (dict_find data n0).
    + eapply Hstep; [reflexivity | reflexivity | lia | lia | exact Hb].
    + destruct d0; [discriminate | | |].
      * eapply Hstep; [reflexivity | reflexivity | lia | lia | exact Hb].
      * cbn [now] in Hb.
        eapply Hstep; [| | | | exact Hb]; cbn; try reflexivity; lia.
      * cbn [new_uuid] in Hb.
        eapply Hstep; [| | | | exact Hb]; cbn; try reflexivity; lia.
Qed.

(** A required field that the payload leaves out makes the constructor
    fail. *)
Lemma build_fields_required (fs : list (string * field_default))
  (data : list (string * pyval)) (acc : fields) (w : world)
  (name : string) :
  In (name, Required) fs ->
  dict_find data name = None ->
  fst (build_fields fs data acc w)
  = Raise (ValidationError "Field required").
Proof.
  revert acc w. induction fs as [|[n d] fs IH]; intros acc w Hin Hd;
    [destruct Hin|].
  cbn [build_fields].
  destruct Hin as [Heq|Hin].
  - injection Heq as -> ->. rewrite Hd. reflexivity.
  - destruct (dict_find data n); [apply IH; assumption|].
    destruct d; [reflexivity | | |].
    + apply IH; assumption.
    + cbn [now]. apply IH; assumption.
    + cbn [new_uuid]. apply IH; assumption.
Qed.

End CreateFacts.

(** X10. When the payload leaves out a field with a default, the created
    entity has the default: a constant default as it is, a
    [default_factory=datetime.now] field a reading of the clock taken
    during the call, a [default_factory=uuid.uuid4] field an identifier
    drawn during the call (so one no earlier draw returned). The
    [updated_at] of the created entity is a later reading than that of any
    such time field; with a clock that does not go back, a defaulted
    [created_at] is at most [updated_at]. *)
Theorem create_item_defaults (k : kind) (data : list (string * pyval))
  (w w' : world) (item : entity) (name : string) (d : field_default) :
  List.NoDup (map fst (model_fields k)) ->
  In (name, d) (model_fields k) ->
  dict_find data name = None ->
  name <> "updated_at" ->
  create_item k data w = (Ok item, w') ->
  (exists tu, ticks w <= tu
              /\ ent_fields item !! "updated_at"
                 = Some (VDatetime (clock w tu))
              /\ match d with
                 | Required => False
                 | DefaultValue v => ent_fields item !! name = Some v
                 | DefaultNow =>
                     exists n, ticks w <= n < tu
                               /\ ent_fields item !! name
                                  = Some (VDatetime (clock w n))
                               /\ (clock_monotone w ->
                                   (clock w n <= clock w tu)%Z)
                 | DefaultUuid4 =>
                     exists m, drawn w <= m < drawn w'
                               /\ ent_fields item !! name
                                  = Some (VUuid (uuid4 w m))
                 end).
Proof.
  intros Hnd Hin Hd Hne Hc.
  rewrite (create_item_mutable k data w (create_item_Ok_mutable _ _ _ _ _ Hc))
    in Hc.
  unfold construct in Hc.
  pose proof (build_fields_world (model_fields k) data ∅ w) as Hw.
  destruct (build_fields (model_fields k) data ∅ w) as [[fs|e] w1] eqn:Hb;
    [|discriminate].
  cbn [snd] in Hw. destruct Hw as (_ & Hclock & Huuid & Hticks & Hdrawn).
  pose proof (save_fields {| ent_id := None; ent_fields := fs |} w1) as Hs.
  assert (Hdr : drawn (snd (save {| ent_id := None; ent_fields := fs |} w1))
                = drawn w1).
  { unfold save, pre_save. cbn [now].
    rewrite (surjective_pairing (upsert _ _)). reflexivity. }
  destruct (save {| ent_id := None; ent_fields := fs |} w1) as [item1 w2].
  injection Hc as <- <-. cbn [fst snd ent_fields] in Hs, Hdr.
  pose proof (build_fields_default _ _ _ _ _ _ name d Hnd Hin Hd Hb) as Hdef.
  exists (ticks w1). split; [exact Hticks|]. rewrite Hs. split.
  - rewrite lookup_insert_eq, Hclock. reflexivity.
  - rewrite lookup_insert_ne by congruence.
    destruct d; try exact Hdef.
    + destruct Hdef as (n & Hn & Hr). exists n.
      split; [exact Hn|]. split; [exact Hr|].
      intros Hmono. apply Hmono. lia.
    + destruct Hdef as (m & Hm & Hr). exists m.
      split; [lia | exact Hr].
Qed.

Lemma create_item_defaults_witness :
  List.NoDup (map fst (model_fields Note))
  /\ In ("created_at", DefaultNow) (model_fields Note)
  /\ dict_find [("price", VInt 3)] "created_at" = None
  /\ returned_field (create_item Note [("price", VInt 3)] sample_world)
       "created_at" = Some (VDatetime 50)
  /\ exists tu, 0 <= tu
       /\ returned_field (create_item Note [("price", VInt 3)] sample_world)
            "updated_at" = Some (VDatetime (clock sample_world tu)).
Proof.
  assert (Hnd : List.NoDup (map fst (model_fields Note))).
  { cbn. repeat constructor; cbn; intuition discriminate. }
  split; [exact Hnd|]. split; [cbn; tauto|]. split; [reflexivity|].
  split; [vm_compute; reflexivity|].
  destruct (create_item Note [("price", VInt 3)] sample_world)
    as [[item|e] w'] eqn:Hc; [|vm_compute in Hc; discriminate].
  destruct (create_item_defaults Note [("price", VInt 3)] sample_world w'
              item "created_at" DefaultNow Hnd
              ltac:(cbn; tauto) eq_refl ltac:(discriminate) Hc)
    as (tu & Htu & Hup & _).
  exists tu. split; [exact Htu | exact Hup].
Defined.

(** X11. When the payload leaves out a required field of the kind,
    [create_item] raises the validation error of the constructor and
    nothing is saved: the store is as before. *)
Theorem create_item_required_field (k : kind)
  (data : list (string * pyval)) (w : world) (name : string) :
  In (name, Required) (model_fields k) ->
  dict_find data name = None ->
  fst (create_item k data w) = Raise (ValidationError "Field required")
  /\ w_store (snd (create_item k data w)) = w_store w.
Proof.
  intros Hin Hd. unfold create_item, construct.
  pose proof (build_fields_required (model_fields k) data ∅ w name Hin Hd)
    as Hr.
  pose proof (build_fields_world (model_fields k) data ∅ w) as Hw.
  destruct (build_fields (model_fields k) data ∅ w) as [[fs|e] w1];
    cbn [fst snd] in *; [discriminate|].
  injection Hr as ->. split; [reflexivity | apply Hw].
Qed.

Lemma create_item_required_field_witness :
  In ("user_id", Required) (model_fields Order)
  /\ dict_find [("price", VInt 3)] "user_id" = None
  /\ fst (create_item Order [("price", VInt 3)] sample_world)
     = Raise (ValidationError "Field required").
Proof.
  split; [cbn; tauto|]. split; [reflexivity|].
  exact (proj1 (create_item_required_field Order [("price", VInt 3)]
                  sample_world "user_id" ltac:(cbn; tauto) eq_refl)).
Defined.

(* ===================================================================== *)
(** * Further properties: lookups after a write *)
(* ===================================================================== *)

Section LookupFacts.

Lemma filter_all_false {A} (f : A -> bool) (l : list A) :
  (forall x, In x l -> f x = false) -> List.filter f l = [].
Proof.
  induction l as [|x l IH]; intros H; cbn [List.filter]; [reflexivity|].
  rewrite (H x (or_introl eq_refl)). apply IH.
  intros y Hy. apply H. right. exact Hy.
Qed.

(** When every matching document is the same one and there is one, the
    first match is that document. *)
Lemma find_one_only (s : store) (q : list condition) (p : nat * fields) :
  In p (docs s) ->
  matches q (snd p) = true ->
  (forall p', In p' (docs s) -> matches q (snd p') = true -> p' = p) ->
  find_one s q = Some (to_entity p).
Proof.
  intros Hin Hm Honly. unfold find_one, to_list.
  destruct (List.filter (fun p0 => matches q (snd p0)) (docs s))
    as [|x l] eqn:Hf.
  - assert (Hp : In p (List.filter (fun p0 => matches q (snd p0)) (docs s)))
      by (apply List.filter_In; auto).
    rewrite Hf in Hp. destruct Hp.
  - cbn [map]. f_equal. f_equal.
    assert (Hx : In x (List.filter (fun p0 => matches q (snd p0)) (docs s)))
      by (rewrite Hf; left; reflexivity).
    apply List.filter_In in Hx as [Hx1 Hx2]. now apply Honly.
Qed.

Lemma save_new (fs : fields) (w : world) :
  save {| ent_id := None; ent_fields := fs |} w
  = ({| ent_id := Some (next_id (w_store w));
        ent_fields := <["updated_at" := VDatetime (clock w (ticks w))]> fs |},
     {| w_store :=
          {| docs := docs (w_store w)
                     ++ [(next_id (w_store w),
                          <["updated_at" := VDatetime (clock w (ticks w))]>
                            fs)];
             next_id := S (next_id (w_store w)) |};
        clock := clock w; ticks := S (ticks w);
        uuid4 := uuid4 w; drawn := drawn w |}).
Proof. reflexivity. Qed.

Lemma save_existing (item : entity) (w : world) (i : nat) (d : fields) :
  ent_id item = Some i ->
  stored (w_store w) i = Some d ->
  save item w
  = ({| ent_id := Some i;
        ent_fields := <["updated_at" := VDatetime (clock w (ticks w))]>
                        (ent_fields item) |},
     {| w_store :=
          {| docs := map (fun p =>
                            if Nat.eqb (fst p) i
                            then (i, <["updated_at" :=
                                         VDatetime (clock w (ticks w))]>
                                       (ent_fields item))
                            else p) (docs (w_store w));
             next_id := next_id (w_store w) |};
        clock := clock w; ticks := S (ticks w);
        uuid4 := uuid4 w; drawn := drawn w |}).
Proof.
  intros Hid Hst. unfold save, pre_save, upsert. cbn [now ent_id w_store].
  rewrite Hid, (stored_existsb _ _ _ Hst). reflexivity.
Qed.

End LookupFacts.

(** X12. After [create_item] on a kind without owner or tenant scoping, a
    lookup by the identifier of the created entity returns that entity,
    both through [get_item] and through [get_by_uid], provided the entity
    was created not deleted and no document in the store already had the
    identifier. *)
Theorem create_then_get_item (loads : string -> option pyval) (k : kind)
  (data : list (string * pyval)) (w w' : world) (item : entity) (u : N) :
  get_item_owner (kind_class k) = BaseEntity ->
  hasattr k "user_id" = false ->
  hasattr k "business_name" = false ->
  create_item k data w = (Ok item, w') ->
  ent_fields item !! "uid" = Some (VUuid u) ->
  ent_fields item !! "is_deleted" = Some (VBool false) ->
  (forall p, In p (docs (w_store w)) ->
     store_eqb (field_value (snd p) "uid") (VUuid u) = false) ->
  get_item loads k (uid_args (VUuid u)) (w_store w') = Ok (Some item)
  /\ get_by_uid (VUuid u) (w_store w') = Some item.
Proof.
  intros Hown Huser Hbus Hc Huid Hdel Hfresh.
  rewrite (create_item_mutable k data w (create_item_Ok_mutable _ _ _ _ _ Hc))
    in Hc.
  unfold construct in Hc.
  pose proof (build_fields_world (model_fields k) data ∅ w) as Hw.
  destruct (build_fields (model_fields k) data ∅ w) as [[fs|e] w1];
    [|discriminate].
  cbn [snd] in Hw. destruct Hw as (Hstore & _).
  rewrite save_new in Hc. injection Hc as <- <-.
  cbn [ent_fields w_store] in *. rewrite Hstore in *.
  set (doc := <["updated_at" := VDatetime (clock w1 (ticks w1))]> fs) in *.
  set (i := next_id (w_store w)).
  assert (Huv : field_value doc "uid" = VUuid u)
    by (unfold field_value; now rewrite Huid).
  assert (Hdv : field_value doc "is_deleted" = VBool false)
    by (unfold field_value; now rewrite Hdel).
  assert (Hq : get_query loads k (uid_args (VUuid u))
               = Ok [CEq "is_deleted" (VBool false); CEq "uid" (VUuid u)]).
  { unfold get_query, get_queryset, standard_filters. cbn.
    rewrite Huser, Hbus. reflexivity. }
  assert (Hlist : forall q,
            In (CEq "uid" (VUuid u)) q ->
            matches q doc = true ->
            to_list {| docs := docs (w_store w) ++ [(i, doc)];
                       next_id := S i |} q
            = [{| ent_id := Some i; ent_fields := doc |}]).
  { intros q Hin Hm. unfold to_list; cbn [docs].
    rewrite List.filter_app, filter_all_false.
    - cbn [List.filter snd app]. rewrite Hm. reflexivity.
    - intros p Hp. unfold matches.
      destruct (forallb (matches_condition (snd p)) q) eqn:Hf;
        [|reflexivity].
      rewrite forallb_forall in Hf. specialize (Hf _ Hin).
      cbn [matches_condition] in Hf. rewrite (Hfresh p Hp) in Hf.
      discriminate. }
  assert (Heq : store_eqb (VUuid u) (VUuid u) = true)
    by (cbn; apply N.eqb_refl).
  split.
  - unfold get_item. rewrite Hown. unfold BaseEntity_get_item.
    rewrite Hq. cbn [bind]. rewrite Hlist; [reflexivity | cbn; tauto |].
    unfold matches. cbn [forallb matches_condition].
    rewrite Huv, Hdv, Heq. reflexivity.
  - unfold get_by_uid, find_one. rewrite Hlist; [reflexivity | cbn; tauto |].
    unfold matches. cbn [forallb matches_condition].
    rewrite Huv, Heq. reflexivity.
Qed.

Lemma create_then_get_item_witness :
  get_item_owner (kind_class Note) = BaseEntity
  /\ hasattr Note "user_id" = false
  /\ hasattr Note "business_name" = false
  /\ exists item w',
       create_item Note [("price", VInt 3)] sample_world = (Ok item, w')
       /\ get_item loads_none Note (uid_args (VUuid 100)) (w_store w')
          = Ok (Some item).
Proof.
  split; [reflexivity|]. split; [reflexivity|]. split; [reflexivity|].
  destruct (create_item Note [("price", VInt 3)] sample_world)
    as [[item|e] w'] eqn:Hc; [|vm_compute in Hc; discriminate].
  exists item, w'. split; [reflexivity|].
  refine (proj1 (create_then_get_item loads_none Note [("price", VInt 3)]
                   sample_world w' item 100 eq_refl eq_refl eq_refl Hc
                   _ _ _)).
  - vm_compute in Hc. injection Hc as <- _. vm_compute. reflexivity.
  - vm_compute in Hc. injection Hc as <- _. vm_compute. reflexivity.
  - intros p [<-|[<-|[<-|[]]]]; vm_compute; reflexivity.
Defined.

(** X13. [get_by_uid] is not scoped by the soft-delete flag: after
    [delete_item] on a stored item whose identifier no other document has,
    [get_by_uid] still returns the item, now with [is_deleted] true, while
    [BaseEntity.get_item] for that identifier with the default
    [is_deleted=False] returns [None]. *)
Theorem get_by_uid_ignores_soft_delete (loads : string -> option pyval)
  (k : kind) (item : entity) (w : world) (i : nat) (u : N) :
  is_immutable (kind_class k) = false ->
  ent_id item = Some i ->
  stored (w_store w) i = Some (ent_fields item) ->
  ent_fields item !! "uid" = Some (VUuid u) ->
  uid_unique (w_store w) i (VUuid u) ->
  exists item' w',
    delete_item k item w = (Ok item', w')
    /\ ent_fields item' !! "is_deleted" = Some (VBool true)
    /\ get_by_uid (VUuid u) (w_store w') = Some item'
    /\ (forall a q,
          q_uid a = VUuid u -> q_is_deleted a = VBool false ->
          get_query loads k a = Ok q ->
          BaseEntity_get_item loads k a (w_store w') = Ok None).
Proof.
  intros Him Hid Hst Huid Huniq.
  unfold delete_item. rewrite Him. unfold BaseEntity_delete_item.
  set (item0 := {| ent_id := ent_id item;
                   ent_fields := <["is_deleted" := VBool true]>
                                   (ent_fields item) |}).
  rewrite (save_existing item0 w i (ent_fields item) Hid Hst).
  cbn [ent_fields item0].
  set (doc' := <["updated_at" := VDatetime (clock w (ticks w))]>
                 (<["is_deleted" := VBool true]> (ent_fields item))).
  eexists _, _. split; [reflexivity|].
  cbn [ent_fields w_store].
  assert (Hdel : doc' !! "is_deleted" = Some (VBool true))
    by (unfold doc'; now rewrite lookup_insert_ne, lookup_insert_eq).
  assert (Hu : field_value doc' "uid" = VUuid u).
  { unfold field_value, doc'.
    rewrite !lookup_insert_ne by discriminate. now rewrite Huid. }
  assert (Heq : store_eqb (VUuid u) (VUuid u) = true)
    by (cbn; apply N.eqb_refl).
  set (s' := {| docs := map (fun p => if Nat.eqb (fst p) i
                                      then (i, doc') else p)
                          (docs (w_store w));
                next_id := next_id (w_store w) |}).
  assert (Hdocs : forall p', In p' (docs s') ->
            p' = (i, doc')
            \/ store_eqb (field_value (snd p') "uid") (VUuid u) = false).
  { intros p' Hp'. cbn [docs s'] in Hp'.
    apply in_map_iff in Hp' as (p & <- & Hp).
    destruct (Nat.eqb_spec (fst p) i) as [Hpi|Hpi]; [left; reflexivity|].
    right. apply Huniq; assumption. }
  split; [exact Hdel|]. split.
  - unfold get_by_uid.
    change {| ent_id := Some i; ent_fields := doc' |}
      with (to_entity (i, doc')).
    apply find_one_only.
    + cbn [docs s']. apply in_map_iff. exists (i, ent_fields item).
      cbn [fst]. rewrite Nat.eqb_refl. split; [reflexivity|].
      apply stored_In, Hst.
    + unfold matches. cbn [forallb matches_condition snd].
      rewrite Hu, Heq. reflexivity.
    + intros p' Hp' Hm. destruct (Hdocs p' Hp') as [->|Hne];
        [reflexivity|].
      unfold matches in Hm. cbn [forallb matches_condition] in Hm.
      rewrite Hne in Hm. discriminate.
  - intros a q Ha Hda Hq. unfold BaseEntity_get_item. rewrite Hq.
    cbn [bind].
    destruct (get_query_uid loads k a q Hq) as [Hin1 Hin2];
      [rewrite Ha; reflexivity|].
    rewrite Ha in Hin1. rewrite Hda in Hin2.
    unfold to_list. rewrite filter_all_false; [reflexivity|].
    intros p' Hp'. unfold matches.
    destruct (forallb (matches_condition (snd p')) q) eqn:Hf;
      [|reflexivity].
    rewrite forallb_forall in Hf.
    pose proof (Hf _ Hin1) as H1. pose proof (Hf _ Hin2) as H2.
    cbn [matches_condition] in H1, H2.
    destruct (Hdocs p' Hp') as [->|Hne].
    + cbn [snd] in H2. unfold field_value in H2. rewrite Hdel in H2.
      discriminate.
    + rewrite Hne in H1. discriminate.
Qed.

Lemma get_by_uid_ignores_soft_delete_witness :
  is_immutable (kind_class Note) = false
  /\ ent_id sample_item = Some 1
  /\ stored (w_store sample_world) 1 = Some (ent_fields sample_item)
  /\ ent_fields sample_item !! "uid" = Some (VUuid 8)
  /\ uid_unique (w_store sample_world) 1 (VUuid 8)
  /\ exists item' w',
       delete_item Note sample_item sample_world = (Ok item', w')
       /\ get_by_uid (VUuid 8) (w_store w') = Some item'.
Proof.
  split; [reflexivity|]. split; [reflexivity|]. split; [reflexivity|].
  split; [reflexivity|].
  assert (Hu : uid_unique (w_store sample_world) 1 (VUuid 8)).
  { intros p [<-|[<-|[<-|[]]]] Hne; try reflexivity.
    exfalso. apply Hne. reflexivity. }
  split; [exact Hu|].
  destruct (get_by_uid_ignores_soft_delete loads_none Note sample_item
              sample_world 1 8 eq_refl eq_refl eq_refl eq_refl Hu)
    as (item' & w' & Hd & _ & Hg & _).
  exists item', w'. split; [exact Hd | exact Hg].
Defined.


(* ===================================================================== *)
(** * Further properties: the keyed condition registry *)
(* ===================================================================== *)

Section RegistryMore.

Import Conditions.

Lemma uid_coherent_init : uid_coherent init.
Proof.
  intros t f u H. cbn in H. rewrite lookup_empty in H. discriminate.
Qed.

Lemma uid_coherent_release (s s' : state) (uid : N) :
  inv s -> uid_coherent s -> release_condition uid s = Some s' ->
  uid_coherent s'.
Proof.
  intros Hinv Hco Hr.
  destruct (_conditions s !! uid) as [c|] eqn:Hc.
  2: { rewrite (release_condition_absent s uid Hc) in Hr.
       injection Hr as <-. exact Hco. }
  destruct (inv_entry_object s Hinv uid c Hc) as [o Ho].
  rewrite (release_condition_registered s uid c o Hinv Hc Ho) in Hr.
  injection Hr as <-.
  intros t f u Ht Hu. cbn [tasks _conditions] in Ht, Hu.
  apply lookup_delete_Some in Hu as [_ Hu].
  apply wake_lookup in Ht as (f0 & Hf0 & Huid & Hcond & _).
  rewrite Huid. apply (Hco t f0 u Hf0). now rewrite <- Hcond.
Qed.

Lemma uid_coherent_wait_begin (s s' : state) (t : nat) (uid : N) :
  inv s -> uid_coherent s -> wait_condition_begin t uid s = Some s' ->
  uid_coherent s'.
Proof.
  intros Hinv Hco Hw.
  destruct (tasks s !! t) as [f0|] eqn:Ht.
  { unfold wait_condition_begin in Hw. rewrite Ht in Hw. discriminate. }
  destruct (_conditions s !! uid) as [c|] eqn:Hc.
  - destruct (inv_entry_object s Hinv uid c Hc) as [o Ho].
    rewrite (wait_condition_begin_registered s t uid c o Hinv Ht Hc Ho)
      in Hw.
    injection Hw as <-.
    intros t' f u Hf Hu. cbn [tasks _conditions] in Hf, Hu.
    apply lookup_insert_Some in Hf as [[<- <-]|[Hne Hf]].
    + cbn [f_condition f_uid] in *.
      apply (inv_injective s Hinv uid u c Hc Hu).
    + apply (Hco t' f u Hf Hu).
  - rewrite (wait_condition_begin_absent s t uid Ht Hc) in Hw.
    injection Hw as <-.
    assert (Hold : forall c o, objects s !! c = Some o -> fresh s <> c).
    { intros c o Ho Heq. pose proof (inv_fresh s Hinv c o Ho). lia. }
    intros t' f u Hf Hu. cbn [tasks _conditions] in Hf, Hu.
    apply lookup_insert_Some in Hf as [[<- <-]|[Hne Hf]];
      apply lookup_insert_Some in Hu as [[<- Hu]|[Hneu Hu]];
      cbn [f_condition f_uid] in *.
    + reflexivity.
    + destruct (inv_entry_object s Hinv u _ Hu) as [o Ho].
      exfalso. eapply Hold; [exact Ho | reflexivity].
    + destruct (inv_task_object s Hinv t' f Hf) as (o & Ho & _).
      exfalso. eapply Hold; [exact Ho | exact Hu].
    + apply (Hco t' f u Hf Hu).
Qed.

Lemma uid_coherent_wait_resume (s s' : state) (t : nat) :
  inv s -> uid_coherent s -> wait_condition_resume t s = Some s' ->
  uid_coherent s'.
Proof.
  intros Hinv Hco Hw.
  destruct (tasks s !! t) as [f|] eqn:Ht.
  2: { unfold wait_condition_resume in Hw. rewrite Ht in Hw. discriminate. }
  destruct (f_done f) eqn:Hd.
  2: { unfold wait_condition_resume in Hw. rewrite Ht, Hd in Hw.
       discriminate. }
  destruct (inv_task_object s Hinv t f Ht) as (o & Ho & _).
  rewrite (wait_condition_resume_done s t f o Hinv Ht Hd Ho) in Hw.
  injection Hw as <-.
  intros t' f' u Hf Hu. cbn [tasks _conditions] in Hf, Hu.
  apply lookup_delete_Some in Hf as [_ Hf].
  apply lookup_delete_Some in Hu as [_ Hu].
  apply (Hco t' f' u Hf Hu).
Qed.

Lemma reachable_coherent (s : state) : reachable s -> uid_coherent s.
Proof.
  intros [es Hr].
  assert (H : forall es s0 s1, inv s0 -> uid_coherent s0 ->
            run es s0 = Some s1 -> uid_coherent s1).
  { clear. induction es as [|e es IH]; intros s0 s1 Hinv Hco Hr;
      cbn [run] in Hr.
    - injection Hr as <-. exact Hco.
    - destruct (do_event e s0) as [s2|] eqn:He; [|discriminate].
      apply (IH s2 s1); [eapply inv_do_event; eassumption | | exact Hr].
      destruct e as [t uid|t|uid]; cbn [do_event] in He.
      + eapply uid_coherent_wait_begin; eassumption.
      + eapply uid_coherent_wait_resume; eassumption.
      + eapply uid_coherent_release; eassumption. }
  apply (H es init s inv_init uid_coherent_init Hr).
Qed.

End RegistryMore.

(** X14. One [release_condition] is a broadcast: in every reachable state
    with an entry for the key, it wakes every coroutine parked on the
    condition of the entry, each of which can then resume and run to its
    end, and it leaves the coroutines parked on other conditions as they
    were. *)
Theorem release_wakes_all_waiters (s : Conditions.state) (uid : N)
  (c : nat) :
  Conditions.reachable s ->
  Conditions._conditions s !! uid = Some c ->
  exists s',
    Conditions.release_condition uid s = Some s'
    /\ (forall t f,
          Conditions.tasks s !! t = Some f ->
          Conditions.f_condition f = c ->
          Conditions.tasks s' !! t = Some (Conditions.set_done f)
          /\ exists s'', Conditions.wait_condition_resume t s' = Some s'')
    /\ (forall t f,
          Conditions.tasks s !! t = Some f ->
          Conditions.f_condition f <> c ->
          Conditions.tasks s' !! t = Some f).
Proof.
  intros Hreach Hc. pose proof (reachable_inv s Hreach) as Hinv.
  destruct (Conditions.inv_entry_object s Hinv uid c Hc) as [o Ho].
  pose proof (release_condition_registered s uid c o Hinv Hc Ho) as Hr.
  eexists. split; [exact Hr|].
  assert (Hinv' : Conditions.inv
                    {| Conditions._conditions :=
                         delete uid (Conditions._conditions s);
                       Conditions.objects := Conditions.objects s;
                       Conditions.fresh := Conditions.fresh s;
                       Conditions.tasks :=
                         Conditions.wake (Conditions.waiters o)
                           (Conditions.tasks s) |})
    by (eapply inv_release; eassumption).
  assert (Hwoken : forall t f,
            Conditions.tasks s !! t = Some f ->
            Conditions.f_condition f = c ->
            Conditions.wake (Conditions.waiters o) (Conditions.tasks s) !! t
            = Some (Conditions.set_done f)).
  { intros t f Ht Hf.
    destruct (in_dec Nat.eq_dec t (Conditions.waiters o)) as [Hin|Hout].
    - rewrite (wake_lookup_in _ _ _ Hin), Ht. reflexivity.
    - rewrite (wake_lookup_out _ _ _ Hout), Ht.
      destruct (Conditions.inv_task_object s Hinv t f Ht) as (o' & Ho' & Hw).
      rewrite Hf, Ho in Ho'. injection Ho' as <-.
      destruct (Conditions.f_done f) eqn:Hd.
      + destruct f as [u c' d]. cbn in Hd. subst d. reflexivity.
      + exfalso. apply Hout, Hw. reflexivity. }
  split.
  - intros t f Ht Hf. cbn [Conditions.tasks].
    split; [apply Hwoken; assumption|].
    pose proof (Hwoken t f Ht Hf) as Hw.
    destruct (Conditions.inv_task_object _ Hinv' t _ Hw) as (o' & Ho' & _).
    eexists.
    apply (wait_condition_resume_done _ t (Conditions.set_done f) o' Hinv');
      [exact Hw | reflexivity | exact Ho'].
  - intros t f Ht Hf. cbn [Conditions.tasks].
    rewrite wake_lookup_out; [exact Ht|].
    intros Hin.
    destruct (Conditions.inv_waiter_task s Hinv c o t Ho Hin)
      as (f' & Hf' & Hcf).
    rewrite Ht in Hf'. injection Hf' as <-. contradiction.
Qed.

Lemma release_wakes_all_waiters_witness :
  Conditions.reachable three_waiters
  /\ Conditions._conditions three_waiters !! 5%N = Some 0
  /\ exists s',
       Conditions.release_condition 5 three_waiters = Some s'
       /\ Conditions.f_done <$> Conditions.tasks s' !! 2 = Some true.
Proof.
  assert (Hr : Conditions.reachable three_waiters).
  { exists [Conditions.Wait 1 5; Conditions.Wait 2 5; Conditions.Wait 3 5].
    vm_compute. reflexivity. }
  assert (Hc : Conditions._conditions three_waiters !! 5%N = Some 0)
    by (vm_compute; reflexivity).
  split; [exact Hr|]. split; [exact Hc|].
  destruct (release_wakes_all_waiters three_waiters 5 0 Hr Hc)
    as (s' & Hrel & Hwake & _).
  exists s'. split; [exact Hrel|].
  destruct (Hwake 2 {| Conditions.f_uid := 5; Conditions.f_condition := 0;
                       Conditions.f_done := false |}
              ltac:(vm_compute; reflexivity) eq_refl) as [Ht _].
  rewrite Ht. reflexivity.
Defined.

(** X15. The cleanup of [wait_condition] removes whatever entry its key
    has when the coroutine resumes, also the entry of a newer generation:
    when a woken coroutine of a key resumes while the table holds another
    condition for that key on which a second coroutine is parked, the entry
    is removed, the second coroutine stays parked, and a later
    [release_condition] for the key finds no entry, so it is a no-op that
    does not wake it. *)
Theorem late_cleanup_strands_waiter (s : Conditions.state) (uid : N)
  (t1 t2 c2 : nat) (f1 : Conditions.frame) :
  Conditions.reachable s ->
  Conditions.tasks s !! t1 = Some f1 ->
  Conditions.f_uid f1 = uid ->
  Conditions.f_done f1 = true ->
  Conditions._conditions s !! uid = Some c2 ->
  Conditions.tasks s !! t2
  = Some {| Conditions.f_uid := uid; Conditions.f_condition := c2;
            Conditions.f_done := false |} ->
  exists s',
    Conditions.wait_condition_resume t1 s = Some s'
    /\ Conditions._conditions s' !! uid = None
    /\ Conditions.tasks s' !! t2
       = Some {| Conditions.f_uid := uid; Conditions.f_condition := c2;
                 Conditions.f_done := false |}
    /\ Conditions.release_condition uid s' = Some s'
    /\ Conditions.wait_condition_resume t2 s' = None.
Proof.
  intros Hreach Ht1 Hu Hd Hc Ht2.
  pose proof (reachable_inv s Hreach) as Hinv.
  destruct (Conditions.inv_task_object s Hinv t1 f1 Ht1) as (o & Ho & _).
  pose proof (wait_condition_resume_done s t1 f1 o Hinv Ht1 Hd Ho) as Hr.
  assert (Hne : t1 <> t2).
  { intros ->. rewrite Ht1 in Ht2. injection Ht2 as ->. discriminate Hd. }
  eexists. split; [exact Hr|].
  cbn [Conditions._conditions Conditions.tasks]. rewrite Hu.
  split; [apply lookup_delete_eq|].
  split; [rewrite lookup_delete_ne by exact Hne; exact Ht2|].
  split.
  - apply release_condition_absent. cbn. apply lookup_delete_eq.
  - unfold Conditions.wait_condition_resume. cbn [Conditions.tasks].
    rewrite lookup_delete_ne by exact Hne. rewrite Ht2. reflexivity.
Qed.

Lemma late_cleanup_strands_waiter_witness :
  Conditions.reachable late_cleanup_state
  /\ Conditions.tasks late_cleanup_state !! 1
     = Some {| Conditions.f_uid := 5; Conditions.f_condition := 0;
               Conditions.f_done := true |}
  /\ Conditions._conditions late_cleanup_state !! 5%N = Some 1
  /\ Conditions.tasks late_cleanup_state !! 2
     = Some {| Conditions.f_uid := 5; Conditions.f_condition := 1;
               Conditions.f_done := false |}
  /\ exists s',
       Conditions.wait_condition_resume 1 late_cleanup_state = Some s'
       /\ Conditions.release_condition 5 s' = Some s'
       /\ Conditions.wait_condition_resume 2 s' = None.
Proof.
  assert (Hr : Conditions.reachable late_cleanup_state).
  { exists [Conditions.Wait 1 5; Conditions.Release 5; Conditions.Wait 2 5].
    vm_compute. reflexivity. }
  split; [exact Hr|].
  split; [vm_compute; reflexivity|]. split; [vm_compute; reflexivity|].
  split; [vm_compute; reflexivity|].
  destruct (late_cleanup_strands_waiter late_cleanup_state 5 1 2 1
              {| Conditions.f_uid := 5; Conditions.f_condition := 0;
                 Conditions.f_done := true |} Hr
              ltac:(vm_compute; reflexivity) eq_refl eq_refl
              ltac:(vm_compute; reflexivity) ltac:(vm_compute; reflexivity))
    as (s' & H1 & _ & _ & H2 & H3).
  exists s'. split; [exact H1|]. split; [exact H2 | exact H3].
Defined.

(** X16. No two keys interfere: a step of the scheduler for one key (a
    wait or a release on it, or the resumption of a coroutine parked for
    it) leaves the entry of every other key and every coroutine parked for
    another key exactly as they were. *)
Theorem keys_do_not_interfere (s s' : Conditions.state)
  (e : Conditions.event) (uid uid' : N) :
  Conditions.reachable s ->
  Conditions.do_event e s = Some s' ->
  event_key s e = Some uid ->
  uid' <> uid ->
  Conditions._conditions s' !! uid' = Conditions._conditions s !! uid'
  /\ (forall t f,
        Conditions.tasks s !! t = Some f ->
        Conditions.f_uid f = uid' ->
        Conditions.tasks s' !! t = Some f).
Proof.
  intros Hreach He Hk Hne.
  pose proof (reachable_inv s Hreach) as Hinv.
  pose proof (reachable_coherent s Hreach) as Hco.
  destruct e as [t0 u|t0|u]; cbn [Conditions.do_event event_key] in He, Hk.
  - injection Hk as ->.
    destruct (Conditions.tasks s !! t0) as [f0|] eqn:Ht0.
    { unfold Conditions.wait_condition_begin in He. rewrite Ht0 in He.
      discriminate. }
    assert (Hother : forall t f, Conditions.tasks s !! t = Some f ->
              <[t0 := {| Conditions.f_uid := uid;
                         Conditions.f_condition :=
                           match Conditions._conditions s !! uid with
                           | Some c => c
                           | None => Conditions.fresh s
                           end;
                         Conditions.f_done := false |}]>
                (Conditions.tasks s) !! t = Some f).
    { intros t f Ht. rewrite lookup_insert_ne; [exact Ht|].
      intros ->. congruence. }
    destruct (Conditions._conditions s !! uid) as [c|] eqn:Hc.
    + destruct (Conditions.inv_entry_object s Hinv uid c Hc) as [o Ho].
      rewrite (wait_condition_begin_registered s t0 uid c o Hinv Ht0 Hc Ho)
        in He.
      injection He as <-. cbn [Conditions._conditions Conditions.tasks].
      split; [reflexivity|]. intros t f Ht _. apply Hother, Ht.
    + rewrite (wait_condition_begin_absent s t0 uid Ht0 Hc) in He.
      injection He as <-. cbn [Conditions._conditions Conditions.tasks].
      split; [apply lookup_insert_ne; congruence|].
      intros t f Ht _. apply Hother, Ht.
  - destruct (Conditions.tasks s !! t0) as [f0|] eqn:Ht0;
      [|discriminate Hk].
    cbn in Hk. injection Hk as Hu.
    destruct (Conditions.f_done f0) eqn:Hd.
    2: { unfold Conditions.wait_condition_resume in He.
         rewrite Ht0, Hd in He. discriminate. }
    destruct (Conditions.inv_task_object s Hinv t0 f0 Ht0) as (o & Ho & _).
    rewrite (wait_condition_resume_done s t0 f0 o Hinv Ht0 Hd Ho) in He.
    injection He as <-. cbn [Conditions._conditions Conditions.tasks].
    rewrite Hu. split; [apply lookup_delete_ne; congruence|].
    intros t f Ht Hf. rewrite lookup_delete_ne; [exact Ht|].
    intros ->. rewrite Ht0 in Ht. injection Ht as ->. congruence.
  - injection Hk as ->.
    destruct (Conditions._conditions s !! uid) as [c|] eqn:Hc.
    2: { rewrite (release_condition_absent s uid Hc) in He.
         injection He as <-. split; [reflexivity | auto]. }
    destruct (Conditions.inv_entry_object s Hinv uid c Hc) as [o Ho].
    rewrite (release_condition_registered s uid c o Hinv Hc Ho) in He.
    injection He as <-. cbn [Conditions._conditions Conditions.tasks].
    split; [apply lookup_delete_ne; congruence|].
    intros t f Ht Hf. rewrite wake_lookup_out; [exact Ht|].
    intros Hin.
    destruct (Conditions.inv_waiter_task s Hinv c o t Ho Hin)
      as (f' & Hf' & Hcf).
    rewrite Ht in Hf'. injection Hf' as <-.
    apply Hne. rewrite <- Hf.
    apply (Hco t f uid Ht). now rewrite Hcf.
Qed.

Lemma keys_do_not_interfere_witness :
  Conditions.reachable three_waiters
  /\ Conditions.do_event (Conditions.Wait 9 6) three_waiters <> None
  /\ forall s',
       Conditions.do_event (Conditions.Wait 9 6) three_waiters = Some s' ->
       Conditions._conditions s' !! 5%N
       = Conditions._conditions three_waiters !! 5%N.
Proof.
  assert (Hr : Conditions.reachable three_waiters).
  { exists [Conditions.Wait 1 5; Conditions.Wait 2 5; Conditions.Wait 3 5].
    vm_compute. reflexivity. }
  split; [exact Hr|]. split; [vm_compute; discriminate|].
  intros s' Hs'.
  exact (proj1 (keys_do_not_interfere three_waiters s'
                  (Conditions.Wait 9 6) 6 5 Hr Hs' eq_refl
                  ltac:(discriminate))).
Defined.

(** X17. Between two steps of the scheduler no lock is held and no two keys
    share a condition, so a [wait_condition] of a new task always reaches
    its suspension point: it neither blocks on the lock nor fails, it
    leaves an entry for its key, and the task is parked on the condition of
    that entry, not woken. *)
Theorem wait_always_parks (s : Conditions.state) (t : nat) (uid : N) :
  Conditions.reachable s ->
  Conditions.tasks s !! t = None ->
  exists s' c,
    Conditions.wait_condition_begin t uid s = Some s'
    /\ Conditions._conditions s' !! uid = Some c
    /\ Conditions.tasks s' !! t
       = Some {| Conditions.f_uid := uid; Conditions.f_condition := c;
                 Conditions.f_done := false |}
    /\ (forall c0, Conditions._conditions s !! uid = Some c0 -> c = c0)
    /\ (forall u1 u2 c1,
          Conditions._conditions s' !! u1 = Some c1 ->
          Conditions._conditions s' !! u2 = Some c1 -> u1 = u2)
    /\ (forall c1 o, Conditions.objects s' !! c1 = Some o ->
                     Conditions.locked o = false).
Proof.
  intros Hreach Ht. pose proof (reachable_inv s Hreach) as Hinv.
  assert (Hstep : forall s',
            Conditions.wait_condition_begin t uid s = Some s' ->
            Conditions.inv s')
    by (intros s' Hs'; eapply inv_wait_begin; eassumption).
  destruct (Conditions._conditions s !! uid) as [c|] eqn:Hc.
  - destruct (Conditions.inv_entry_object s Hinv uid c Hc) as [o Ho].
    pose proof (wait_condition_begin_registered s t uid c o Hinv Ht Hc Ho)
      as Hw.
    pose proof (Hstep _ Hw) as Hinv'.
    eexists _, c. split; [exact Hw|].
    cbn [Conditions._conditions Conditions.tasks].
    split; [exact Hc|]. split; [apply lookup_insert_eq|].
    split; [intros c0 [= <-]; reflexivity|].
    split; [apply (Conditions.inv_injective _ Hinv')
           | apply (Conditions.inv_unlocked _ Hinv')].
  - pose proof (wait_condition_begin_absent s t uid Ht Hc) as Hw.
    pose proof (Hstep _ Hw) as Hinv'.
    eexists _, (Conditions.fresh s). split; [exact Hw|].
    cbn [Conditions._conditions Conditions.tasks].
    split; [apply lookup_insert_eq|]. split; [apply lookup_insert_eq|].
    split; [intros c0 H0; discriminate|].
    split; [apply (Conditions.inv_injective _ Hinv')
           | apply (Conditions.inv_unlocked _ Hinv')].
Qed.

Lemma wait_always_parks_witness :
  Conditions.reachable three_waiters
  /\ Conditions.tasks three_waiters !! 4 = None
  /\ exists s' c,
       Conditions.wait_condition_begin 4 5 three_waiters = Some s'
       /\ Conditions._conditions s' !! 5%N = Some c.
Proof.
  assert (Hr : Conditions.reachable three_waiters).
  { exists [Conditions.Wait 1 5; Conditions.Wait 2 5; Conditions.Wait 3 5].
    vm_compute. reflexivity. }
  split; [exact Hr|]. split; [vm_compute; reflexivity|].
  destruct (wait_always_parks three_waiters 4 5 Hr
              ltac:(vm_compute; reflexivity))
    as (s' & c & Hw & Hc & _).
  exists s', c. split; [exact Hw | exact Hc].
Defined.


(* ===================================================================== *)
(** * Further properties: the router *)
(* ===================================================================== *)

Section RouterFacts.

Variable loads : string -> option pyval.

(** The guards of [get_item] look at the arguments only. *)
Lemma get_item_guard_passed (k : kind) (a : query_args) (s s' : store)
  (r : option entity) :
  get_item loads k a s = Ok r ->
  get_item loads k a s' = BaseEntity_get_item loads k a s'.
Proof.
  unfold get_item.
  destruct (get_item_owner (kind_class k)); try reflexivity.
  - destruct (_ && _); [discriminate | reflexivity].
  - destruct (py_eqb _ _); [discriminate | reflexivity].
  - destruct (py_eqb _ _); [discriminate | reflexivity].
Qed.

Lemma In_stored (s : store) (p : nat * fields) :
  In p (docs s) -> exists d, stored s (fst p) = Some d.
Proof.
  intros Hin. unfold stored.
  destruct (List.find (fun p0 => Nat.eqb (fst p0) (fst p)) (docs s))
    as [p0|] eqn:Hf; [eexists; reflexivity|].
  pose proof (List.find_none _ _ Hf p Hin) as Hn. cbn in Hn.
  rewrite Nat.eqb_refl in Hn. discriminate.
Qed.

(** A unique match, once marked deleted and saved, leaves no match. *)
Lemma to_list_after_delete (k : kind) (a : query_args) (w : world)
  (item : entity) (q : list condition) :
  q_is_deleted a = VBool false ->
  get_query loads k a = Ok q ->
  to_list (w_store w) q = [item] ->
  exists item' w',
    BaseEntity_delete_item item w = (Ok item', w')
    /\ ent_fields item' !! "is_deleted" = Some (VBool true)
    /\ to_list (w_store w') q = [].
Proof.
  intros Hda Hq Hl. unfold to_list in Hl.
  destruct (List.filter (fun p => matches q (snd p)) (docs (w_store w)))
    as [|p l] eqn:Hf; [discriminate|].
  destruct l; [|discriminate]. cbn [map] in Hl. injection Hl as <-.
  assert (Hp : In p (List.filter (fun p => matches q (snd p))
                       (docs (w_store w)))) by (rewrite Hf; now left).
  apply List.filter_In in Hp as [Hp _].
  destruct (In_stored _ _ Hp) as [d Hd].
  unfold BaseEntity_delete_item.
  set (item0 := {| ent_id := ent_id (to_entity p);
                   ent_fields := <["is_deleted" := VBool true]>
                                   (ent_fields (to_entity p)) |}).
  rewrite (save_existing item0 w (fst p) d eq_refl Hd). subst item0.
  cbn [ent_fields ent_id to_entity].
  eexists _, _. split; [reflexivity|]. cbn [ent_fields w_store].
  split; [now rewrite lookup_insert_ne, lookup_insert_eq|].
  unfold to_list; cbn [docs]. rewrite filter_all_false; [reflexivity|].
  intros p' Hp'. apply in_map_iff in Hp' as (p0 & <- & Hp0).
  destruct (get_query_seed loads k a q Hq) as [rest ->].
  rewrite Hda in *.
  destruct (Nat.eqb_spec (fst p0) (fst p)) as [He|Hne].
  - unfold matches. cbn [forallb matches_condition snd].
    unfold field_value. rewrite lookup_insert_ne by discriminate.
    rewrite lookup_insert_eq. reflexivity.
  - destruct (matches _ (snd p0)) eqn:Hm; [|reflexivity].
    exfalso. apply Hne.
    assert (Hin : In p0 (List.filter
                           (fun p1 => matches
                              (CEq "is_deleted" (VBool false) :: rest)
                              (snd p1))
                           (docs (w_store w))))
      by (apply List.filter_In; auto).
    rewrite Hf in Hin. destruct Hin as [->|[]]. reflexivity.
Qed.

End RouterFacts.

(** X18. Deleting through the router is final for the router: once the
    delete handler has succeeded for an identifier and a user, the
    retrieve, update and delete handlers for the same identifier and user
    all end in the 404 [item_not_found] error and leave the store as it
    is; the entity the first delete returned is marked deleted. *)
Theorem router_delete_then_not_found (loads : string -> option pyval)
  (k : kind) (uid user_id : pyval) (w w' : world) (item' : entity) :
  router_delete_item loads k uid user_id w = (RouteOk item', w') ->
  ent_fields item' !! "is_deleted" = Some (VBool true)
  /\ router_retrieve_item loads k uid user_id (w_store w')
     = RouteHTTP 404 "item_not_found"
  /\ router_delete_item loads k uid user_id w'
     = (RouteHTTP 404 "item_not_found", w')
  /\ forall data,
       router_update_item loads k uid user_id data w'
       = (RouteHTTP 404 "item_not_found", w').
Proof.
  intros H. unfold router_delete_item, router_get_item in H.
  destruct (get_item loads k (handler_args uid user_id) (w_store w))
    as [[item|]|e] eqn:Hg; try discriminate.
  pose proof (get_item_guard_passed loads k _ _ (w_store w') _ Hg) as Hg'.
  apply get_item_Ok_base in Hg. unfold BaseEntity_get_item in Hg.
  destruct (get_query loads k (handler_args uid user_id)) as [q|e] eqn:Hq;
    cbn [bind] in Hg; [|discriminate].
  destruct (to_list (w_store w) q) as [|x [|y l]] eqn:Hl; try discriminate.
  injection Hg as ->.
  unfold delete_item in H.
  destruct (is_immutable (kind_class k)); [discriminate|].
  destruct (to_list_after_delete loads k (handler_args uid user_id) w item q
              eq_refl Hq Hl)
    as (i1 & w1 & Hd & Hdel & Hnone).
  rewrite Hd in H. injection H as <- <-.
  assert (Hnf : router_get_item loads k (handler_args uid user_id)
                  (w_store w1) = RouteHTTP 404 "item_not_found").
  { unfold router_get_item. rewrite Hg'. unfold BaseEntity_get_item.
    rewrite Hq. cbn [bind]. rewrite Hnone. reflexivity. }
  split; [exact Hdel|]. split; [exact Hnf|]. split.
  - unfold router_delete_item. rewrite Hnf. reflexivity.
  - intros data. unfold router_update_item. rewrite Hnf. reflexivity.
Qed.

Lemma router_delete_then_not_found_witness :
  exists item' w',
    router_delete_item loads_none Note (VUuid 8) VNone sample_world
    = (RouteOk item', w')
    /\ router_delete_item loads_none Note (VUuid 8) VNone w'
       = (RouteHTTP 404 "item_not_found", w').
Proof.
  eexists _, _. split; [vm_compute; reflexivity|].
  exact (proj1 (proj2 (proj2
           (router_delete_then_not_found loads_none Note (VUuid 8) VNone
              sample_world _ _ eq_refl)))).
Defined.

(** X19. The handlers of the base router call [get_item] with the
    identifier and the user only, so for a kind whose lookup is that of
    [BusinessEntity] or [BusinessOwnedEntity] the retrieve, update and
    delete handlers always end in [ValueError("business_name is
    required")], whatever the store holds, and change nothing; for a kind
    whose lookup is that of [OwnedEntity] they end in [ValueError("user_id
    is required")] for a request without a user. *)
Theorem router_scoped_kinds_rejected (loads : string -> option pyval)
  (k : kind) (uid user_id : pyval) (data : list (string * pyval))
  (w : world) :
  (get_item_owner (kind_class k) <> BaseEntity
   /\ (get_item_owner (kind_class k) = OwnedEntity -> user_id = VNone)) ->
  let e := if has_business_name (get_item_owner (kind_class k))
           then ValueError "business_name is required"
           else ValueError "user_id is required" in
  router_retrieve_item loads k uid user_id (w_store w) = RouteRaise e
  /\ router_update_item loads k uid user_id data w = (RouteRaise e, w)
  /\ router_delete_item loads k uid user_id w = (RouteRaise e, w).
Proof.
  intros [Hnb Hown] e. subst e.
  assert (Hg : router_get_item loads k (handler_args uid user_id) (w_store w)
               = RouteRaise
                   (if has_business_name (get_item_owner (kind_class k))
                    then ValueError "business_name is required"
                    else ValueError "user_id is required")).
  { unfold router_get_item, get_item.
    destruct (kind_class k); cbn in Hnb, Hown |- *;
      try (exfalso; apply Hnb; reflexivity);
      try reflexivity; rewrite (Hown eq_refl); reflexivity. }
  unfold router_retrieve_item, router_update_item, router_delete_item.
  rewrite Hg. repeat split.
Qed.

Lemma router_scoped_kinds_rejected_witness :
  (get_item_owner (kind_class Invoice) <> BaseEntity
   /\ (get_item_owner (kind_class Invoice) = OwnedEntity
       -> VUuid 5 = VNone))
  /\ router_retrieve_item loads_none Invoice (VUuid 8) (VUuid 5)
       (w_store sample_world)
     = RouteRaise (ValueError "business_name is required").
Proof.
  assert (H : get_item_owner (kind_class Invoice) <> BaseEntity
              /\ (get_item_owner (kind_class Invoice) = OwnedEntity
                  -> VUuid 5 = VNone))
    by (split; [discriminate | intros H; discriminate H]).
  split; [exact H|].
  exact (proj1 (router_scoped_kinds_rejected loads_none Invoice (VUuid 8)
                  (VUuid 5) [] sample_world H)).
Defined.


(** The window of a listing whose limit the router has clamped. *)
Lemma adjust_pagination_clamped (st : Settings) (offset limit : Z) :
  adjust_pagination st (ArgInt offset)
    (ArgInt (Z.max 1 (Z.min limit (page_max_limit st))))
  = (Z.max offset 0, Z.max 1 (Z.min limit (page_max_limit st))).
Proof.
  unfold adjust_pagination. cbn [unwrap_query].
  rewrite int_or_offset, int_or_nonzero by lia. f_equal. lia.
Qed.

(** X20. The page the router answers with. [_list_items] has the
    collection read twice, for the page and then for the total. The limit
    it reports is the requested one clamped to between 1 and the page
    maximum; the offset it reports is the requested one as it came, also
    when negative; the total is not negative; the items come newest first
    and are never more than the reported limit. When the two readings saw
    the same documents, the number of items is the smaller of the reported
    limit and what the total leaves after the offset, taken as 0 when
    negative. *)
Theorem router_list_items_response (loads : string -> option pyval)
  (st : Settings) (k : kind) (request_user_id : pyval) (offset limit : Z)
  (kwargs : list (string * pyval)) (s s' : store)
  (resp : PaginatedResponse) :
  router_list_items loads st k request_user_id offset limit kwargs s s'
  = Ok resp ->
  pr_limit resp = Z.max 1 (Z.min limit (page_max_limit st))
  /\ pr_offset resp = offset
  /\ (0 <= pr_total resp)%Z
  /\ (Z.of_nat (List.length (pr_items resp)) <= pr_limit resp)%Z
  /\ newest_first (pr_items resp)
  /\ (docs s' = docs s ->
      Z.of_nat (List.length (pr_items resp))
      = Z.min (pr_limit resp) (Z.max 0 (pr_total resp - Z.max offset 0))).
Proof.
  unfold router_list_items, list_total_combined, list_items, total_count.
  rewrite adjust_pagination_clamped.
  match goal with
  | |- context [get_query loads k ?a] =>
      destruct (get_query loads k a) as [q|e]
  end; cbn [bind]; [|discriminate].
  intros [= <-]. cbn [pr_limit pr_offset pr_total pr_items fst snd].
  pose proof (to_list_window_length s q (Z.max offset 0)
                (Z.max 1 (Z.min limit (page_max_limit st)))
                ltac:(lia) ltac:(lia)) as Hlen.
  split; [reflexivity|]. split; [reflexivity|].
  split; [unfold count; lia|].
  split; [lia|].
  split.
  - unfold to_list_window.
    apply newest_first_firstn, newest_first_skipn, sort_desc_newest_first.
  - intros Hdocs. rewrite Hlen. unfold count. rewrite Hdocs. reflexivity.
Qed.

Lemma router_list_items_response_witness :
  router_list_items loads_none core_Settings Note VNone (-2) 0 []
    sample_store sample_store
  = Ok {| pr_items :=
            [ {| ent_id := Some 2;
                 ent_fields := sample_doc 7 12 12 false 5 |} ];
          pr_total := 3; pr_offset := (-2); pr_limit := 1 |}
  /\ docs sample_store = docs sample_store
  /\ Z.of_nat 1 = Z.min 1 (Z.max 0 (3 - Z.max (-2) 0)).
Proof.
  assert (H : router_list_items loads_none core_Settings Note VNone (-2) 0
                [] sample_store sample_store
              = Ok {| pr_items :=
                        [ {| ent_id := Some 2;
                             ent_fields := sample_doc 7 12 12 false 5 |} ];
                      pr_total := 3; pr_offset := (-2); pr_limit := 1 |})
    by (vm_compute; reflexivity).
  split; [exact H|]. split; [reflexivity|].
  exact (proj2 (proj2 (proj2 (proj2 (proj2
           (router_list_items_response loads_none core_Settings Note VNone
              (-2) 0 [] sample_store sample_store _ H))))) eq_refl).
Defined.

(* ===================================================================== *)
(** * Further properties: expiry *)
(* ===================================================================== *)

(** X21. [expired(days)] reads the clock once and is true exactly from the
    instant [days + 1] whole days after [updated_at]: an item updated
    [days] days and 23 hours ago is not expired. *)
Theorem expired_threshold (item : fields) (days u : Z) (w : world) :
  item !! "updated_at" = Some (VDatetime u) ->
  exists b,
    expired item days w = (Ok b, snd (now w))
    /\ (b = true
        <-> ((days + 1) * microseconds_per_day
             <= clock w (ticks w) - u)%Z).
Proof.
  intros Hu. unfold expired, field_value. rewrite Hu. cbn [now snd].
  eexists. split; [reflexivity|].
  rewrite Z.ltb_lt. unfold microseconds_per_day.
  pose proof (Z.div_mod (clock w (ticks w) - u) 86400000000 ltac:(lia)).
  pose proof (Z.mod_pos_bound (clock w (ticks w) - u) 86400000000
                ltac:(lia)).
  split; intros; nia.
Qed.

Lemma expired_threshold_witness :
  sample_doc 8 11 11 false 4 !! "updated_at" = Some (VDatetime 11)
  /\ exists b,
       expired (sample_doc 8 11 11 false 4) 3 sample_world
       = (Ok b, snd (now sample_world))
       /\ (b = true
           <-> ((3 + 1) * microseconds_per_day
                <= clock sample_world (ticks sample_world) - 11)%Z).
Proof.
  split; [reflexivity|].
  exact (expired_threshold (sample_doc 8 11 11 false 4) 3 11 sample_world
           eq_refl).
Defined.


(* ===================================================================== *)
(** * Further properties: the language enumeration *)
(* ===================================================================== *)

(** X22. The table of [_info] agrees with the members of [Language]: every
    member has an entry, so [fa], [en], [abbreviation] and [get_dict]
    never end in a [KeyError]; the [en] of the entry is the member's
    value; the abbreviations are two characters long and differ between
    any two members; [has_value] accepts exactly the values of the
    members; and [get_choices] returns one dictionary for each member, in
    order, with the member's value under [value]. *)
Theorem language_table_complete :
  (forall l : Language.Language,
     exists f a,
       Language._info l
       = Some {| Language.info_fa := f; Language.info_en := Language.value l;
                 Language.info_abbreviation := a |}
       /\ String.length a = 2)
  /\ (forall l1 l2 : Language.Language,
        Language.abbreviation l1 = Language.abbreviation l2 -> l1 = l2)
  /\ (forall v : string,
        Language.has_value v = true <-> exists l, Language.value l = v)
  /\ (exists cs,
        Language.get_choices = Some cs
        /\ map (fun d => dict_find_text d "value") cs
           = map (fun l => Some (Language.value l))
               Language.Language_members).
Proof.
  split; [|split; [|split]].
  - intros []; eexists _, _; split; reflexivity.
  - intros l1 l2 H.
    destruct l1; destruct l2; try reflexivity; vm_compute in H;
      discriminate H.
  - intros v. unfold Language.has_value. rewrite existsb_exists. split.
    + intros (l & _ & Hl). apply String.eqb_eq in Hl. now exists l.
    + intros [l <-]. exists l. split; [|apply String.eqb_refl].
      destruct l; cbn; tauto.
  - eexists. split; [vm_compute; reflexivity|]. vm_compute. reflexivity.
Qed.
